(** * thejoker.sampler: marginal likelihood and posterior-sample container

    A shallow embedding of [thejoker/sampler/likelihood.py] and
    [thejoker/sampler/samples.py].

    Conventions of the embedding.
    - Python floats are idealised as real numbers ([R]): there is no
      rounding and no overflow.  The IEEE specials that the code produces by
      a test on its argument (nan and +-inf of [np.log], nan of [np.sqrt])
      are added on top in [xfloat].  Equalities "within floating tolerance"
      are therefore exact equalities here, and what is stated of a numerical
      result is stated in exact arithmetic.
    - A Python exception is a value of [exn] (class and message); a call
      either returns or raises ([result]).  Code that mutates objects
      threads a heap ([Samples.heap]) and keeps the heap reached when an
      exception is raised.
    - numpy arrays of the likelihood are one- and two-dimensional lists with
      numpy's run-time shape checks written out.  The sample arrays of
      [JokerSamples] live in heap buffers, because numpy slices are views and
      [astropy.units.Quantity(...)] copies.  Sample arrays are modelled up to
      one dimension (shape [()] or [(n,)]). *)

From Stdlib Require Import Reals Lra Lia ZArith List String.
From stdpp Require Import base option list gmap strings pretty.

Local Open Scope R_scope.
Local Open Scope string_scope.
Local Open Scope list_scope.

(** ** Python results and exceptions *)

Module Py.

Inductive exn_class :=
| TypeError | ValueError | KeyError | IndexError | AttributeError
| LinAlgError | UnitConversionError | SystemError.

Record exn := Exn { exn_cls : exn_class; exn_msg : string }.

Inductive result (A : Type) :=
| Return (a : A)
| Raise (e : exn).
Arguments Return {A} a.
Arguments Raise {A} e.

Definition bind {A B} (r : result A) (k : A → result B) : result B :=
  match r with
  | Return a => k a
  | Raise e => Raise e
  end.

Definition returns {A} (r : result A) : Prop := ∃ a, r = Return a.
Definition raises {A} (r : result A) (c : exn_class) : Prop :=
  ∃ msg, r = Raise (Exn c msg).

End Py.
Import Py.

#[global] Instance result_ret : MRet result := @Return.
#[global] Instance result_bind : MBind result :=
  fun A B k r => Py.bind r k.

(** ** numpy on real vectors and matrices *)

Module Np.

Abbreviation vec := (list R) (only parsing).

(** A two-dimensional array: [ncols] is kept apart from the rows so that the
    shape of an array without rows is still known. *)
Record matrix := Mat { ncols : nat; rows : list vec }.
Definition nrows (X : matrix) : nat := length (rows X).
Definition wf_matrix (X : matrix) : Prop :=
  Forall (fun r => length r = ncols X) (rows X).

Fixpoint dot (u v : vec) : R :=
  match u, v with
  | a :: u', b :: v' => a * b + dot u' v'
  | _, _ => 0
  end.

Definition vadd (u v : vec) : vec := zip_with Rplus u v.
Definition vsub (u v : vec) : vec := zip_with Rminus u v.
Definition vscale (c : R) (u : vec) : vec := map (Rmult c) u.
Definition zeros (n : nat) : vec := repeat 0 n.

(** [np.sum] of a one-dimensional array. *)
Definition np_sum (u : vec) : R := fold_right Rplus 0 u.

(** The linear combination [sum_j xs[j] * rs[j]] of rows of width [c]. *)
Fixpoint lincomb (c : nat) (xs : vec) (rs : list vec) : vec :=
  match xs, rs with
  | x :: xs', r :: rs' => vadd (vscale x r) (lincomb c xs' rs')
  | _, _ => zeros c
  end.

(** Matrix product and matrix-vector product on rows, without shape checks. *)
Definition mmul (c : nat) (X Y : list vec) : list vec :=
  map (fun r => lincomb c r Y) X.
Definition mv (X : list vec) (v : vec) : vec := map (fun r => dot r v) X.

Definition col (j : nat) (X : list vec) : vec := map (fun r => nth j r 0) X.

(** [X.T] *)
Definition transpose (X : matrix) : matrix :=
  {| ncols := nrows X;
     rows := map (fun j => col j (rows X)) (seq 0 (ncols X)) |}.

(** [v[None]]: a one-dimensional array seen as a single row. *)
Definition newaxis0 (v : vec) : matrix := {| ncols := length v; rows := [v] |}.

Definition shapes_msg : string := "operands could not be broadcast together".
Definition align_msg : string := "shapes not aligned".

(** numpy's broadcasting rule for one axis. *)
Definition bcast_dim (a b : nat) : option nat :=
  if (a =? b)%nat then Some a
  else if (a =? 1)%nat then Some b
  else if (b =? 1)%nat then Some a
  else None.

Definition stretch {A} (d : A) (n : nat) (l : list A) : list A :=
  if (length l =? n)%nat then l else repeat (hd d l) n.

(** Elementwise binary operation on one-dimensional arrays. *)
Definition np_binop1 (f : R → R → R) (u v : vec) : result vec :=
  match bcast_dim (length u) (length v) with
  | Some n => Return (zip_with f (stretch 0 n u) (stretch 0 n v))
  | None => Raise (Exn ValueError shapes_msg)
  end.

(** Elementwise binary operation on two-dimensional arrays. *)
Definition np_binop2 (f : R → R → R) (X Y : matrix) : result matrix :=
  match bcast_dim (nrows X) (nrows Y), bcast_dim (ncols X) (ncols Y) with
  | Some r, Some c =>
      let sx := stretch [] r (map (stretch 0 c) (rows X)) in
      let sy := stretch [] r (map (stretch 0 c) (rows Y)) in
      Return {| ncols := c; rows := zip_with (zip_with f) sx sy |}
  | _, _ => Raise (Exn ValueError shapes_msg)
  end.

(** [X.dot(Y)] for two-dimensional [X] and [Y]. *)
Definition dot_mm (X Y : matrix) : result matrix :=
  if (ncols X =? nrows Y)%nat
  then Return {| ncols := ncols Y; rows := mmul (ncols Y) (rows X) (rows Y) |}
  else Raise (Exn ValueError align_msg).

(** [X.dot(v)] for two-dimensional [X] and one-dimensional [v]. *)
Definition dot_mv (X : matrix) (v : vec) : result vec :=
  if (ncols X =? length v)%nat
  then Return (mv (rows X) v)
  else Raise (Exn ValueError align_msg).

(** *** [np.linalg.solve]

    A direct solver: elimination of the first unknown with a pivot row, then
    the smaller system, then back-substitution.  The system is a list of
    equations [(row, rhs)].  LAPACK pivots on the entry of largest modulus;
    over exact arithmetic every nonzero pivot gives the same solution, and
    the first one is taken here.  A pivot is tested against zero on exact
    reals.  On doubles the test is made on rounded numbers: LAPACK can
    raise for an ill-conditioned matrix that is nonsingular over the reals,
    and can return for a matrix that is singular over the reals. *)

Abbreviation equation := (list R * R)%type (only parsing).

Fixpoint find_pivot (eqs : list equation)
  : option (equation * list equation) :=
  match eqs with
  | [] => None
  | (row, b) :: rest =>
      match row with
      | a :: _ =>
          if Req_dec_T a 0
          then match find_pivot rest with
               | Some (pv, others) => Some (pv, (row, b) :: others)
               | None => None
               end
          else Some ((row, b), rest)
      | [] => None
      end
  end.

Definition eliminate (p : R) (r : vec) (b0 : R) (e : equation) : equation :=
  match e with
  | (a :: r', b') => (vsub r' (vscale (a / p) r), b' - a / p * b0)
  | ([], b') => ([], b')
  end.

Fixpoint solve_eqs (n : nat) (eqs : list equation) : option vec :=
  match n with
  | O => Some []
  | S k =>
      match find_pivot eqs with
      | Some ((p :: r, b0), others) =>
          match solve_eqs k (map (eliminate p r b0) others) with
          | Some x' => Some ((b0 - dot r x') / p :: x')
          | None => None
          end
      | _ => None
      end
  end.

Definition np_linalg_solve (M : matrix) (b : vec) : result vec :=
  if negb (nrows M =? ncols M)%nat
  then Raise (Exn LinAlgError "Last 2 dimensions of the array must be square")
  else if negb (length b =? nrows M)%nat
  then Raise (Exn ValueError "solve: Input operand 1 has a mismatch in its core dimension")
  else match solve_eqs (nrows M) (combine (rows M) b) with
       | Some x => Return x
       | None => Raise (Exn LinAlgError "Singular matrix")
       end.

(** *** [np.linalg.slogdet]

    The determinant is the cofactor expansion along the first column. *)

Fixpoint drop_nth {A} (i : nat) (l : list A) : list A :=
  match i, l with
  | _, [] => []
  | O, _ :: l' => l'
  | S i', x :: l' => x :: drop_nth i' l'
  end.

Fixpoint det_n (n : nat) (X : list vec) : R :=
  match n with
  | O => 1
  | S k =>
      np_sum
        (map (fun i =>
                (-1) ^ i * nth 0 (nth i X []) 0
                * det_n k (map (drop 1) (drop_nth i X)))
             (seq 0 (S k)))
  end.

Definition det (M : matrix) : R := det_n (nrows M) (rows M).

(** IEEE values that [np.log] and [np.linalg.slogdet] can produce from reals. *)
Inductive xfloat := Fin (r : R) | PInf | NInf | NaN.

Definition xadd (a b : xfloat) : xfloat :=
  match a, b with
  | NaN, _ | _, NaN => NaN
  | Fin x, Fin y => Fin (x + y)
  | PInf, NInf | NInf, PInf => NaN
  | PInf, _ | _, PInf => PInf
  | NInf, _ | _, NInf => NInf
  end.

Definition xneg (a : xfloat) : xfloat :=
  match a with
  | Fin x => Fin (- x)
  | PInf => NInf
  | NInf => PInf
  | NaN => NaN
  end.

Definition xsub (a b : xfloat) : xfloat := xadd a (xneg b).

(** Product of a finite number with an IEEE value. *)
Definition xscale (c : R) (a : xfloat) : xfloat :=
  match a with
  | Fin x => Fin (c * x)
  | NaN => NaN
  | PInf => if Rlt_dec 0 c then PInf else if Rlt_dec c 0 then NInf else NaN
  | NInf => if Rlt_dec 0 c then NInf else if Rlt_dec c 0 then PInf else NaN
  end.

Definition np_log (x : R) : xfloat :=
  if Rlt_dec 0 x then Fin (ln x)
  else if Req_dec_T x 0 then NInf else NaN.

Definition xsum (l : list xfloat) : xfloat := fold_right xadd (Fin 0) l.

(** [(sign, logdet)] of a square matrix. *)
Definition np_linalg_slogdet (M : matrix) : result (R * xfloat) :=
  if negb (nrows M =? ncols M)%nat
  then Raise (Exn LinAlgError "Last 2 dimensions of the array must be square")
  else
    let d := det M in
    if Rlt_dec 0 d then Return (1, Fin (ln d))
    else if Rlt_dec d 0 then Return (-1, Fin (ln (- d)))
    else Return (0, NInf).

End Np.

(** ** likelihood.py *)

Module Likelihood.
Import Np.

(** The observation set ([RVData], declared outside these sources): the
    fields the likelihood reads. *)
Record RVData := {
  _t_bmjd : vec;      (* data._t_bmjd *)
  t_offset : R;       (* data.t_offset *)
  rv_value : vec;     (* data.rv.value *)
  ivar_value : vec    (* data.ivar.value *)
}.

(** [jparams.trends[k].n_terms] ([JokerParams], declared outside these
    sources). *)
Record PolynomialVelocityTrend := { n_terms : nat }.
Record JokerParams := { trends : list PolynomialVelocityTrend }.

(** What the likelihood returns: a bare Python float or a rank-1 array. *)
Inductive value :=
| Scalar (x : xfloat)
| Array1 (xs : list xfloat).

(** [np.vander(t, N=n, increasing=True)] *)
Definition np_vander (t : vec) (n : nat) : matrix :=
  {| ncols := n; rows := map (fun ti => map (fun k => ti ^ k) (seq 0 n)) t |}.

(** [z[:,None]] *)
Definition newaxis1 (z : vec) : matrix :=
  {| ncols := 1; rows := map (fun x => [x]) z |}.

(** [np.hstack((X, Y))] of two-dimensional arrays. *)
Definition np_hstack (X Y : matrix) : result matrix :=
  if (nrows X =? nrows Y)%nat
  then Return {| ncols := (ncols X + ncols Y)%nat;
                 rows := zip_with app (rows X) (rows Y) |}
  else Raise (Exn ValueError
    "all the input array dimensions except for the concatenation axis must match exactly").

(** [a, b, c, d = p[:4]] *)
Definition unpack4 (p : vec) : result (R * R * R * R) :=
  match take 4 p with
  | [a; b; c; d] => Return (a, b, c, d)
  | _ => Raise (Exn ValueError "not enough values to unpack (expected 4)")
  end.

(** [p[i]] for a non-negative literal index. *)
Definition getitem (p : vec) (i : nat) : result R :=
  match p !! i with
  | Some x => Return x
  | None => Raise (Exn IndexError "index out of bounds")
  end.

Section WithCollaborators.

(** [rv_from_elements(times, P, K, e, omega, phi0)] of
    [thejoker.celestialmechanics] and [get_ivar(data, s)] of
    [thejoker.sampler.utils] are defined outside these sources. *)
Variable rv_from_elements : vec → R → R → R → R → R → result vec.
Variable get_ivar : RVData → R → vec.

Definition missing_jparams : exn :=
  Exn TypeError "design_matrix() missing 1 required positional argument: 'jparams'".

Definition design_matrix (nonlinear_p : vec) (data : RVData)
    (jparams : JokerParams) : result matrix :=
  let t := _t_bmjd data in
  let t_offset := t_offset data in
  '(P, phi0, ecc, omega) ← unpack4 nonlinear_p;
  zdot ← rv_from_elements t P 1 ecc omega
           (phi0 - 2 * PI * frac_part (t_offset / P));
  tr ← match trends jparams with
       | tr :: _ => Return tr
       | [] => Raise (Exn IndexError "list index out of range")
       end;
  let A1 := np_vander t (n_terms tr) in
  H ← np_hstack (newaxis1 zdot) A1;
  Return (transpose H).

(** A call of [design_matrix] with positional arguments: the three
    parameters have no defaults, so a missing one is a [TypeError]. *)
Definition call_design_matrix (nonlinear_p : option vec)
    (data : option RVData) (jparams : option JokerParams) : result matrix :=
  match nonlinear_p, data, jparams with
  | Some p, Some d, Some j => design_matrix p d j
  | None, _, _ =>
      Raise (Exn TypeError
        "design_matrix() missing required positional argument: 'nonlinear_p'")
  | _, None, _ =>
      Raise (Exn TypeError
        "design_matrix() missing required positional argument: 'data'")
  | _, _, None => Raise missing_jparams
  end.

Definition tensor_vector_scalar (A : matrix) (ivar y : vec)
  : result (matrix * vec * R) :=
  ATCinv ← np_binop2 Rmult (transpose A) (newaxis0 ivar);
  ATCinvA ← dot_mm ATCinv A;
  rhs ← dot_mv ATCinv y;
  p ← np_linalg_solve ATCinvA rhs;
  Ap ← dot_mv A p;
  dy ← np_binop1 Rminus Ap y;
  dy2w ← np_binop1 Rmult (map (fun d => d ^ 2) dy) ivar;
  let chi2 := np_sum dy2w in
  Return (ATCinvA, p, chi2).

(** Lines 97-110 of [marginal_ln_likelihood]: what follows the design
    matrix.  The first component is what is sent to [logger.debug]. *)
Definition marginal_ln_likelihood_given (A : matrix) (nonlinear_p : vec)
    (data : RVData) : list string * result value :=
  let r :=
    s ← getitem nonlinear_p 4;
    let ivar := get_ivar data s in
    '(ATCinvA, _, chi2) ← tensor_vector_scalar A ivar (rv_value data);
    '(sign, logdet) ← np_linalg_slogdet ATCinvA;
    Return (ivar, chi2, sign, logdet) in
  match r with
  | Raise e => ([], Raise e)
  | Return (ivar, chi2, sign, logdet) =>
      if Req_dec_T sign 1
      then
        let logdet' :=
          xadd logdet (xsum (map (fun w => np_log (w / (2 * PI))) ivar)) in
        ([], Return (Array1 [xsub (xscale 0.5 logdet') (xscale 0.5 (Fin chi2))]))
      else (["logdet sign < 0"], Return (Scalar NaN))
  end.

(** [marginal_ln_likelihood(nonlinear_p, data)]: line 95 calls
    [design_matrix(nonlinear_p, data)], with two arguments. *)
Definition marginal_ln_likelihood (nonlinear_p : vec) (data : RVData)
  : list string * result value :=
  match call_design_matrix (Some nonlinear_p) (Some data) None with
  | Raise e => ([], Raise e)
  | Return A => marginal_ln_likelihood_given A nonlinear_p data
  end.

End WithCollaborators.

(** *** The contract of the weighted solver in the words of the
    specification, for comparison with [tensor_vector_scalar]. *)

(** [diag(w)], materialised. *)
Fixpoint diag (w : vec) : list vec :=
  match w with
  | [] => []
  | a :: w' => (a :: zeros (length w')) :: map (cons 0) (diag w')
  end.

(** [A^T diag(ivar)] and [A^T diag(ivar) A] for [A] with one row per
    observation. *)
Definition At_diag (A : matrix) (ivar : vec) : list vec :=
  mmul (nrows A) (rows (transpose A)) (diag ivar).
Definition At_diag_A (A : matrix) (ivar : vec) : matrix :=
  {| ncols := ncols A; rows := mmul (ncols A) (At_diag A ivar) (rows A) |}.

(** [A diag(ivar) A^T], the product as the specification orders it. *)
Definition A_diag_At (A : matrix) (ivar : vec) : matrix :=
  {| ncols := nrows A;
     rows := mmul (nrows A) (mmul (ncols A) (rows A) (diag ivar))
               (rows (transpose A)) |}.

(** [sum_j ivar[j] * ((A p)[j] - y[j])^2] *)
Definition chi2_of (A : matrix) (ivar y p : vec) : R :=
  np_sum (zip_with Rmult ivar
            (map (fun d => d ^ 2) (zip_with Rminus (mv (rows A) p) y))).

(** A square system with only the trivial solution of [M v = 0]. *)
Definition nonsingular (M : matrix) : Prop :=
  ∀ v, length v = ncols M → mv (rows M) v = zeros (nrows M) → v = zeros (ncols M).

End Likelihood.

(** ** samples.py *)

Module Samples.

(** *** astropy quantities *)

(** A unit is the map from base-unit names to their exponents; the empty
    map is [u.dimensionless_unscaled]. *)
Abbreviation Unit := (gmap string Z).

Definition dimensionless_unscaled : Unit := ∅.
Definition base_unit (name : string) : Unit := {[ name := 1%Z ]}.
Definition unit_mul (u v : Unit) : Unit :=
  union_with (fun a b => let c := (a + b)%Z in
                         if decide (c = 0%Z) then None else Some c) u v.
Definition unit_pow2 (u : Unit) : Unit := unit_mul u u.
(** Square root of a unit: exponents are halved.  astropy has fractional
    powers; the only argument in these sources is dimensionless. *)
Definition unit_sqrt (u : Unit) : Unit := (fun z => (z / 2)%Z) <$> u.

(** A zero-dimensional quantity taken as a value: indexing a one-dimensional
    array with an integer gives a number of its own, not a view. *)
Record Scalar := { s_value : R; s_unit : Unit }.

Definition smul (a b : Scalar) : Scalar :=
  {| s_value := s_value a * s_value b; s_unit := unit_mul (s_unit a) (s_unit b) |}.
Definition smul_unit (a : Scalar) (u : Unit) : Scalar :=
  {| s_value := s_value a; s_unit := unit_mul (s_unit a) u |}.
Definition sdiv_float (a : Scalar) (x : R) : Scalar :=
  {| s_value := s_value a / x; s_unit := s_unit a |}.
Definition spow2 (a : Scalar) : Scalar :=
  {| s_value := s_value a ^ 2; s_unit := unit_pow2 (s_unit a) |}.
(** A quantity whose number can be nan. *)
Record XScalar := { xs_value : Np.xfloat; xs_unit : Unit }.

Definition finite (a : Scalar) : XScalar :=
  {| xs_value := Np.Fin (s_value a); xs_unit := s_unit a |}.
(** [np.sqrt]: nan for a negative number. *)
Definition np_sqrt (a : Scalar) : XScalar :=
  {| xs_value := if Rlt_dec (s_value a) 0 then Np.NaN
                 else Np.Fin (sqrt (s_value a));
     xs_unit := unit_sqrt (s_unit a) |}.
(** Product of a quantity and one whose number can be nan. *)
Definition smul_x (a : Scalar) (b : XScalar) : XScalar :=
  {| xs_value := Np.xscale (s_value a) (xs_value b);
     xs_unit := unit_mul (s_unit a) (xs_unit b) |}.
(** [x - a] for a Python float [x]: [a] has to be dimensionless. *)
Definition float_sub (x : R) (a : Scalar) : result Scalar :=
  if decide (s_unit a = dimensionless_unscaled)
  then Return {| s_value := x - s_value a; s_unit := dimensionless_unscaled |}
  else Raise (Exn UnitConversionError
    "Can only apply 'subtract' function to dimensionless quantities when other argument is not a quantity (unless the latter is all zero/infinity/nan)").

(** Shapes of sample arrays: [()] and [(n,)]. *)
Inductive Shape := Shape0 | Shape1 (n : nat).

#[global] Instance Shape_eq_dec : EqDecision Shape.
Proof. solve_decision. Defined.

Definition shape_size (s : Shape) : nat :=
  match s with Shape0 => 1 | Shape1 n => n end.
Definition shape_str (s : Shape) : string :=
  match s with Shape0 => "()" | Shape1 n => "(" +:+ pretty n +:+ ",)" end.

(** An array quantity: a window on a heap buffer, and a unit. *)
Record Quantity := {
  q_buf : nat;
  q_off : nat;
  q_shape : Shape;
  q_unit : Unit
}.

(** What can be assigned to a key, and what indexing a quantity gives. *)
Inductive pyval :=
| VQuantity (q : Quantity)
| VScalar (s : Scalar).

(** Non-string subscripts: an integer or [start:stop]. *)
Inductive index :=
| IInt (i : Z)
| ISlice (start stop : option Z).

Inductive key :=
| KStr (s : string)
| KIndex (i : index).

(** *** astropy times

    A [Time] is taken as the instant it denotes, given by its
    barycentric-coordinate-time MJD: [t.tcb.mjd] reads it and
    [Time(x, format='mjd', scale='tcb')] builds it. *)
Record Time := Time_mjd_tcb { tcb_mjd : R }.

(** [t0]: "astropy.time.Time, numeric (optional)". *)
Inductive t0_value :=
| T0_Time (t : Time)
| T0_numeric (x : R).

(** *** twobody orbits

    [KeplerOrbit] keeps its elements in a [KeplerElements] object of its
    own, reached through the attribute [elements]. *)
Record KeplerElements := {
  _P : Scalar;
  _e : Scalar;
  _omega : Scalar;
  _Omega : Scalar;
  _i : Scalar;
  _a : XScalar;
  _M0 : Scalar;
  el_t0 : option t0_value
}.

Record KeplerOrbit := {
  elements : nat;          (* reference to a [KeplerElements] *)
  _v0 : option Scalar
}.

(** *** Persistent storage

    A file: datasets (shape, numbers, unit) by name, and the scalar
    attributes of the root. *)
Record h5file := {
  datasets : gmap string (Shape * list R * Unit);
  attrs : gmap string R
}.

Definition empty_h5file : h5file := {| datasets := ∅; attrs := ∅ |}.

(** *** The heap *)

Record heap := {
  h_bufs : list (list R);          (* numpy data buffers *)
  h_dicts : list (option nat);     (* [_cache] dicts: the entry for 'orbit' *)
  h_elements : list KeplerElements;
  h_orbits : list KeplerOrbit;
  h_files : list h5file
}.

Definition empty_heap : heap :=
  {| h_bufs := []; h_dicts := []; h_elements := []; h_orbits := [];
     h_files := [] |}.

Definition upd_bufs (f : list (list R) → list (list R)) (h : heap) : heap :=
  {| h_bufs := f (h_bufs h); h_dicts := h_dicts h;
     h_elements := h_elements h; h_orbits := h_orbits h;
     h_files := h_files h |}.
Definition upd_dicts (f : list (option nat) → list (option nat)) (h : heap) : heap :=
  {| h_bufs := h_bufs h; h_dicts := f (h_dicts h);
     h_elements := h_elements h; h_orbits := h_orbits h;
     h_files := h_files h |}.
Definition upd_elements (f : list KeplerElements → list KeplerElements)
    (h : heap) : heap :=
  {| h_bufs := h_bufs h; h_dicts := h_dicts h;
     h_elements := f (h_elements h); h_orbits := h_orbits h;
     h_files := h_files h |}.
Definition upd_orbits (f : list KeplerOrbit → list KeplerOrbit) (h : heap) : heap :=
  {| h_bufs := h_bufs h; h_dicts := h_dicts h;
     h_elements := h_elements h; h_orbits := f (h_orbits h);
     h_files := h_files h |}.
Definition upd_files (f : list h5file → list h5file) (h : heap) : heap :=
  {| h_bufs := h_bufs h; h_dicts := h_dicts h;
     h_elements := h_elements h; h_orbits := h_orbits h;
     h_files := f (h_files h) |}.

Definition M (A : Type) : Type := heap → result A * heap.

#[global] Instance M_ret : MRet M := fun A a h => (Return a, h).
#[global] Instance M_bind : MBind M := fun A B k m h =>
  match m h with
  | (Return a, h') => k a h'
  | (Raise e, h') => (Raise e, h')
  end.

Definition raise {A} (c : exn_class) (msg : string) : M A :=
  fun h => (Raise (Exn c msg), h).
Definition lift {A} (r : result A) : M A := fun h => (r, h).
Definition get_heap : M heap := fun h => (Return h, h).

(** A reference that the heap does not hold cannot arise in Python; the
    model answers it with this error. *)
Definition dangling {A} : M A := raise SystemError "dangling reference".

Fixpoint foldM {A B} (f : A → B → M A) (a : A) (l : list B) : M A :=
  match l with
  | [] => mret a
  | b :: l' => a' ← f a b; foldM f a' l'
  end.

Definition alloc_buf (d : list R) : M nat := fun h =>
  (Return (length (h_bufs h)), upd_bufs (fun l => (l ++ [d])%list) h).
Definition alloc_dict : M nat := fun h =>
  (Return (length (h_dicts h)), upd_dicts (fun l => (l ++ [None])%list) h).
Definition alloc_elements (e : KeplerElements) : M nat := fun h =>
  (Return (length (h_elements h)), upd_elements (fun l => (l ++ [e])%list) h).
Definition alloc_orbit (o : KeplerOrbit) : M nat := fun h =>
  (Return (length (h_orbits h)), upd_orbits (fun l => (l ++ [o])%list) h).

Definition read_ref {A} (sel : heap → list A) (r : nat) : M A := fun h =>
  match sel h !! r with
  | Some v => (Return v, h)
  | None => dangling h
  end.

Definition read_dict : nat → M (option nat) := read_ref h_dicts.
Definition read_orbit : nat → M KeplerOrbit := read_ref h_orbits.
Definition read_elements : nat → M KeplerElements := read_ref h_elements.
Definition read_file : nat → M h5file := read_ref h_files.

Definition write_dict (d : nat) (v : option nat) : M () := fun h =>
  (Return (), upd_dicts (fun l => <[d := v]> l) h).
Definition write_orbit (o : nat) (v : KeplerOrbit) : M () := fun h =>
  (Return (), upd_orbits (fun l => <[o := v]> l) h).
Definition write_elements (e : nat) (v : KeplerElements) : M () := fun h =>
  (Return (), upd_elements (fun l => <[e := v]> l) h).
Definition write_file (f : nat) (v : h5file) : M () := fun h =>
  (Return (), upd_files (fun l => <[f := v]> l) h).

(** *** Arrays in the heap *)

Definition buffer (h : heap) (b : nat) : list R := default [] (h_bufs h !! b).

(** The numbers an array holds. *)
Definition q_value (h : heap) (q : Quantity) : list R :=
  take (shape_size (q_shape q)) (drop (q_off q) (buffer h (q_buf q))).

Definition write_buf (b i : nat) (x : R) : M () := fun h =>
  (Return (), upd_bufs (fun l => <[b := <[i := x]> (buffer h b)]> l) h).

(** [u.Quantity(val)], with its default [copy=True]: a new array. *)
Definition Quantity_new (val : pyval) : M Quantity :=
  match val with
  | VQuantity q =>
      h ← get_heap;
      b ← alloc_buf (q_value h q);
      mret {| q_buf := b; q_off := 0; q_shape := q_shape q; q_unit := q_unit q |}
  | VScalar s =>
      b ← alloc_buf [s_value s];
      mret {| q_buf := b; q_off := 0; q_shape := Shape0; q_unit := s_unit s |}
  end.

(** [len(q)] *)
Definition Quantity_len (q : Quantity) : result nat :=
  match q_shape q with
  | Shape0 =>
      Raise (Exn TypeError "'Quantity' object with a scalar value has no len()")
  | Shape1 n => Return n
  end.

(** Python's treatment of an integer subscript of a sequence of length [n]. *)
Definition norm_index (n : nat) (i : Z) : option nat :=
  if decide (0 ≤ i < Z.of_nat n)%Z then Some (Z.to_nat i)
  else if decide (- Z.of_nat n ≤ i < 0)%Z then Some (Z.to_nat (i + Z.of_nat n))
  else None.

(** Python's treatment of the bounds of [start:stop]. *)
Definition clamp (n : nat) (x : Z) : Z :=
  if decide (x < 0)%Z then Z.max (x + Z.of_nat n) 0 else Z.min x (Z.of_nat n).
Definition slice_bounds (n : nat) (start stop : option Z) : nat * nat :=
  let lo := match start with Some s => clamp n s | None => 0%Z end in
  let hi := match stop with Some s => clamp n s | None => Z.of_nat n end in
  (Z.to_nat lo, Z.to_nat (hi - lo)).

(** [q[slc]]: a slice is a view on the same buffer, an integer subscript
    gives the element. *)
Definition Quantity_getitem (q : Quantity) (slc : index) : M pyval :=
  match q_shape q with
  | Shape0 =>
      raise TypeError
        "'Quantity' object with a scalar value does not support indexing"
  | Shape1 n =>
      match slc with
      | IInt i =>
          match norm_index n i with
          | Some j =>
              h ← get_heap;
              mret (VScalar {| s_value := nth j (q_value h q) 0;
                               s_unit := q_unit q |})
          | None => raise IndexError "index out of bounds"
          end
      | ISlice start stop =>
          let '(lo, len) := slice_bounds n start stop in
          mret (VQuantity {| q_buf := q_buf q; q_off := (q_off q + lo)%nat;
                             q_shape := Shape1 len; q_unit := q_unit q |})
      end
  end.

(** The part of a list that [start:stop] selects. *)
Definition slice_list {A} (start stop : option Z) (l : list A) : list A :=
  let '(lo, len) := slice_bounds (length l) start stop in take len (drop lo l).

(** [q[i] = x]: assignment in place to an element of an array. *)
Definition Quantity_setitem (q : Quantity) (i : Z) (x : R) : M () :=
  match q_shape q with
  | Shape0 =>
      raise TypeError
        "'Quantity' object with a scalar value does not support indexing"
  | Shape1 n =>
      match norm_index n i with
      | Some j => write_buf (q_buf q) (q_off q + j)%nat x
      | None => raise IndexError "index out of bounds"
      end
  end.

(** *** The ordered dictionary *)

Fixpoint odict_get {V} (k : string) (d : list (string * V)) : option V :=
  match d with
  | [] => None
  | (k', v) :: d' => if decide (k = k') then Some v else odict_get k d'
  end.

(** Assignment keeps the place of a key that is present and appends a new
    one. *)
Fixpoint odict_set {V} (k : string) (v : V) (d : list (string * V))
  : list (string * V) :=
  match d with
  | [] => [(k, v)]
  | (k', v') :: d' =>
      if decide (k = k') then (k, v) :: d' else (k', v') :: odict_set k v d'
  end.

(** *** JokerSamples *)

Definition _valid_keys : list string :=
  ["P"; "M0"; "e"; "omega"; "jitter"; "K"; "v0"].

(** The object: the ordered dictionary it extends and its attributes.
    [_cache] is absent until the end of [__init__]. *)
Record JokerSamples := {
  items : list (string * Quantity);
  t0 : option t0_value;
  _size : option nat;
  _shape : option Shape;
  _cache : option nat          (* reference to a dict *)
}.

Definition set_items (self : JokerSamples) (d : list (string * Quantity)) :=
  {| items := d; t0 := t0 self; _size := _size self; _shape := _shape self;
     _cache := _cache self |}.
Definition set_shape_size (self : JokerSamples) (s : option Shape) (n : option nat) :=
  {| items := items self; t0 := t0 self; _size := n; _shape := s;
     _cache := _cache self |}.
Definition set_cache (self : JokerSamples) (c : option nat) :=
  {| items := items self; t0 := t0 self; _size := _size self;
     _shape := _shape self; _cache := c |}.

Definition keys (self : JokerSamples) : list string := (items self).*1.

Definition invalid_key_msg (key : string) : string :=
  "Invalid key '" +:+ key +:+ "'.".
Definition shape_mismatch_msg (len_val : nat) (expected : Shape) : string :=
  "Shape of new samples must match those already stored! (" +:+ pretty len_val
  +:+ ", expected " +:+ shape_str expected +:+ ")".
Definition no_samples_msg : string := "No samples stored!".

Definition _validate_key (self : JokerSamples) (key : string) : M () :=
  if decide (key ∈ _valid_keys) then mret ()
  else raise ValueError (invalid_key_msg key).

Definition size (self : JokerSamples) : M nat :=
  match _size self with
  | None => raise ValueError no_samples_msg
  | Some n => mret n
  end.

Definition shape (self : JokerSamples) : M Shape :=
  match _shape self with
  | None => raise ValueError no_samples_msg
  | Some s => mret s
  end.

Definition _validate_val (self : JokerSamples) (val : pyval) : M Quantity :=
  val ← Quantity_new val;
  match _shape self with
  | Some _ =>
      s ← shape self;
      if decide (q_shape val ≠ s)
      then n ← lift (Quantity_len val);
           s' ← shape self;
           raise ValueError (shape_mismatch_msg n s')
      else mret val
  | None => mret val
  end.

Definition __setitem__ (self : JokerSamples) (key : string) (val : pyval)
  : M JokerSamples :=
  _ ← _validate_key self key;
  val ← _validate_val self val;
  let self :=
    match _shape self with
    | None => set_shape_size self (Some (q_shape val))
                (Some (shape_size (q_shape val)))
    | Some _ => self
    end in
  mret (set_items self (odict_set key val (items self))).

Definition __init__ (t0 : option t0_value) (kwargs : list (string * pyval))
  : M JokerSamples :=
  let self := {| items := []; t0 := t0; _size := None; _shape := None;
                 _cache := None |} in
  self ← foldM (fun self kv => __setitem__ self kv.1 kv.2) self kwargs;
  c ← alloc_dict;
  mret (set_cache self (Some c)).

(** [n_samples] warns that it is deprecated and returns [size]. *)
Definition n_samples (self : JokerSamples) : M nat := size self.
Definition __len__ (self : JokerSamples) : M nat := n_samples self.

(** [sep.join(l)] *)
Fixpoint str_join (sep : string) (l : list string) : string :=
  match l with
  | [] => EmptyString
  | [s] => s
  | s :: l' => s +:+ sep +:+ str_join sep l'
  end.

Definition __str__ (self : JokerSamples) : M string :=
  let ks := str_join "," (keys self) in
  n ← __len__ self;
  mret ("<JokerSamples in [" +:+ ks +:+ "], " +:+ pretty n +:+ " samples>").

(** [copy.copy(self)] of this [OrderedDict] subclass: [cls()], then the
    instance attributes of [self] put on the new object, then every item
    assigned through [__setitem__]. *)
Definition copy_copy (self : JokerSamples) : M JokerSamples :=
  y ← __init__ None [];
  let y := {| items := items y; t0 := t0 self; _size := _size self;
              _shape := _shape self;
              _cache := match _cache self with
                        | Some c => Some c
                        | None => _cache y
                        end |} in
  foldM (fun y kv => __setitem__ y kv.1 (VQuantity kv.2)) y (items self).

Inductive getitem_result :=
| GQuantity (q : Quantity)
| GSamples (c : JokerSamples).

(** [OrderedDict.__getitem__] *)
Definition dict_getitem (self : JokerSamples) (k : string) : M Quantity :=
  match odict_get k (items self) with
  | Some q => mret q
  | None => raise KeyError k
  end.

Definition __getitem__ (self : JokerSamples) (slc : key) : M getitem_result :=
  match slc with
  | KStr s => q ← dict_getitem self s; mret (GQuantity q)
  | KIndex slc =>
      new ← copy_copy self;
      let new := set_shape_size new None None in
      new ← foldM (fun new k =>
                     q ← dict_getitem self k;
                     v ← Quantity_getitem q slc;
                     __setitem__ new k v)
                  new (keys self);
      mret (GSamples new)
  end.

(** *** Persistence *)

(** Modelled from the spec: [quantity_to_hdf5] of [thejoker.utils] is not
    in these sources.  "writes every stored key/array to the external
    storage collaborator in a key-named layout", through "a
    physical-quantity <-> storage-array codec that preserves units". *)
Definition quantity_to_hdf5 (f : nat) (name : string) (q : Quantity) : M () :=
  h ← get_heap;
  file ← read_file f;
  write_file f
    {| datasets := <[name := (q_shape q, q_value h q, q_unit q)]> (datasets file);
       attrs := attrs file |}.

(** Modelled from the spec: [quantity_from_hdf5] of [thejoker.utils] is not
    in these sources.  "reads (optionally truncated to count rows)" the
    array stored under the name, with its unit. *)
Definition quantity_from_hdf5 (f : nat) (name : string) (n : option Z)
  : M pyval :=
  file ← read_file f;
  match datasets file !! name with
  | None => raise KeyError name
  | Some (s, d, u) =>
      match n, s with
      | Some n, Shape1 len =>
          let d' := slice_list None (Some n) d in
          b ← alloc_buf d';
          mret (VQuantity {| q_buf := b; q_off := 0;
                             q_shape := Shape1 (length d'); q_unit := u |})
      | _, _ =>
          b ← alloc_buf d;
          mret (VQuantity {| q_buf := b; q_off := 0; q_shape := s; q_unit := u |})
      end
  end.

Definition to_hdf5 (self : JokerSamples) (f : nat) : M () :=
  _ ← foldM (fun _ k => q ← dict_getitem self k; quantity_to_hdf5 f k q)
            () (keys self);
  match t0 self with
  | None => mret ()
  | Some (T0_Time t) =>
      file ← read_file f;
      write_file f {| datasets := datasets file;
                      attrs := <["t0_bmjd" := tcb_mjd t]> (attrs file) |}
  | Some (T0_numeric _) =>
      raise AttributeError "'float' object has no attribute 'tcb'"
  end.

(** [cls(t0=t0, **kwargs)] *)
Definition call_cls (t0 : option t0_value) (kwargs : list (string * pyval))
  : M JokerSamples :=
  if decide ("t0" ∈ kwargs.*1)
  then raise TypeError "got multiple values for keyword argument 't0'"
  else __init__ t0 kwargs.

Definition from_hdf5 (f : nat) (n : option Z)
    (kwargs : list (string * pyval)) : M JokerSamples :=
  file ← read_file f;
  let t0 := match attrs file !! "t0_bmjd" with
            | Some x => Some (T0_Time (Time_mjd_tcb x))
            | None => None
            end in
  samples ← call_cls t0 kwargs;
  foldM (fun samples key =>
           file ← read_file f;
           match datasets file !! key with
           | Some _ =>
               v ← quantity_from_hdf5 f key n;
               __setitem__ samples key v
           | None => mret samples
           end)
        samples _valid_keys.

(** *** Interaction with TwoBody *)

Definition quantity (x : R) (name : string) : Scalar :=
  {| s_value := x; s_unit := base_unit name |}.
Definition plain (x : R) : Scalar :=
  {| s_value := x; s_unit := dimensionless_unscaled |}.

(** [KeplerOrbit(P=.., e=.., omega=.., Omega=.., i=.., a=.., t0=..)]: a new
    elements object and a new orbit that refers to it. *)
Definition KeplerOrbit_new (P e omega Omega i a : Scalar)
    (t0 : option t0_value) : M nat :=
  el ← alloc_elements {| _P := P; _e := e; _omega := omega; _Omega := Omega;
                         _i := i; _a := finite a; _M0 := quantity 0 "deg";
                         el_t0 := t0 |};
  alloc_orbit {| elements := el; _v0 := None |}.

(** Modelled from the spec: [copy.copy] of a [twobody.KeplerOrbit], a class
    that is not in these sources.  "each call produces an independent
    copy; the cached template is shared internally but never exposed
    mutably": the copy is a new orbit with an elements object of its own,
    which holds the values of the elements of the original. *)
Definition copy_orbit (o : nat) : M nat :=
  v ← read_orbit o;
  el ← read_elements (elements v);
  el' ← alloc_elements el;
  alloc_orbit {| elements := el'; _v0 := _v0 v |}.

(** [self[name][index]], used as a number. *)
Definition sample_at (self : JokerSamples) (name : string) (i : Z) : M Scalar :=
  q ← dict_getitem self name;
  v ← Quantity_getitem q (IInt i);
  match v with
  | VScalar s => mret s
  | VQuantity _ => dangling
  end.

(** [orbit.elements.<attr> = value]: the elements object is reached
    through the orbit, then updated in place. *)
Definition setattr_elements (orbit : nat)
    (f : KeplerElements → KeplerElements) : M () :=
  o ← read_orbit orbit;
  el ← read_elements (elements o);
  write_elements (elements o) (f el).

(** [orbit._v0 = value] *)
Definition setattr_v0 (orbit : nat) (v : Scalar) : M () :=
  o ← read_orbit orbit;
  write_orbit orbit {| elements := elements o; _v0 := Some v |}.

Definition set_P (v : Scalar) (el : KeplerElements) : KeplerElements :=
  {| _P := v; _e := _e el; _omega := _omega el; _Omega := _Omega el;
     _i := _i el; _a := _a el; _M0 := _M0 el; el_t0 := el_t0 el |}.
Definition set_e (v : Scalar) (el : KeplerElements) : KeplerElements :=
  {| _P := _P el; _e := v; _omega := _omega el; _Omega := _Omega el;
     _i := _i el; _a := _a el; _M0 := _M0 el; el_t0 := el_t0 el |}.
Definition set_a (v : XScalar) (el : KeplerElements) : KeplerElements :=
  {| _P := _P el; _e := _e el; _omega := _omega el; _Omega := _Omega el;
     _i := _i el; _a := v; _M0 := _M0 el; el_t0 := el_t0 el |}.
Definition set_omega (v : Scalar) (el : KeplerElements) : KeplerElements :=
  {| _P := _P el; _e := _e el; _omega := v; _Omega := _Omega el;
     _i := _i el; _a := _a el; _M0 := _M0 el; el_t0 := el_t0 el |}.
Definition set_M0 (v : Scalar) (el : KeplerElements) : KeplerElements :=
  {| _P := _P el; _e := _e el; _omega := _omega el; _Omega := _Omega el;
     _i := _i el; _a := _a el; _M0 := v; el_t0 := el_t0 el |}.

(** [a_K = P * K / (2*np.pi) * np.sqrt(1 - e**2)] *)
Definition a_K_of (P K e : Scalar) : result XScalar :=
  one_minus_e2 ← float_sub 1 (spow2 e);
  Return (smul_x (sdiv_float (smul P K) (2 * PI)) (np_sqrt one_minus_e2)).

Definition get_orbit (self : JokerSamples) (index : Z) : M nat :=
  cache ← match _cache self with
          | Some c => mret c
          | None => raise AttributeError
                      "'JokerSamples' object has no attribute '_cache'"
          end;
  _ ← (entry ← read_dict cache;
       match entry with
       | Some _ => mret ()
       | None =>
           o ← KeplerOrbit_new (quantity 1 "yr") (plain 0) (quantity 0 "deg")
                 (quantity 0 "deg") (quantity 90 "deg") (quantity 1 "au")
                 (t0 self);
           write_dict cache (Some o)
       end);
  template ← (entry ← read_dict cache;
              match entry with Some o => mret o | None => dangling end);
  orbit ← copy_orbit template;
  P ← sample_at self "P" index;
  e ← sample_at self "e" index;
  K ← sample_at self "K" index;
  a_K ← lift (a_K_of P K e);
  _ ← setattr_elements orbit (set_P P);
  _ ← setattr_elements orbit (set_e (smul_unit e dimensionless_unscaled));
  _ ← setattr_elements orbit (set_a a_K);
  omega ← sample_at self "omega" index;
  _ ← setattr_elements orbit (set_omega omega);
  M0 ← sample_at self "M0" index;
  _ ← setattr_elements orbit (set_M0 M0);
  v0 ← sample_at self "v0" index;
  _ ← setattr_v0 orbit v0;
  mret orbit.

(** The generator of the property [orbits]: nothing runs before the first
    [next]; [range(len(self))] is fixed then. *)
Inductive orbits_state :=
| NotStarted
| Running (i n : nat).

Definition orbits_next (self : JokerSamples) (st : orbits_state)
  : M (option nat * orbits_state) :=
  st ← match st with
       | NotStarted => n ← __len__ self; mret (0%nat, n)
       | Running i n => mret (i, n)
       end;
  let '(i, n) := st in
  if decide (i < n)%nat
  then o ← get_orbit self (Z.of_nat i); mret (Some o, Running (S i) n)
  else mret (None, Running i n).

(** [list(it)]: [next] until the generator is exhausted; [fuel] bounds the
    number of calls. *)
Fixpoint drain (self : JokerSamples) (fuel : nat) (st : orbits_state)
  : M (option (list nat)) :=
  match fuel with
  | O => mret None
  | S fuel' =>
      r ← orbits_next self st;
      match r.1 with
      | None => mret (Some [])
      | Some o =>
          rest ← drain self fuel' r.2;
          mret (cons o <$> rest)
      end
  end.

(** *** Reductions *)

Definition np_mean_list (l : list R) : R := Np.np_sum l / INR (length l).
Definition np_std_list (l : list R) : R :=
  let m := np_mean_list l in
  sqrt (np_mean_list (map (fun x => (x - m) ^ 2) l)).
(** The middle of the sorted numbers; for comparison with [median]. *)
Definition np_median_list (sorted : list R) : R :=
  let n := length sorted in
  if Nat.even n
  then (nth (n / 2 - 1) sorted 0 + nth (n / 2) sorted 0) / 2
  else nth (n / 2) sorted 0.

Definition np_reduce (f : list R → R) (q : Quantity) : M pyval :=
  h ← get_heap;
  mret (VScalar {| s_value := f (q_value h q); s_unit := q_unit q |}).
Definition np_mean : Quantity → M pyval := np_reduce np_mean_list.
Definition np_std : Quantity → M pyval := np_reduce np_std_list.

Definition _apply (self : JokerSamples) (func : Quantity → M pyval)
  : M JokerSamples :=
  kw ← foldM (fun kw k =>
                q ← dict_getitem self k;
                v ← func q;
                mret (odict_set k v kw))
             [] (keys self);
  __init__ None kw.

Definition mean (self : JokerSamples) : M JokerSamples := _apply self np_mean.
Definition median (self : JokerSamples) : M JokerSamples := _apply self np_mean.
Definition std (self : JokerSamples) : M JokerSamples := _apply self np_std.

(** *** Vocabulary of the properties *)

Definition pyval_shape (v : pyval) : Shape :=
  match v with VQuantity q => q_shape q | VScalar _ => Shape0 end.
Definition pyval_unit (v : pyval) : Unit :=
  match v with VQuantity q => q_unit q | VScalar s => s_unit s end.
Definition pyval_value (h : heap) (v : pyval) : list R :=
  match v with VQuantity q => q_value h q | VScalar s => [s_value s] end.

(** The array that [u.Quantity(val)] makes in heap [h], and the heap after. *)
Definition stored (h : heap) (val : pyval) : Quantity :=
  {| q_buf := length (h_bufs h); q_off := 0; q_shape := pyval_shape val;
     q_unit := pyval_unit val |}.
Definition push (val : pyval) (h : heap) : heap :=
  upd_bufs (fun l => (l ++ [pyval_value h val])%list) h.

(** The object after a successful [self[key] = q]. *)
Definition assign (self : JokerSamples) (key : string) (q : Quantity)
  : JokerSamples :=
  set_items
    match _shape self with
    | None => set_shape_size self (Some (q_shape q))
                (Some (shape_size (q_shape q)))
    | Some _ => self
    end
    (odict_set key q (items self)).

(** The arrays that successive assignments of [kvs] make, the first in
    buffer [n]. *)
Fixpoint fresh_items (n : nat) (kvs : list (string * pyval))
  : list (string * Quantity) :=
  match kvs with
  | [] => []
  | kv :: kvs' =>
      (kv.1, {| q_buf := n; q_off := 0; q_shape := pyval_shape kv.2;
                q_unit := pyval_unit kv.2 |}) :: fresh_items (S n) kvs'
  end.

(** The object after the successive assignments of [kvs]. *)
Fixpoint assign_many (self : JokerSamples) (n : nat)
    (kvs : list (string * pyval)) : JokerSamples :=
  match kvs with
  | [] => self
  | kv :: kvs' =>
      assign_many
        (assign self kv.1 {| q_buf := n; q_off := 0; q_shape := pyval_shape kv.2;
                             q_unit := pyval_unit kv.2 |})
        (S n) kvs'
  end.

Definition push_many (kvs : list (string * pyval)) (h : heap) : heap :=
  upd_bufs (fun l => (l ++ map (fun kv => pyval_value h kv.2) kvs)%list) h.

(** The view that [q[start:stop]] is, from the bounds of the slice. *)
Definition view_of (lo len : nat) (q : Quantity) : Quantity :=
  {| q_buf := q_buf q; q_off := (q_off q + lo)%nat; q_shape := Shape1 len;
     q_unit := q_unit q |}.

Definition as_values (d : list (string * Quantity)) : list (string * pyval) :=
  map (fun kv => (kv.1, VQuantity kv.2)) d.

(** The object at the beginning of [__init__]. *)
Definition blank (t0 : option t0_value) : JokerSamples :=
  {| items := []; t0 := t0; _size := None; _shape := None; _cache := None |}.

(** The array in buffer [n] that holds a copy of [v]. *)
Definition fresh (n : nat) (v : pyval) : Quantity :=
  {| q_buf := n; q_off := 0; q_shape := pyval_shape v; q_unit := pyval_unit v |}.

(** The views that the loop of [__getitem__] assigns. *)
Definition views (start stop : option Z) (n : nat)
    (d : list (string * Quantity)) : list (string * pyval) :=
  map (fun kv => (kv.1, VQuantity (view_of (slice_bounds n start stop).1
                                     (slice_bounds n start stop).2 kv.2))) d.

(** Element [j] of an array, as a quantity. *)
Definition sample_of (h : heap) (q : Quantity) (j : nat) : Scalar :=
  {| s_value := nth j (q_value h q) 0; s_unit := q_unit q |}.

(** The six keys that [get_orbit] reads hold arrays of [n] samples, and the
    eccentricities are dimensionless. *)
Record orbit_keys (self : JokerSamples) (n : nat)
    (qP qe qK qomega qM0 qv0 : Quantity) : Prop := {
  ok_P : odict_get "P" (items self) = Some qP;
  ok_e : odict_get "e" (items self) = Some qe;
  ok_K : odict_get "K" (items self) = Some qK;
  ok_omega : odict_get "omega" (items self) = Some qomega;
  ok_M0 : odict_get "M0" (items self) = Some qM0;
  ok_v0 : odict_get "v0" (items self) = Some qv0;
  ok_shape_P : q_shape qP = Shape1 n;
  ok_shape_e : q_shape qe = Shape1 n;
  ok_shape_K : q_shape qK = Shape1 n;
  ok_shape_omega : q_shape qomega = Shape1 n;
  ok_shape_M0 : q_shape qM0 = Shape1 n;
  ok_shape_v0 : q_shape qv0 = Shape1 n;
  ok_e_unit : q_unit qe = dimensionless_unscaled
}.

(** [a_K = P[k] * K[k] / (2 pi) * sqrt(1 - e[k]^2)], with its unit: nan
    when [1 - e[k]^2] is negative. *)
Definition a_K_at (h : heap) (qP qK qe : Quantity) (k : nat) : XScalar :=
  {| xs_value :=
       if Rlt_dec (1 - nth k (q_value h qe) 0 ^ 2) 0 then Np.NaN
       else Np.Fin (nth k (q_value h qP) 0 * nth k (q_value h qK) 0 / (2 * PI)
                    * sqrt (1 - nth k (q_value h qe) 0 ^ 2));
     xs_unit := unit_mul (q_unit qP) (q_unit qK) |}.

(** The datasets after the arrays of [d] are written, as [to_hdf5] does. *)
Definition written (h : heap) (d : list (string * Quantity))
    (ds : gmap string (Shape * list R * Unit))
  : gmap string (Shape * list R * Unit) :=
  foldl (fun ds kv => <[kv.1 := (q_shape kv.2, q_value h kv.2, q_unit kv.2)]> ds)
        ds d.

Definition written_attrs (t0 : option t0_value) (a : gmap string R)
  : gmap string R :=
  match t0 with
  | Some (T0_Time t) => <["t0_bmjd" := tcb_mjd t]> a
  | _ => a
  end.

(** The keyword arguments that [_apply] collects for a reduction [f]. *)
Definition reduced (f : list R → R) (h : heap) (d : list (string * Quantity))
  : list (string * pyval) :=
  map (fun kv => (kv.1, VScalar {| s_value := f (q_value h kv.2);
                                   s_unit := q_unit kv.2 |})) d.

(** What an array is, apart from where it is kept. *)
Definition q_content (h : heap) (q : Quantity) : Shape * list R * Unit :=
  (q_shape q, q_value h q, q_unit q).

(** The window of an array lies within an existing buffer. *)
Definition allocated (h : heap) (q : Quantity) : Prop :=
  (q_buf q < length (h_bufs h))%nat ∧
  (q_off q + shape_size (q_shape q) ≤ length (buffer h (q_buf q)))%nat.

Definition pyval_allocated (h : heap) (v : pyval) : Prop :=
  match v with VQuantity q => allocated h q | VScalar _ => True end.

(** The buffers of [h] are those of [h'], which may have more. *)
Definition extends (h h' : heap) : Prop :=
  ∃ ext, h_bufs h' = h_bufs h ++ ext.

(** Every reference kept in the heap is to an object of the heap. *)
Definition wf_heap (h : heap) : Prop :=
  (∀ d o, h_dicts h !! d = Some (Some o) → (o < length (h_orbits h))%nat) ∧
  (∀ o v, h_orbits h !! o = Some v → (elements v < length (h_elements h))%nat).

(** The elements of the template orbit that [get_orbit] makes once. *)
Definition template_elements (t0 : option t0_value) : KeplerElements :=
  {| _P := quantity 1 "yr"; _e := plain 0; _omega := quantity 0 "deg";
     _Omega := quantity 0 "deg"; _i := quantity 90 "deg";
     _a := finite (quantity 1 "au"); _M0 := quantity 0 "deg"; el_t0 := t0 |}.

(** In the heap [hh], the orbit [o] holds sample [k] of the arrays, read
    in [h]: its elements object has that sample's [P], [e], [omega] and
    [M0] and the semi-major axis computed from [P], [K] and [e], and its
    [_v0] is that sample's [v0]. *)
Definition orbit_of_sample (h hh : heap) (qP qe qK qomega qM0 qv0 : Quantity)
    (k o : nat) : Prop :=
  ∃ el elrec,
    h_orbits hh !! o = Some {| elements := el; _v0 := Some (sample_of h qv0 k) |}
    ∧ h_elements hh !! el = Some elrec
    ∧ _P elrec = sample_of h qP k
    ∧ _e elrec = sample_of h qe k
    ∧ _a elrec = a_K_at h qP qK qe k
    ∧ _omega elrec = sample_of h qomega k
    ∧ _M0 elrec = sample_of h qM0 k.

(** The invariant of a constructed [JokerSamples]: distinct valid keys,
    arrays of one shape kept in the heap, size and shape set with the first
    key, and a cache. *)
Definition wf_samples (h : heap) (c : JokerSamples) : Prop :=
  NoDup (keys c) ∧
  Forall (fun k => k ∈ _valid_keys) (keys c) ∧
  Forall (fun kv => allocated h kv.2) (items c) ∧
  match _shape c with
  | Some s => _size c = Some (shape_size s)
              ∧ Forall (fun kv => q_shape kv.2 = s) (items c)
  | None => _size c = None ∧ items c = []
  end ∧
  ∃ d, _cache c = Some d ∧ (d < length (h_dicts h))%nat.

End Samples.

(** * Examples *)

(** ** Design matrices and observations *)

Module LikelihoodExamples.
Import Np Likelihood.

(** Two observations, one linear parameter. *)
Definition A_2x1 : matrix := {| ncols := 1; rows := [[1]; [1]] |}.

(** Two linear parameters by three observations: the orientation that
    [design_matrix] returns. *)
Definition A_2x3 : matrix := {| ncols := 3; rows := [[1; 2; 3]; [1; 1; 1]] |}.

Definition ex_data (rv : vec) : RVData :=
  {| _t_bmjd := map (fun _ => 0) rv; t_offset := 0; rv_value := rv;
     ivar_value := map (fun _ => 1) rv |}.
Definition ex_nonlinear_p : vec := [10; 0; 0; 0; 0].
Definition ex_rv_from_elements (t : vec) (P K e omega phi0 : R) : result vec :=
  Return (map (fun _ => K) t).

End LikelihoodExamples.

(** ** Containers of samples *)

Module SamplesExamples.
Import Samples.

(** An example: six keys, two samples each; the heap holds the arrays that
    are given to the constructor. *)
Definition ex_heap : heap :=
  upd_bufs (fun _ => [[1; 2]; [0; 0]; [3; 4]; [0; 0]; [0; 0]; [5; 6]]) empty_heap.
Definition ex_array (b : nat) (u : Unit) : pyval :=
  VQuantity {| q_buf := b; q_off := 0; q_shape := Shape1 2; q_unit := u |}.
Definition ex_kwargs : list (string * pyval) :=
  [("P", ex_array 0 (base_unit "d")); ("e", ex_array 1 dimensionless_unscaled);
   ("K", ex_array 2 (base_unit "km/s")); ("omega", ex_array 3 (base_unit "rad"));
   ("M0", ex_array 4 (base_unit "rad")); ("v0", ex_array 5 (base_unit "km/s"))].
(** The object that the constructor makes of these keyword arguments, and
    the heap after. *)
Definition ex_samples : JokerSamples :=
  set_cache (assign_many (blank None) 6 ex_kwargs) (Some 0%nat).
Definition ex_samples_heap : heap :=
  upd_dicts (fun l => l ++ [None]) (push_many ex_kwargs ex_heap).

(** A container of scalars: what [mean()] returns, or what the constructor
    makes of numbers. *)
Definition ex_scalar_kwargs : list (string * pyval) :=
  [("P", VScalar (quantity 1 "d")); ("e", VScalar (plain 0));
   ("K", VScalar (quantity 3 "km/s")); ("omega", VScalar (quantity 0 "rad"));
   ("M0", VScalar (quantity 0 "rad")); ("v0", VScalar (quantity 5 "km/s"))].
Definition ex_scalar_samples : JokerSamples :=
  set_cache (assign_many (blank None) 0 ex_scalar_kwargs) (Some 0%nat).
Definition ex_scalar_heap : heap :=
  upd_dicts (fun l => l ++ [None]) (push_many ex_scalar_kwargs empty_heap).

(** The example with a number for [t0], which the docstring of [__init__]
    admits, and a heap with an empty file. *)
Definition ex_numeric_samples : JokerSamples :=
  set_cache (assign_many (blank (Some (T0_numeric 56000))) 6 ex_kwargs)
    (Some 0%nat).
Definition ex_file_heap : heap :=
  upd_files (fun _ => [empty_h5file]) ex_samples_heap.

End SamplesExamples.

(** * Properties *)

(** ** Linear algebra on lists *)

Module NpFacts.
Import Np.

Lemma dot_nil_r u : dot u [] = 0.
Proof. by destruct u. Qed.

Lemma dot_zeros_r u n : dot u (zeros n) = 0.
Proof.
  revert n; induction u as [|a u IH]; intros [|n]; simpl; try done.
  rewrite IH. lra.
Qed.

Lemma dot_zeros_l v n : dot (zeros n) v = 0.
Proof.
  revert n; induction v as [|a v IH]; intros [|n]; simpl; try done.
  rewrite IH. lra.
Qed.

Lemma dot_vscale c u x : dot (vscale c u) x = c * dot u x.
Proof.
  revert x; induction u as [|a u IH]; intros [|b x]; simpl; try lra.
  rewrite IH. lra.
Qed.

Lemma dot_vsub u v x :
  length u = length v → dot (vsub u v) x = dot u x - dot v x.
Proof.
  revert v x; induction u as [|a u IH]; intros [|b v] [|c x] Hl;
    simpl in *; try lra; try discriminate.
  rewrite IH by lia. lra.
Qed.

Lemma length_vscale c u : length (vscale c u) = length u.
Proof. apply length_map. Qed.

Lemma length_vsub u v : length u = length v → length (vsub u v) = length u.
Proof. intros H. unfold vsub. rewrite length_zip_with. lia. Qed.

Lemma length_zeros n : length (zeros n) = n.
Proof. apply repeat_length. Qed.

Lemma length_lincomb c xs rs :
  Forall (fun r => length r = c) rs → length (lincomb c xs rs) = c.
Proof.
  revert rs; induction xs as [|x xs IH]; intros [|r rs] Hrs; simpl;
    try apply length_zeros.
  inversion Hrs; subst. unfold vadd. rewrite length_zip_with, length_vscale, IH by done.
  lia.
Qed.

(** *** The pivot search *)

Lemma find_pivot_Some eqs pv others :
  find_pivot eqs = Some (pv, others) →
  (∃ p r b0, pv = (p :: r, b0) ∧ p ≠ 0) ∧
  length eqs = S (length others) ∧
  (∀ P : equation → Prop, Forall P eqs ↔ P pv ∧ Forall P others).
Proof.
  revert pv others; induction eqs as [|[row b] eqs IH]; intros pv others; simpl.
  { discriminate. }
  destruct row as [|a row]; [discriminate|].
  destruct (Req_dec_T a 0) as [Ha|Ha].
  - destruct (find_pivot eqs) as [[pv' others']|] eqn:Hf; [|discriminate].
    intros [= <- <-]. destruct (IH _ _ eq_refl) as (Hpv & Hlen & HP).
    split; [done|]. split; [simpl; lia|].
    intros P. rewrite !Forall_cons, HP. tauto.
  - intros [= <- <-]. split; [by eauto|]. split; [done|].
    intros P. by rewrite Forall_cons.
Qed.

Lemma find_pivot_None eqs k :
  find_pivot eqs = None →
  Forall (fun e : equation => length e.1 = S k) eqs →
  Forall (fun e : equation => ∃ r, e.1 = 0 :: r) eqs.
Proof.
  induction eqs as [|[row b] eqs IH]; simpl; intros Hf Hlen; [constructor|].
  inversion Hlen as [|? ? Hrow Hrest]; subst. simpl in Hrow.
  destruct row as [|a row]; [discriminate|].
  destruct (Req_dec_T a 0) as [->|Ha]; [|discriminate].
  destruct (find_pivot eqs) as [[pv' others']|] eqn:Hf'; [discriminate|].
  constructor; [by eexists|by apply IH].
Qed.

Lemma length_eliminate p r b0 e k :
  length r = k → length e.1 = S k → length (eliminate p r b0 e).1 = k.
Proof.
  destruct e as [[|a r'] b']; simpl; intros Hr He; [discriminate|].
  rewrite length_vsub; rewrite ?length_vscale; lia.
Qed.

(** *** Soundness: what the solver returns solves every equation *)

Lemma solve_eqs_sound n : ∀ eqs x,
  solve_eqs n eqs = Some x →
  length eqs = n →
  Forall (fun e : equation => length e.1 = n) eqs →
  length x = n ∧ Forall (fun e : equation => dot e.1 x = e.2) eqs.
Proof.
  induction n as [|k IH]; intros eqs x; simpl.
  - intros [= <-] Hlen _. destruct eqs; [by split|discriminate].
  - destruct (find_pivot eqs) as [[[[|p r] b0] others]|] eqn:Hf; try discriminate.
    destruct (solve_eqs k _) as [x'|] eqn:Hs; [|discriminate].
    intros [= <-] Hlen Hwf.
    destruct (find_pivot_Some _ _ _ Hf) as ((p' & r' & b0' & [= <- <- <-] & Hp) & Hl & HP).
    apply HP in Hwf as [Hpv Hothers]. simpl in Hpv.
    destruct (IH _ _ Hs) as [Hx' Hsol].
    { rewrite length_map. lia. }
    { apply Forall_map. eapply Forall_impl; [exact Hothers|].
      intros e He. apply length_eliminate; [lia|done]. }
    split; [simpl; lia|]. apply HP. split.
    + simpl. field. done.
    + apply Forall_map in Hsol.
      eapply Forall_impl; [apply Forall_and; split; [exact Hothers|exact Hsol]|].
      intros [[|a row] b] [Hrow Helim]; simpl in *; [discriminate|].
      rewrite dot_vsub, dot_vscale in Helim by (rewrite length_vscale; lia).
      assert (dot row x' = b - a / p * b0 + a / p * dot r x') as -> by lra.
      field. done.
Qed.

(** *** Completeness: the solver gives up only on a singular system *)

Lemma solve_eqs_None n : ∀ eqs,
  solve_eqs n eqs = None →
  length eqs = n →
  Forall (fun e : equation => length e.1 = n) eqs →
  ∃ v, length v = n ∧ v ≠ zeros n ∧
       Forall (fun e : equation => dot e.1 v = 0) eqs.
Proof.
  induction n as [|k IH]; intros eqs; simpl; [discriminate|].
  destruct (find_pivot eqs) as [[[[|p r] b0] others]|] eqn:Hf.
  - destruct (find_pivot_Some _ _ _ Hf) as ((? & ? & ? & [=] & _) & _).
  - destruct (solve_eqs k _) as [x'|] eqn:Hs; [discriminate|].
    intros _ Hlen Hwf.
    destruct (find_pivot_Some _ _ _ Hf) as ((p' & r' & b0' & [= <- <- <-] & Hp) & Hl & HP).
    apply HP in Hwf as [Hpv Hothers]. simpl in Hpv.
    destruct (IH _ Hs) as (v' & Hv' & Hnz & Hker).
    { rewrite length_map. lia. }
    { apply Forall_map. eapply Forall_impl; [exact Hothers|].
      intros e He. apply length_eliminate; [lia|done]. }
    exists (- dot r v' / p :: v'). split; [simpl; lia|]. split.
    { simpl. intros [= _ Hz]. done. }
    apply HP. split.
    + simpl. field. done.
    + apply Forall_map in Hker.
      eapply Forall_impl; [apply Forall_and; split; [exact Hothers|exact Hker]|].
      intros [[|a row] b] [Hrow Helim]; simpl in *; [discriminate|].
      rewrite dot_vsub, dot_vscale in Helim by (rewrite length_vscale; lia).
      assert (dot row v' = a / p * dot r v') as -> by lra.
      field. done.
  - intros _ Hlen Hwf. exists (1 :: zeros k). split; [simpl; by rewrite length_zeros|].
    split.
    { simpl. intros [= H1]. lra. }
    eapply Forall_impl; [apply (find_pivot_None _ _ Hf Hwf)|].
    intros [row b] [r ->]. simpl. rewrite dot_zeros_r. lra.
Qed.

Lemma Forall_combine_fst {A B} (P : A → Prop) (l : list A) (k : list B) :
  Forall P l → Forall (fun e => P e.1) (combine l k).
Proof.
  intros H. revert k. induction H as [|a l Ha Hl IH]; intros [|b k]; simpl;
    constructor; auto.
Qed.

Lemma Forall_combine_mv (X : list vec) (b x : vec) :
  length X = length b →
  Forall (fun e : equation => dot e.1 x = e.2) (combine X b) →
  mv X x = b.
Proof.
  revert b; induction X as [|r X IH]; intros [|c b]; simpl; try done.
  intros [= Hl] H. inversion H; subst. simpl in *. f_equal; auto.
Qed.

Lemma Forall_combine_kernel (X : list vec) (b v : vec) :
  length X = length b →
  Forall (fun e : equation => dot e.1 v = 0) (combine X b) →
  mv X v = zeros (length X).
Proof.
  revert b; induction X as [|r X IH]; intros [|c b]; simpl; try done.
  intros [= Hl] H. inversion H as [|? ? H0 Hr]; subst. simpl in *.
  rewrite H0, (IH b) by done. done.
Qed.

(** A system the solver solves has only the trivial kernel. *)

Lemma solve_eqs_Some_kernel n : ∀ eqs x v,
  solve_eqs n eqs = Some x →
  length eqs = n →
  Forall (fun e : equation => length e.1 = n) eqs →
  length v = n →
  Forall (fun e : equation => dot e.1 v = 0) eqs →
  v = zeros n.
Proof.
  induction n as [|k IH]; intros eqs x v; simpl.
  - intros _ _ _ Hv _. by destruct v.
  - destruct (find_pivot eqs) as [[[[|p r] b0] others]|] eqn:Hf; try discriminate.
    destruct (solve_eqs k _) as [x'|] eqn:Hs; [|discriminate].
    intros _ Hlen Hwf Hv Hker.
    destruct (find_pivot_Some _ _ _ Hf) as ((p' & r' & b0' & [= <- <- <-] & Hp) & Hl & HP).
    apply HP in Hwf as [Hpv Hothers]. apply HP in Hker as [Hkpv Hkothers].
    destruct v as [|v0 v']; [discriminate|]. simpl in *.
    assert (v' = zeros k) as ->.
    { apply (IH _ _ _ Hs); [rewrite length_map; lia| |lia|].
      - apply Forall_map. eapply Forall_impl; [exact Hothers|].
        intros e He. apply length_eliminate; [lia|done].
      - apply Forall_map.
        eapply Forall_impl; [apply Forall_and; split; [exact Hothers|exact Hkothers]|].
        intros [[|a row] b] [Hrow Hk]; simpl in *; [discriminate|].
        rewrite dot_vsub, dot_vscale by (rewrite length_vscale; lia).
        assert (dot r v' = - (p * v0)) as -> by lra.
        assert (dot row v' = - (a * v0)) as -> by lra.
        field. done. }
    rewrite dot_zeros_r in Hkpv.
    assert (p * v0 = 0) as H0 by lra.
    apply Rmult_integral in H0 as [? | ->]; done.
Qed.

(** *** Shapes *)

Lemma length_col j (X : list vec) : length (col j X) = length X.
Proof. apply length_map. Qed.

Lemma nrows_transpose X : nrows (transpose X) = ncols X.
Proof. unfold nrows, transpose; simpl. by rewrite length_map, length_seq. Qed.

Lemma wf_transpose X : wf_matrix (transpose X).
Proof.
  unfold wf_matrix, transpose; simpl. apply Forall_map, Forall_forall.
  intros j _. apply length_col.
Qed.

Lemma stretch_id {A} (d : A) n l : length l = n → stretch d n l = l.
Proof. intros <-. unfold stretch. by rewrite Nat.eqb_refl. Qed.

Lemma stretch_singleton {A} (d x : A) n : stretch d n [x] = repeat x n.
Proof.
  unfold stretch. destruct n as [|[|n]]; done.
Qed.

Lemma map_stretch_id n (X : list vec) :
  Forall (fun r => length r = n) X → map (stretch 0 n) X = X.
Proof.
  induction 1 as [|r X Hr _ IH]; simpl; [done|].
  by rewrite stretch_id, IH.
Qed.

Lemma zip_with_repeat_r {A B C} (f : A → B → C) (l : list A) (y : B) :
  zip_with f l (repeat y (length l)) = map (fun a => f a y) l.
Proof. induction l as [|a l IH]; simpl; [done|]. by rewrite IH. Qed.

Lemma bcast_dim_refl n : bcast_dim n n = Some n.
Proof. unfold bcast_dim. by rewrite Nat.eqb_refl. Qed.

Lemma bcast_dim_1_r n : bcast_dim n 1 = Some n.
Proof.
  unfold bcast_dim. destruct (Nat.eqb_spec n 1) as [->|]; [done|].
  simpl. done.
Qed.

Lemma np_binop1_same f (u v : vec) :
  length u = length v → np_binop1 f u v = Return (zip_with f u v).
Proof.
  intros H. unfold np_binop1. rewrite H, bcast_dim_refl.
  by rewrite !stretch_id.
Qed.

(** *** Products *)

Lemma vadd_zeros_l (v : vec) : vadd (zeros (length v)) v = v.
Proof.
  induction v as [|a v IH]; simpl; [done|].
  unfold vadd, zeros in *. rewrite IH. f_equal. lra.
Qed.

Lemma vscale_zeros c n : vscale c (zeros n) = zeros n.
Proof.
  induction n as [|n IH]; [done|].
  change (vscale c (zeros (S n))) with (c * 0 :: vscale c (zeros n)).
  rewrite IH. change (zeros (S n)) with (0 :: zeros n). f_equal. lra.
Qed.

Lemma lincomb_cons_0 c xs (D : list vec) :
  lincomb (S c) xs (map (cons 0) D) = 0 :: lincomb c xs D.
Proof.
  revert D; induction xs as [|x xs IH]; intros [|r D]; simpl; try done.
  rewrite IH. unfold vadd. simpl. f_equal. lra.
Qed.

(** Multiplying by a materialised [diag(w)] scales the entries. *)
Lemma lincomb_diag (xs w : vec) :
  length xs = length w →
  lincomb (length w) xs (Likelihood.diag w) = zip_with Rmult xs w.
Proof.
  revert xs; induction w as [|a w IH]; intros [|x xs] Hl; simpl in *;
    try done.
  rewrite lincomb_cons_0, IH by lia.
  unfold vadd. simpl. rewrite vscale_zeros. f_equal; [lra|].
  assert (length (zip_with Rmult xs w) = length w) as Hz
    by (rewrite length_zip_with; lia).
  rewrite <- Hz at 1. apply vadd_zeros_l.
Qed.

(** [(X Y) v = X (Y v)] row by row. *)
Lemma dot_lincomb c xs (rs : list vec) v :
  length xs = length rs →
  Forall (fun r => length r = c) rs →
  dot (lincomb c xs rs) v = dot xs (mv rs v).
Proof.
  revert rs; induction xs as [|x xs IH]; intros [|r rs] Hl Hrs; simpl in *;
    try discriminate.
  { apply dot_zeros_l. }
  inversion Hrs as [|? ? Hr Hrs']; subst.
  assert (∀ a b : vec, length a = length b →
            dot (vadd a b) v = dot a v + dot b v) as Hadd.
  { clear. intros a; revert v; induction a as [|a0 a IH]; intros [|v0 v] [|b0 b] H;
      simpl in *; try lra; try discriminate.
    unfold vadd in IH. rewrite IH by lia. lra. }
  rewrite Hadd, dot_vscale, IH by
    (rewrite ?length_vscale, ?length_lincomb; done || lia).
  done.
Qed.

Lemma mv_mmul c (X Y : list vec) v :
  Forall (fun r => length r = length Y) X →
  Forall (fun r => length r = c) Y →
  mv (mmul c X Y) v = mv X (mv Y v).
Proof.
  intros HX HY. unfold mv at 1 3, mmul. rewrite map_map.
  apply map_ext_Forall. eapply Forall_impl; [exact HX|].
  intros r Hr. by apply dot_lincomb.
Qed.

End NpFacts.

(** ** The weighted linear solver *)

Module SolverFacts.
Import Np NpFacts Likelihood LikelihoodExamples.

Lemma bind_Return {A B} (a : A) (k : A → result B) : (Return a ≫= k) = k a.
Proof. reflexivity. Qed.

Lemma dot_mv_ok X v :
  ncols X = length v → dot_mv X v = Return (mv (rows X) v).
Proof. intros H. unfold dot_mv. by rewrite H, Nat.eqb_refl. Qed.

Lemma dot_mm_ok X Y :
  ncols X = nrows Y →
  dot_mm X Y = Return {| ncols := ncols Y; rows := mmul (ncols Y) (rows X) (rows Y) |}.
Proof. intros H. unfold dot_mm. by rewrite H, Nat.eqb_refl. Qed.

Lemma kernel_Forall_combine (X : list vec) (b v : vec) n :
  mv X v = zeros n →
  Forall (fun e : equation => dot e.1 v = 0) (combine X b).
Proof.
  revert b n; induction X as [|r X IH]; intros [|b0 b] [|n] H; simpl;
    try constructor; try discriminate.
  - simpl. by injection H.
  - injection H as _ H. by apply (IH b n).
Qed.

Lemma bind_Raise {A B} e (k : A → result B) : (Raise e ≫= k) = Raise e.
Proof. reflexivity. Qed.

Lemma diag_shape (w : vec) :
  length (diag w) = length w ∧ Forall (fun r => length r = length w) (diag w).
Proof.
  induction w as [|a w [IHl IHf]]; simpl; [by split|].
  split; [by rewrite length_map, IHl|].
  constructor; [simpl; by rewrite length_zeros|].
  apply Forall_map. eapply Forall_impl; [exact IHf|].
  intros r Hr. simpl. by rewrite Hr.
Qed.

Lemma zip_with_Rmult_comm (a b : vec) : zip_with Rmult a b = zip_with Rmult b a.
Proof.
  revert b; induction a as [|x a IH]; intros [|y b]; simpl; try done.
  rewrite IH. f_equal. lra.
Qed.

Lemma mv_zeros (X : list vec) n : mv X (zeros n) = zeros (length X).
Proof.
  induction X as [|r X IH]; [done|].
  change (mv (r :: X) (zeros n)) with (dot r (zeros n) :: mv X (zeros n)).
  by rewrite IH, dot_zeros_r.
Qed.

Lemma length_mv (X : list vec) v : length (mv X v) = length X.
Proof. apply length_map. Qed.

Section Shapes.

Variables (A : matrix) (ivar : vec).
Hypothesis A_wf : wf_matrix A.
Hypothesis ivar_len : length ivar = nrows A.

Lemma length_At_diag : length (At_diag A ivar) = ncols A.
Proof using Type.
  unfold At_diag, mmul. rewrite length_map. apply nrows_transpose.
Qed.

Lemma At_diag_wf : Forall (fun r => length r = nrows A) (At_diag A ivar).
Proof using ivar_len.
  unfold At_diag, mmul. apply Forall_map, Forall_forall. intros r _. simpl.
  apply length_lincomb. rewrite <- ivar_len. apply diag_shape.
Qed.

Lemma At_diag_A_wf : wf_matrix (At_diag_A A ivar).
Proof using A_wf.
  unfold wf_matrix, At_diag_A, mmul; simpl.
  apply Forall_map, Forall_forall. intros r _. simpl. by apply length_lincomb.
Qed.

Lemma nrows_At_diag_A : nrows (At_diag_A A ivar) = ncols A.
Proof using Type.
  unfold nrows, At_diag_A, mmul; simpl. rewrite length_map. apply length_At_diag.
Qed.

(** The scale-then-multiply of line 66 is [A^T diag(ivar)]. *)
Lemma scale_rows_is_At_diag :
  np_binop2 Rmult (transpose A) (newaxis0 ivar)
  = Return {| ncols := nrows A; rows := At_diag A ivar |}.
Proof using A_wf ivar_len.
  unfold np_binop2. rewrite nrows_transpose.
  change (nrows (newaxis0 ivar)) with 1%nat. rewrite bcast_dim_1_r.
  change (ncols (transpose A)) with (nrows A).
  change (ncols (newaxis0 ivar)) with (length ivar).
  rewrite ivar_len, bcast_dim_refl. cbv zeta. do 2 f_equal.
  rewrite (map_stretch_id (nrows A) (rows (transpose A)) (wf_transpose A)).
  rewrite stretch_id by apply nrows_transpose.
  change (rows (newaxis0 ivar)) with [ivar].
  change (map (stretch 0 (nrows A)) [ivar]) with [stretch 0 (nrows A) ivar].
  rewrite (stretch_id 0 _ ivar), stretch_singleton by done.
  rewrite <- (nrows_transpose A) at 1. unfold nrows at 1.
  rewrite zip_with_repeat_r. unfold At_diag, mmul.
  apply map_ext_Forall. eapply Forall_impl; [apply (wf_transpose A)|].
  intros r Hr. simpl in Hr. rewrite <- ivar_len. rewrite lincomb_diag; [done|].
  by rewrite Hr.
Qed.

End Shapes.

Section Solve.

Variables (A : matrix) (ivar y : vec).
Hypothesis A_wf : wf_matrix A.
Hypothesis ivar_len : length ivar = nrows A.
Hypothesis y_len : length y = nrows A.

Let eqs := combine (rows (At_diag_A A ivar)) (mv (At_diag A ivar) y).

Lemma normal_eqs_shape :
  length eqs = ncols A ∧
  Forall (fun e : equation => length e.1 = ncols A) eqs.
Proof using All.
  split.
  - unfold eqs. rewrite length_combine, length_mv, length_At_diag.
    pose proof (nrows_At_diag_A A ivar) as H. unfold nrows in H. lia.
  - unfold eqs. apply (Forall_combine_fst (fun r => length r = ncols A)).
    apply At_diag_A_wf, A_wf.
Qed.

(** Up to the call of the solver, [tensor_vector_scalar] has built the
    normal equations. *)
Lemma tensor_vector_scalar_unfold :
  tensor_vector_scalar A ivar y =
  (p ← np_linalg_solve (At_diag_A A ivar) (mv (At_diag A ivar) y);
   Ap ← dot_mv A p;
   dy ← np_binop1 Rminus Ap y;
   dy2w ← np_binop1 Rmult (map (fun d => d ^ 2) dy) ivar;
   Return (At_diag_A A ivar, p, np_sum dy2w)).
Proof using All.
  unfold tensor_vector_scalar.
  rewrite (scale_rows_is_At_diag A ivar A_wf ivar_len), bind_Return.
  rewrite dot_mm_ok, bind_Return by done.
  rewrite dot_mv_ok, bind_Return by done.
  reflexivity.
Qed.

Lemma np_linalg_solve_normal_eqs :
  np_linalg_solve (At_diag_A A ivar) (mv (At_diag A ivar) y) =
  match solve_eqs (ncols A) eqs with
  | Some x => Return x
  | None => Raise (Exn LinAlgError "Singular matrix")
  end.
Proof using All.
  unfold np_linalg_solve.
  rewrite nrows_At_diag_A, length_mv, length_At_diag.
  change (ncols (At_diag_A A ivar)) with (ncols A).
  by rewrite Nat.eqb_refl.
Qed.

Lemma tensor_vector_scalar_returns p :
  solve_eqs (ncols A) eqs = Some p →
  tensor_vector_scalar A ivar y
  = Return (At_diag_A A ivar, p, chi2_of A ivar y p).
Proof using All.
  intros Hs. rewrite tensor_vector_scalar_unfold, np_linalg_solve_normal_eqs, Hs.
  destruct normal_eqs_shape as [Hl Hw].
  destruct (solve_eqs_sound _ _ _ Hs Hl Hw) as [Hp _].
  rewrite bind_Return.
  rewrite dot_mv_ok, bind_Return by done.
  rewrite np_binop1_same, bind_Return by (rewrite length_mv; by rewrite y_len).
  rewrite np_binop1_same, bind_Return.
  2:{ rewrite length_map, length_zip_with, length_mv, y_len, ivar_len.
      unfold nrows. lia. }
  unfold chi2_of. by rewrite zip_with_Rmult_comm.
Qed.

(** With a nonsingular information matrix the solver returns the weighted
    least-squares solution. *)
Lemma tensor_vector_scalar_nonsingular :
  nonsingular (At_diag_A A ivar) →
  ∃ p, tensor_vector_scalar A ivar y
       = Return (At_diag_A A ivar, p, chi2_of A ivar y p)
     ∧ length p = ncols A
     ∧ mv (rows (At_diag_A A ivar)) p = mv (At_diag A ivar) y.
Proof using All.
  intros Hns. destruct normal_eqs_shape as [Hl Hw].
  destruct (solve_eqs (ncols A) eqs) as [p|] eqn:Hs.
  - exists p. destruct (solve_eqs_sound _ _ _ Hs Hl Hw) as [Hp Hsol].
    split; [by apply tensor_vector_scalar_returns|]. split; [done|].
    apply Forall_combine_mv; [|exact Hsol].
    rewrite length_mv, length_At_diag.
    apply (nrows_At_diag_A A ivar).
  - exfalso. destruct (solve_eqs_None _ _ Hs Hl Hw) as (v & Hv & Hnz & Hker).
    apply Hnz, Hns; [done|].
    unfold nrows.
    eapply Forall_combine_kernel; [|exact Hker].
    rewrite length_mv, length_At_diag. apply (nrows_At_diag_A A ivar).
Qed.

End Solve.

(** *** Examples *)

Example A_2x1_nonsingular : nonsingular (At_diag_A A_2x1 [1; 1]).
Proof.
  intros [|v0 [|v1 v]] Hv Hmv; try discriminate.
  cbn in Hmv. injection Hmv as Hmv. cbn. f_equal. lra.
Qed.

(** C2, as stated, fails: with one row per linear parameter and one column
    per observation (two by three here) the elementwise product of line 66
    cannot be broadcast, and the call raises instead of returning
    [A diag(ivar) A^T]. *)
Lemma tensor_vector_scalar_params_by_obs_raises :
  tensor_vector_scalar A_2x3 [1; 1; 1] [1; 2; 3]
    = Raise (Exn ValueError shapes_msg)
  ∧ ¬ ∃ p chi2, tensor_vector_scalar A_2x3 [1; 1; 1] [1; 2; 3]
                = Return (A_diag_At A_2x3 [1; 1; 1], p, chi2).
Proof.
  assert (tensor_vector_scalar A_2x3 [1; 1; 1] [1; 2; 3]
          = Raise (Exn ValueError shapes_msg)) as H by reflexivity.
  split; [exact H|]. intros (p & chi2 & H'). rewrite H in H'. discriminate.
Qed.

(** C2 (amended): in exact real arithmetic (floats idealised as reals, no
    rounding and no overflow), for a design matrix [A] with one row per
    observation and one column per linear parameter, inverse variances and
    values of the length of the observations, and a nonsingular
    information matrix, [tensor_vector_scalar] returns the precision
    matrix [A^T diag(ivar) A], coefficients [p] that solve
    [(A^T diag(ivar) A) p = A^T diag(ivar) y], and
    [chi2 = sum ivar * (A p - y)^2]. *)
Theorem tensor_vector_scalar_weighted_least_squares A ivar y :
  wf_matrix A →
  length ivar = nrows A →
  length y = nrows A →
  nonsingular (At_diag_A A ivar) →
  ∃ p, tensor_vector_scalar A ivar y
       = Return (At_diag_A A ivar, p, chi2_of A ivar y p)
     ∧ length p = ncols A
     ∧ mv (rows (At_diag_A A ivar)) p = mv (At_diag A ivar) y.
Proof. apply tensor_vector_scalar_nonsingular. Qed.

Lemma tensor_vector_scalar_weighted_least_squares_witness :
  ∃ p, tensor_vector_scalar A_2x1 [1; 1] [1; 3]
       = Return (At_diag_A A_2x1 [1; 1], p, chi2_of A_2x1 [1; 1] [1; 3] p)
     ∧ length p = ncols A_2x1
     ∧ mv (rows (At_diag_A A_2x1 [1; 1])) p = mv (At_diag A_2x1 [1; 1]) [1; 3].
Proof.
  apply tensor_vector_scalar_weighted_least_squares.
  - repeat constructor.
  - reflexivity.
  - reflexivity.
  - exact A_2x1_nonsingular.
Defined.

End SolverFacts.

(** ** The marginal likelihood *)

Module MarginalFacts.
Import Np NpFacts Likelihood LikelihoodExamples SolverFacts.

Section WithCollaborators.

Variable rv_from_elements : vec → R → R → R → R → R → result vec.
Variable get_ivar : RVData → R → vec.

Local Abbreviation marginal_ln_likelihood :=
  (Likelihood.marginal_ln_likelihood rv_from_elements get_ivar).
Local Abbreviation marginal_ln_likelihood_given :=
  (Likelihood.marginal_ln_likelihood_given get_ivar).

(** Line 95 passes two arguments to the three-parameter [design_matrix]:
    every call ends there. *)
Lemma marginal_ln_likelihood_TypeError nonlinear_p data :
  marginal_ln_likelihood nonlinear_p data = ([], Raise missing_jparams).
Proof using Type. reflexivity. Qed.

(** The gate of line 104 and the two [return]s, once the linear solve and
    the signed log-determinant are known. *)
Lemma marginal_ln_likelihood_given_gate A nonlinear_p data s prec coef chi2 sign logdet :
  getitem nonlinear_p 4 = Return s →
  tensor_vector_scalar A (get_ivar data s) (rv_value data)
    = Return (prec, coef, chi2) →
  np_linalg_slogdet prec = Return (sign, logdet) →
  marginal_ln_likelihood_given A nonlinear_p data =
    if Req_dec_T sign 1
    then ([], Return (Array1
           [xsub (xscale 0.5
                    (xadd logdet
                       (xsum (map (fun w => np_log (w / (2 * PI)))
                                  (get_ivar data s)))))
                 (xscale 0.5 (Fin chi2))]))
    else (["logdet sign < 0"], Return (Scalar NaN)).
Proof using Type.
  intros Hs Ht Hd. unfold Likelihood.marginal_ln_likelihood_given.
  rewrite Hs, bind_Return. cbv zeta. rewrite Ht, bind_Return.
  cbv beta iota. rewrite Hd, bind_Return. cbv beta iota.
  by destruct (Req_dec_T sign 1).
Qed.

Lemma np_linalg_slogdet_pos M :
  nrows M = ncols M → 0 < det M →
  np_linalg_slogdet M = Return (1, Fin (ln (det M))).
Proof using Type.
  intros Hsq Hd. unfold np_linalg_slogdet. rewrite Hsq, Nat.eqb_refl. simpl.
  by destruct (Rlt_dec 0 (det M)).
Qed.

Lemma xsum_np_log_pos (c : R) (ws : vec) :
  0 < c → Forall (fun w => 0 < w) ws →
  xsum (map (fun w => np_log (w / c)) ws)
  = Fin (np_sum (map (fun w => ln (w / c)) ws)).
Proof using Type.
  intros Hc. induction 1 as [|w ws Hw _ IH]; [done|].
  change (xsum (map (fun w => np_log (w / c)) (w :: ws)))
    with (xadd (np_log (w / c)) (xsum (map (fun w => np_log (w / c)) ws))).
  rewrite IH. simpl. unfold np_log.
  destruct (Rlt_dec 0 (w / c)) as [|Hn]; [done|].
  exfalso. apply Hn. by apply Rdiv_lt_0_compat.
Qed.

(** With a positive determinant and positive inverse variances the value
    is the finite [0.5 * logdet - 0.5 * chi2]. *)
Lemma marginal_ln_likelihood_given_value A nonlinear_p data s prec coef chi2 :
  getitem nonlinear_p 4 = Return s →
  tensor_vector_scalar A (get_ivar data s) (rv_value data)
    = Return (prec, coef, chi2) →
  nrows prec = ncols prec →
  0 < det prec →
  Forall (fun w => 0 < w) (get_ivar data s) →
  let logdet :=
    ln (det prec)
    + np_sum (map (fun w => ln (w / (2 * PI))) (get_ivar data s)) in
  marginal_ln_likelihood_given A nonlinear_p data
  = ([], Return (Array1 [Fin (0.5 * logdet - 0.5 * chi2)])).
Proof using Type.
  intros Hs Ht Hsq Hd Hpos logdet.
  rewrite (marginal_ln_likelihood_given_gate _ _ _ _ _ _ _ _ _ Hs Ht
             (np_linalg_slogdet_pos _ Hsq Hd)).
  destruct (Req_dec_T 1 1) as [_|]; [|done].
  rewrite xsum_np_log_pos; [|pose proof PI_RGT_0; lra|done].
  reflexivity.
Qed.

(** Whatever the design matrix, what is returned is the bare nan or an
    array of length one. *)
Lemma marginal_ln_likelihood_given_shape A nonlinear_p data v :
  (marginal_ln_likelihood_given A nonlinear_p data).2 = Return v →
  v = Scalar NaN ∨ ∃ x, v = Array1 [x].
Proof using Type.
  unfold Likelihood.marginal_ln_likelihood_given.
  match goal with |- context [match ?r with Return _ => _ | Raise _ => _ end] =>
    destruct r as [[[[ivar chi2] sign] logdet]|e] end; simpl; [|discriminate].
  destruct (Req_dec_T sign 1); simpl; intros [= <-]; eauto.
Qed.

(** C1: for every parameter vector and observation set, whatever the
    information matrix, [marginal_ln_likelihood] raises: line 95 calls the
    three-parameter [design_matrix] with two arguments, which is a
    [TypeError].  Nothing is logged, and neither the nan sentinel nor a
    finite value is returned. *)
Theorem marginal_ln_likelihood_always_raises :
  ∀ nonlinear_p data,
    marginal_ln_likelihood nonlinear_p data = ([], Raise missing_jparams)
    ∧ raises (marginal_ln_likelihood nonlinear_p data).2 TypeError
    ∧ (marginal_ln_likelihood nonlinear_p data).2 ≠ Return (Scalar NaN)
    ∧ ∀ r, (marginal_ln_likelihood nonlinear_p data).2 ≠ Return (Scalar (Fin r))
           ∧ (marginal_ln_likelihood nonlinear_p data).2
             ≠ Return (Array1 [Fin r]).
Proof using Type.
  intros p data. rewrite marginal_ln_likelihood_TypeError.
  split_and!; try done. by eexists.
Qed.

(** C3: [marginal_ln_likelihood] never returns, so it does not return
    [0.5 * logdet - 0.5 * chi2]; lines 97-110 compute that value when they
    are given a design matrix whose linear solve passes the gate. *)
Theorem marginal_ln_likelihood_value_unreached :
  (∀ nonlinear_p data v,
     (marginal_ln_likelihood nonlinear_p data).2 ≠ Return v)
  ∧ (∀ A nonlinear_p data s prec coef chi2,
       getitem nonlinear_p 4 = Return s →
       tensor_vector_scalar A (get_ivar data s) (rv_value data)
         = Return (prec, coef, chi2) →
       nrows prec = ncols prec →
       0 < det prec →
       Forall (fun w => 0 < w) (get_ivar data s) →
       let logdet :=
         ln (det prec)
         + np_sum (map (fun w => ln (w / (2 * PI))) (get_ivar data s)) in
       marginal_ln_likelihood_given A nonlinear_p data
       = ([], Return (Array1 [Fin (0.5 * logdet - 0.5 * chi2)]))).
Proof using Type.
  split.
  - intros p data v. by rewrite marginal_ln_likelihood_TypeError.
  - apply marginal_ln_likelihood_given_value.
Qed.

(** C10: [marginal_ln_likelihood] raises [TypeError] at line 95 for every
    input, so it returns no array of rank one, and no bare nan either: the
    two shapes of the claim are those of the [return] statements of lines
    106 and 110, which are not reached.  Given a design matrix, these lines
    return either the bare nan (the sign of the determinant is not 1) or an
    array of length one (the sign is 1). *)
Theorem marginal_ln_likelihood_result_shape :
  (∀ nonlinear_p data,
     marginal_ln_likelihood nonlinear_p data = ([], Raise missing_jparams))
  ∧ (∀ nonlinear_p data v,
       (marginal_ln_likelihood nonlinear_p data).2 ≠ Return v)
  ∧ (∀ A nonlinear_p data v,
       (marginal_ln_likelihood_given A nonlinear_p data).2 = Return v →
       v = Scalar NaN ∨ ∃ x, v = Array1 [x])
  ∧ (∀ A nonlinear_p data s prec coef chi2 sign logdet,
       getitem nonlinear_p 4 = Return s →
       tensor_vector_scalar A (get_ivar data s) (rv_value data)
         = Return (prec, coef, chi2) →
       np_linalg_slogdet prec = Return (sign, logdet) →
       (sign = 1 →
        ∃ x, marginal_ln_likelihood_given A nonlinear_p data
             = ([], Return (Array1 [x])))
       ∧ (sign ≠ 1 →
          marginal_ln_likelihood_given A nonlinear_p data
          = (["logdet sign < 0"], Return (Scalar NaN)))).
Proof using Type.
  split_and!.
  - intros p data. apply marginal_ln_likelihood_TypeError.
  - intros p data v. by rewrite marginal_ln_likelihood_TypeError.
  - apply marginal_ln_likelihood_given_shape.
  - intros A p data s prec coef chi2 sign logdet Hs Ht Hd.
    rewrite (marginal_ln_likelihood_given_gate _ _ _ _ _ _ _ _ _ Hs Ht Hd).
    destruct (Req_dec_T sign 1); split; try done. eauto.
Qed.

End WithCollaborators.

(** *** Examples *)

Example A_2x1_det : det (At_diag_A A_2x1 [1; 1]) = 2.
Proof. unfold det. simpl. lra. Qed.

Lemma marginal_ln_likelihood_value_unreached_witness :
  ∃ chi2,
    Likelihood.marginal_ln_likelihood_given (fun _ _ => [1; 1])
      A_2x1 ex_nonlinear_p (ex_data [1; 3])
    = ([], Return (Array1
         [Fin (0.5 * (ln (det (At_diag_A A_2x1 [1; 1]))
                      + np_sum (map (fun w => ln (w / (2 * PI))) [1; 1]))
               - 0.5 * chi2)])).
Proof.
  destruct (tensor_vector_scalar_nonsingular A_2x1 [1; 1] [1; 3])
    as (p & Ht & _); [repeat constructor|reflexivity|reflexivity
                     |exact A_2x1_nonsingular|].
  exists (chi2_of A_2x1 [1; 1] [1; 3] p).
  apply (proj2 (marginal_ln_likelihood_value_unreached ex_rv_from_elements
                  (fun _ _ => [1; 1]))
           A_2x1 ex_nonlinear_p (ex_data [1; 3]) 0 _ p _).
  - reflexivity.
  - exact Ht.
  - reflexivity.
  - rewrite A_2x1_det. lra.
  - repeat constructor; lra.
Defined.

Lemma marginal_ln_likelihood_result_shape_witness :
  ∃ x, Likelihood.marginal_ln_likelihood_given (fun _ _ => [1; 1])
         A_2x1 ex_nonlinear_p (ex_data [1; 3])
       = ([], Return (Array1 [x])).
Proof.
  destruct (tensor_vector_scalar_nonsingular A_2x1 [1; 1] [1; 3])
    as (p & Ht & _); [repeat constructor|reflexivity|reflexivity
                     |exact A_2x1_nonsingular|].
  assert (getitem ex_nonlinear_p 4 = Return 0) as Hs by reflexivity.
  assert (np_linalg_slogdet (At_diag_A A_2x1 [1; 1])
          = Return (1, Fin (ln (det (At_diag_A A_2x1 [1; 1]))))) as Hsl.
  { apply np_linalg_slogdet_pos; [reflexivity|]. rewrite A_2x1_det. lra. }
  destruct (proj2 (proj2 (proj2 (marginal_ln_likelihood_result_shape
                                   ex_rv_from_elements (fun _ _ => [1; 1]))))
              A_2x1 ex_nonlinear_p (ex_data [1; 3]) 0 _ p _ 1 _
              Hs Ht Hsl) as [H _].
  apply H. reflexivity.
Defined.

End MarginalFacts.

(** ** More on the weighted linear solver *)

Module LeastSquaresFacts.
Import Np NpFacts Likelihood LikelihoodExamples SolverFacts.

(** [sum_i w[i] * a[i]^2] *)
Lemma dot_comm (u v : vec) : dot u v = dot v u.
Proof.
  revert v; induction u as [|a u IH]; intros [|b v]; simpl; try done.
  rewrite IH. lra.
Qed.

Lemma dot_vsub_r (r u v : vec) :
  length u = length v → dot r (vsub u v) = dot r u - dot r v.
Proof. intros H. rewrite !(dot_comm r). by apply dot_vsub. Qed.

Lemma mv_vsub (X : list vec) (u v : vec) :
  length u = length v → mv X (vsub u v) = vsub (mv X u) (mv X v).
Proof.
  intros H. induction X as [|r X IH]; [done|].
  change (mv (r :: X) (vsub u v)) with (dot r (vsub u v) :: mv X (vsub u v)).
  rewrite IH, dot_vsub_r by done. reflexivity.
Qed.

Lemma vsub_diag (u : vec) : vsub u u = zeros (length u).
Proof.
  induction u as [|a u IH]; [done|].
  change (vsub (a :: u) (a :: u)) with (a - a :: vsub u u).
  rewrite IH. change (zeros (length (a :: u))) with (0 :: zeros (length u)).
  f_equal. lra.
Qed.

Lemma vsub_zeros_eq (u v : vec) n :
  length u = length v → vsub u v = zeros n → u = v.
Proof.
  revert v n; induction u as [|a u IH]; intros [|b v] [|n] Hl H;
    try done; try discriminate.
  injection H as H0 H. f_equal; [lra|]. apply (IH v n); [|done].
  by injection Hl.
Qed.

Lemma dot_zip_mult (r w v : vec) :
  dot (zip_with Rmult r w) v = dot r (zip_with Rmult w v).
Proof.
  revert w v; induction r as [|a r IH]; intros [|b w] [|c v]; simpl; try done.
  rewrite IH. lra.
Qed.

Lemma dot_map_plus {A} (f g : A → R) (l : list A) : ∀ x : vec,
  dot x (map (fun j => f j + g j) l) = dot x (map f l) + dot x (map g l).
Proof.
  induction l as [|j l IH]; intros [|a x]; simpl; try lra.
  rewrite IH. lra.
Qed.

Lemma dot_map_scale {A} (f : A → R) c (l : list A) : ∀ x : vec,
  dot x (map (fun j => f j * c) l) = c * dot x (map f l).
Proof.
  induction l as [|j l IH]; intros [|a x]; simpl; try lra.
  rewrite IH. lra.
Qed.

Lemma dot_map_zero {A} (l : list A) : ∀ x : vec, dot x (map (fun _ => 0) l) = 0.
Proof.
  induction l as [|j l IH]; intros [|a x]; simpl; try lra.
  rewrite IH. lra.
Qed.

Lemma map_nth_seq (r : vec) : map (fun j => nth j r 0) (seq 0 (length r)) = r.
Proof.
  induction r as [|a r IH]; [done|].
  simpl. f_equal. rewrite <- seq_shift, map_map. exact IH.
Qed.

(** [(X x) . u = x . (X^T u)] *)
Lemma dot_mv_cols (X : list vec) c (x : vec) :
  Forall (fun r => length r = c) X → ∀ u : vec,
  dot (mv X x) u = dot x (map (fun j => dot (col j X) u) (seq 0 c)).
Proof.
  induction 1 as [|r X Hr _ IH]; intros u.
  { simpl. symmetry. apply dot_map_zero. }
  destruct u as [|u0 u].
  { rewrite dot_nil_r. symmetry.
    erewrite map_ext; [apply dot_map_zero|]. intros j. apply dot_nil_r. }
  change (dot (mv (r :: X) x) (u0 :: u)) with (dot r x * u0 + dot (mv X x) u).
  rewrite IH.
  change (fun j => dot (col j (r :: X)) (u0 :: u))
    with (fun j => nth j r 0 * u0 + dot (col j X) u).
  rewrite (dot_map_plus (fun j => nth j r 0 * u0)).
  rewrite dot_map_scale. rewrite <- Hr, map_nth_seq, (dot_comm x r). lra.
Qed.

Lemma dot_mv_transpose (A : matrix) (x u : vec) :
  wf_matrix A → dot (mv (rows A) x) u = dot x (mv (rows (transpose A)) u).
Proof.
  intros Hwf. rewrite (dot_mv_cols _ (ncols A)) by done.
  unfold transpose, mv. simpl. by rewrite map_map.
Qed.

(** [A^T diag(w) v = A^T (w * v)] *)
Lemma mv_At_diag (A : matrix) (w v : vec) :
  wf_matrix A → length w = nrows A →
  mv (At_diag A w) v = mv (rows (transpose A)) (zip_with Rmult w v).
Proof.
  intros Hwf Hw. unfold At_diag, mmul, mv. rewrite map_map.
  apply map_ext_Forall. eapply Forall_impl; [apply (wf_transpose A)|].
  intros r Hr. simpl in Hr. rewrite <- Hw.
  rewrite lincomb_diag by (by rewrite Hr). apply dot_zip_mult.
Qed.

Lemma wsum_plus (w : vec) : ∀ a d : vec,
  length a = length d →
  np_sum (zip_with Rmult w (map (fun x => x ^ 2) (zip_with Rplus a d)))
  = np_sum (zip_with Rmult w (map (fun x => x ^ 2) a))
    + 2 * dot (zip_with Rmult w a) d
    + np_sum (zip_with Rmult w (map (fun x => x ^ 2) d)).
Proof.
  induction w as [|w0 w IH]; intros [|a0 a] [|d0 d] Hl; simpl in *;
    try lra; try discriminate.
  rewrite IH by lia. ring.
Qed.

Lemma wsum_nonneg (w : vec) : ∀ a : vec,
  Forall (fun x => 0 <= x) w →
  0 <= np_sum (zip_with Rmult w (map (fun x => x ^ 2) a)).
Proof.
  induction w as [|w0 w IH]; intros [|a0 a] Hw; simpl; try lra.
  inversion Hw as [|? ? Hw0 Hw']; subst.
  specialize (IH a Hw'). simpl in IH.
  assert (0 <= w0 * (a0 * (a0 * 1))) by (apply Rmult_le_pos; [done|nra]).
  lra.
Qed.

Lemma wsum_zeros (w : vec) n :
  np_sum (zip_with Rmult w (map (fun x => x ^ 2) (zeros n))) = 0.
Proof.
  revert n; induction w as [|w0 w IH]; intros [|n]; simpl; try lra.
  unfold zeros in IH. rewrite IH. lra.
Qed.

Lemma residual_split : ∀ a b y : vec,
  length a = length y → length b = length y →
  zip_with Rminus b y
  = zip_with Rplus (zip_with Rminus a y) (zip_with Rminus b a).
Proof.
  induction a as [|a0 a IH]; intros [|b0 b] [|y0 y] Ha Hb; simpl in *;
    try done; try discriminate.
  rewrite <- IH by lia. f_equal. lra.
Qed.

Section Solution.

Variables (A : matrix) (ivar y : vec).
Hypothesis A_wf : wf_matrix A.
Hypothesis ivar_len : length ivar = nrows A.
Hypothesis y_len : length y = nrows A.

(** What a successful call has returned. *)
Lemma tensor_vector_scalar_Return M p chi2 :
  tensor_vector_scalar A ivar y = Return (M, p, chi2) →
  M = At_diag_A A ivar ∧ chi2 = chi2_of A ivar y p ∧ length p = ncols A
  ∧ mv (rows (At_diag_A A ivar)) p = mv (At_diag A ivar) y.
Proof using All.
  intros Hret.
  destruct (normal_eqs_shape A ivar y A_wf ivar_len y_len) as [Hl Hw].
  pose proof Hret as Hret'.
  rewrite (tensor_vector_scalar_unfold A ivar y A_wf ivar_len y_len),
    (np_linalg_solve_normal_eqs A ivar y A_wf ivar_len y_len) in Hret'.
  destruct (solve_eqs _ _) as [p'|] eqn:Hs; [|discriminate].
  rewrite (tensor_vector_scalar_returns A ivar y A_wf ivar_len y_len p' Hs)
    in Hret.
  injection Hret as <- <- <-.
  destruct (solve_eqs_sound _ _ _ Hs Hl Hw) as [Hp Hsol].
  split_and!; try done.
  apply Forall_combine_mv; [|exact Hsol].
  rewrite length_mv, length_At_diag. apply (nrows_At_diag_A A ivar).
Qed.

(** The residual of a solution of the normal equations is orthogonal, with
    the weights, to the image of [A]. *)
Lemma normal_eqs_orthogonal p e :
  length p = ncols A →
  mv (rows (At_diag_A A ivar)) p = mv (At_diag A ivar) y →
  dot (zip_with Rmult ivar (zip_with Rminus (mv (rows A) p) y))
      (mv (rows A) e) = 0.
Proof using All.
  intros Hp Hn. rewrite dot_comm, dot_mv_transpose by done.
  rewrite <- mv_At_diag by done.
  change (zip_with Rminus (mv (rows A) p) y) with (vsub (mv (rows A) p) y).
  rewrite mv_vsub by (by rewrite length_mv, y_len).
  assert (mv (At_diag A ivar) (mv (rows A) p)
          = mv (rows (At_diag_A A ivar)) p) as ->.
  { unfold At_diag_A; simpl rows. rewrite mv_mmul; [done| |exact A_wf].
    apply At_diag_wf, ivar_len. }
  rewrite Hn, vsub_diag. apply dot_zeros_r.
Qed.

Lemma chi2_of_split p q :
  length p = ncols A → length q = ncols A →
  mv (rows (At_diag_A A ivar)) p = mv (At_diag A ivar) y →
  chi2_of A ivar y q
  = chi2_of A ivar y p
    + np_sum (zip_with Rmult ivar
                (map (fun x => x ^ 2) (mv (rows A) (vsub q p)))).
Proof using All.
  intros Hp Hq Hn. unfold chi2_of.
  rewrite (residual_split (mv (rows A) p) (mv (rows A) q) y)
    by (by rewrite length_mv, y_len).
  rewrite wsum_plus
    by (rewrite !length_zip_with, !length_mv, y_len; unfold nrows; lia).
  change (zip_with Rminus (mv (rows A) q) (mv (rows A) p))
    with (vsub (mv (rows A) q) (mv (rows A) p)).
  rewrite <- mv_vsub by lia.
  rewrite (normal_eqs_orthogonal p (vsub q p) Hp Hn). lra.
Qed.

End Solution.

(** X1: in exact real arithmetic (floats idealised as reals, no rounding
    and no overflow), the coefficients that [tensor_vector_scalar] returns
    minimise the weighted sum of squared residuals: for a design matrix
    with one row per observation, inverse variances and values of the
    length of the observations, and non-negative inverse variances, the
    returned [chi2] is not negative and no coefficient vector of the
    length of the linear parameters has a smaller one. *)
Theorem tensor_vector_scalar_minimises_chi2 A ivar y M p chi2 :
  wf_matrix A →
  length ivar = nrows A →
  length y = nrows A →
  Forall (fun w => 0 <= w) ivar →
  tensor_vector_scalar A ivar y = Return (M, p, chi2) →
  0 <= chi2 ∧ ∀ q, length q = ncols A → chi2 <= chi2_of A ivar y q.
Proof.
  intros Hwf Hi Hy Hpos Hret.
  destruct (tensor_vector_scalar_Return A ivar y Hwf Hi Hy M p chi2 Hret)
    as (-> & -> & Hp & Hn).
  split; [by apply wsum_nonneg|].
  intros q Hq. rewrite (chi2_of_split A ivar y Hwf Hi Hy p q Hp Hq Hn).
  pose proof (wsum_nonneg ivar (mv (rows A) (vsub q p)) Hpos). lra.
Qed.

Lemma tensor_vector_scalar_minimises_chi2_witness :
  ∃ p chi2,
    tensor_vector_scalar A_2x1 [1; 1] [1; 3]
    = Return (At_diag_A A_2x1 [1; 1], p, chi2)
    ∧ 0 <= chi2
    ∧ chi2 <= chi2_of A_2x1 [1; 1] [1; 3] [5].
Proof.
  destruct (tensor_vector_scalar_nonsingular A_2x1 [1; 1] [1; 3])
    as (p & Ht & _); [repeat constructor|reflexivity|reflexivity
                     |exact A_2x1_nonsingular|].
  assert (wf_matrix A_2x1) as Hwf by repeat constructor.
  assert (Forall (fun w => 0 <= w) [1; 1]) as Hpos
    by (repeat constructor; lra).
  destruct (tensor_vector_scalar_minimises_chi2 A_2x1 [1; 1] [1; 3] _ p _
              Hwf eq_refl eq_refl Hpos Ht) as [H0 Hmin].
  exists p. eexists. split; [exact Ht|]. split; [exact H0|].
  apply Hmin. reflexivity.
Defined.

(** X2: values that the model produces exactly are fitted exactly: for
    [y = A q] and a nonsingular information matrix the coefficients
    returned are [q] and [chi2] is zero. *)
Theorem tensor_vector_scalar_recovers_coefficients A ivar q :
  wf_matrix A →
  length ivar = nrows A →
  length q = ncols A →
  nonsingular (At_diag_A A ivar) →
  tensor_vector_scalar A ivar (mv (rows A) q)
  = Return (At_diag_A A ivar, q, 0).
Proof.
  intros Hwf Hi Hq Hns.
  assert (length (mv (rows A) q) = nrows A) as Hy by apply length_mv.
  destruct (tensor_vector_scalar_nonsingular A ivar _ Hwf Hi Hy Hns)
    as (p & Hret & Hp & Hn).
  assert (p = q) as ->.
  { apply (vsub_zeros_eq p q (ncols A)); [congruence|].
    apply Hns; [simpl; rewrite length_vsub; congruence|].
    rewrite mv_vsub by congruence. rewrite Hn.
    assert (mv (At_diag A ivar) (mv (rows A) q)
            = mv (rows (At_diag_A A ivar)) q) as ->.
    { unfold At_diag_A; simpl rows. rewrite mv_mmul; [done| |exact Hwf].
      by apply At_diag_wf. }
    rewrite vsub_diag, length_mv. done. }
  rewrite Hret. do 2 f_equal. unfold chi2_of.
  change (zip_with Rminus ?a ?b) with (vsub a b).
  rewrite vsub_diag. apply wsum_zeros.
Qed.

Lemma tensor_vector_scalar_recovers_coefficients_witness :
  tensor_vector_scalar A_2x1 [1; 1] (mv (rows A_2x1) [2])
  = Return (At_diag_A A_2x1 [1; 1], [2], 0).
Proof.
  apply tensor_vector_scalar_recovers_coefficients.
  - repeat constructor.
  - reflexivity.
  - reflexivity.
  - exact A_2x1_nonsingular.
Defined.

(** *** Scaling the inverse variances *)

Lemma zip_with_vscale_l c (w v : vec) :
  zip_with Rmult (vscale c w) v = vscale c (zip_with Rmult w v).
Proof.
  revert v; induction w as [|a w IH]; intros [|b v]; try done.
  change (zip_with Rmult (vscale c (a :: w)) (b :: v))
    with (c * a * b :: zip_with Rmult (vscale c w) v).
  rewrite IH. change (vscale c (zip_with Rmult (a :: w) (b :: v)))
    with (c * (a * b) :: vscale c (zip_with Rmult w v)).
  f_equal. lra.
Qed.

Lemma mv_vscale (X : list vec) c (v : vec) : mv X (vscale c v) = vscale c (mv X v).
Proof.
  induction X as [|r X IH]; [done|].
  change (mv (r :: X) (vscale c v)) with (dot r (vscale c v) :: mv X (vscale c v)).
  rewrite IH, (dot_comm r), dot_vscale, (dot_comm v). reflexivity.
Qed.

Lemma vscale_inj c (u v : vec) :
  c ≠ 0 → length u = length v → vscale c u = vscale c v → u = v.
Proof.
  intros Hc. revert v; induction u as [|a u IH]; intros [|b v] Hl H;
    try done; try discriminate.
  injection H as H0 H. f_equal; [nra|]. apply IH; [|done]. by injection Hl.
Qed.

Lemma np_sum_vscale c (u : vec) : np_sum (vscale c u) = c * np_sum u.
Proof.
  induction u as [|a u IH]; [simpl; lra|].
  change (np_sum (vscale c (a :: u))) with (c * a + np_sum (vscale c u)).
  rewrite IH. change (np_sum (a :: u)) with (a + np_sum u). lra.
Qed.

Section Scaling.

Variables (A : matrix) (ivar : vec) (c : R).
Hypothesis A_wf : wf_matrix A.
Hypothesis ivar_len : length ivar = nrows A.
Hypothesis c_nonzero : c ≠ 0.

Lemma mv_At_diag_vscale v :
  mv (At_diag A (vscale c ivar)) v = vscale c (mv (At_diag A ivar) v).
Proof using A_wf ivar_len.
  rewrite !mv_At_diag by (by rewrite ?length_vscale).
  by rewrite zip_with_vscale_l, mv_vscale.
Qed.

Lemma mv_At_diag_A (w p : vec) :
  length w = nrows A →
  mv (rows (At_diag_A A w)) p = mv (At_diag A w) (mv (rows A) p).
Proof using A_wf.
  intros Hw. unfold At_diag_A; simpl rows.
  rewrite mv_mmul; [done| |exact A_wf]. by apply At_diag_wf.
Qed.

Lemma mv_At_diag_A_vscale p :
  mv (rows (At_diag_A A (vscale c ivar))) p
  = vscale c (mv (rows (At_diag_A A ivar)) p).
Proof using A_wf ivar_len.
  rewrite !mv_At_diag_A by (by rewrite ?length_vscale).
  apply mv_At_diag_vscale.
Qed.

Lemma nonsingular_vscale :
  nonsingular (At_diag_A A ivar) → nonsingular (At_diag_A A (vscale c ivar)).
Proof using A_wf ivar_len c_nonzero.
  intros Hns v Hv Hker. apply Hns; [done|].
  rewrite mv_At_diag_A_vscale in Hker.
  rewrite (nrows_At_diag_A A (vscale c ivar)) in Hker.
  rewrite (nrows_At_diag_A A ivar).
  apply (vscale_inj c); [done| |].
  - pose proof (nrows_At_diag_A A ivar) as Hn. unfold nrows in Hn.
    by rewrite length_mv, length_zeros.
  - by rewrite Hker, vscale_zeros.
Qed.

End Scaling.

(** X3: in exact real arithmetic (floats idealised as reals, no rounding
    and no overflow), for a design matrix with one row per observation,
    inverse variances and values of the length of the observations, and a
    nonsingular information matrix, multiplying all the inverse variances
    by one nonzero factor leaves the coefficients that
    [tensor_vector_scalar] returns as they are and multiplies [chi2] by
    the factor. *)
Theorem tensor_vector_scalar_scale_ivar A ivar y c :
  wf_matrix A →
  length ivar = nrows A →
  length y = nrows A →
  nonsingular (At_diag_A A ivar) →
  c ≠ 0 →
  ∃ p chi2,
    tensor_vector_scalar A ivar y = Return (At_diag_A A ivar, p, chi2)
    ∧ tensor_vector_scalar A (vscale c ivar) y
      = Return (At_diag_A A (vscale c ivar), p, c * chi2).
Proof.
  intros Hwf Hi Hy Hns Hc.
  assert (length (vscale c ivar) = nrows A) as Hi'
    by (by rewrite length_vscale).
  destruct (tensor_vector_scalar_nonsingular A ivar y Hwf Hi Hy Hns)
    as (p & Hret & Hp & Hn).
  destruct (tensor_vector_scalar_nonsingular A (vscale c ivar) y Hwf Hi' Hy
              (nonsingular_vscale A ivar c Hwf Hi Hc Hns))
    as (p' & Hret' & Hp' & Hn').
  exists p, (chi2_of A ivar y p). split; [exact Hret|].
  assert (p' = p) as ->.
  { apply (vsub_zeros_eq p' p (ncols A)); [congruence|].
    apply Hns; [simpl; rewrite length_vsub; congruence|].
    rewrite mv_vsub by congruence. rewrite Hn.
    rewrite (mv_At_diag_A_vscale A ivar c Hwf Hi),
      (mv_At_diag_vscale A ivar c Hwf Hi) in Hn'.
    apply vscale_inj in Hn'; [|done|].
    - rewrite Hn', vsub_diag, length_mv, (length_At_diag A ivar).
      by rewrite (nrows_At_diag_A A ivar).
    - pose proof (nrows_At_diag_A A ivar) as Hr. unfold nrows in Hr.
      by rewrite !length_mv, (length_At_diag A ivar). }
  rewrite Hret'. do 2 f_equal. unfold chi2_of.
  by rewrite zip_with_vscale_l, np_sum_vscale.
Qed.

Lemma tensor_vector_scalar_scale_ivar_witness :
  ∃ p chi2,
    tensor_vector_scalar A_2x1 [1; 1] [1; 3]
    = Return (At_diag_A A_2x1 [1; 1], p, chi2)
    ∧ tensor_vector_scalar A_2x1 (vscale 4 [1; 1]) [1; 3]
      = Return (At_diag_A A_2x1 (vscale 4 [1; 1]), p, 4 * chi2).
Proof.
  apply tensor_vector_scalar_scale_ivar.
  - repeat constructor.
  - reflexivity.
  - reflexivity.
  - exact A_2x1_nonsingular.
  - lra.
Defined.

(** X4: arrays of the wrong length are refused with [ValueError]: inverse
    variances by the broadcast of line 66, values by the product of line
    71, before anything is solved. *)
Theorem tensor_vector_scalar_length_mismatch A ivar y :
  wf_matrix A →
  (length ivar ≠ nrows A → length ivar ≠ 1%nat → nrows A ≠ 1%nat →
   tensor_vector_scalar A ivar y = Raise (Exn ValueError shapes_msg))
  ∧ (length ivar = nrows A → length y ≠ nrows A →
     tensor_vector_scalar A ivar y = Raise (Exn ValueError align_msg)).
Proof.
  intros Hwf. split.
  - intros H1 H2 H3. unfold tensor_vector_scalar, np_binop2.
    rewrite nrows_transpose.
    change (nrows (newaxis0 ivar)) with 1%nat. rewrite bcast_dim_1_r.
    change (ncols (transpose A)) with (nrows A).
    change (ncols (newaxis0 ivar)) with (length ivar).
    unfold bcast_dim.
    destruct (Nat.eqb_spec (nrows A) (length ivar)); [congruence|].
    destruct (Nat.eqb_spec (nrows A) 1); [congruence|].
    by destruct (Nat.eqb_spec (length ivar) 1).
  - intros Hi Hy. unfold tensor_vector_scalar.
    rewrite (scale_rows_is_At_diag A ivar Hwf Hi), bind_Return.
    rewrite dot_mm_ok, bind_Return by done.
    unfold dot_mv. simpl ncols.
    by destruct (Nat.eqb_spec (nrows A) (length y)); [congruence|].
Qed.

Lemma tensor_vector_scalar_length_mismatch_witness :
  tensor_vector_scalar A_2x1 [1; 1; 1] [1; 3]
  = Raise (Exn ValueError shapes_msg).
Proof.
  assert (wf_matrix A_2x1) as Hwf by repeat constructor.
  apply (proj1 (tensor_vector_scalar_length_mismatch A_2x1 [1; 1; 1] [1; 3]
                  Hwf)); unfold nrows; simpl; lia.
Defined.

End LeastSquaresFacts.

(** ** The design matrix *)

Module DesignFacts.
Import Np NpFacts Likelihood LikelihoodExamples SolverFacts.

Lemma col_hstack_0 (z : vec) : ∀ X : list vec,
  length z = length X → col 0 (zip_with app (map (fun x => [x]) z) X) = z.
Proof.
  induction z as [|z0 z IH]; intros [|r X] Hl; try done.
  simpl. f_equal. apply IH. by injection Hl.
Qed.

Lemma col_hstack_S k (z : vec) : ∀ X : list vec,
  length z = length X →
  col (S k) (zip_with app (map (fun x => [x]) z) X) = col k X.
Proof.
  induction z as [|z0 z IH]; intros [|r X] Hl; try done.
  simpl. f_equal. apply IH. by injection Hl.
Qed.

Lemma col_vander k n (t : vec) :
  (k < n)%nat →
  col k (map (fun ti => map (fun j => ti ^ j) (seq 0 n)) t)
  = map (fun ti => ti ^ k) t.
Proof.
  intros Hk. unfold col. rewrite map_map. apply map_ext. intros ti.
  rewrite (nth_indep _ 0 (ti ^ 0)) by (by rewrite length_map, length_seq).
  rewrite (map_nth (fun j => ti ^ j)). by rewrite seq_nth.
Qed.

Section WithCollaborators.

Variable rv_from_elements : vec → R → R → R → R → R → result vec.

(** The call of [design_matrix], once the velocity response is known. *)
Lemma design_matrix_run P phi0 ecc omega rest data tr trs zdot :
  rv_from_elements (_t_bmjd data) P 1 ecc omega
    (phi0 - 2 * PI * frac_part (t_offset data / P)) = Return zdot →
  length zdot = length (_t_bmjd data) →
  design_matrix rv_from_elements (P :: phi0 :: ecc :: omega :: rest) data
    {| trends := tr :: trs |}
  = Return {| ncols := length (_t_bmjd data);
              rows := zdot :: map (fun k => map (fun ti => ti ^ k) (_t_bmjd data))
                                  (seq 0 (n_terms tr)) |}.
Proof using Type.
  intros Hrv Hl. unfold design_matrix, unpack4.
  change (take 4 (P :: phi0 :: ecc :: omega :: rest))
    with [P; phi0; ecc; omega].
  cbv beta iota zeta. rewrite bind_Return. cbv beta iota.
  rewrite Hrv, bind_Return.
  simpl trends. cbv iota. rewrite bind_Return. unfold np_hstack.
  assert (nrows (newaxis1 zdot) = nrows (np_vander (_t_bmjd data) (n_terms tr)))
    as Hn by (unfold nrows; simpl; by rewrite !length_map).
  rewrite Hn, Nat.eqb_refl, bind_Return. unfold transpose. simpl.
  assert (length (map (fun x => [x]) zdot)
          = length (map (fun ti => map (fun k => ti ^ k) (seq 0 (n_terms tr)))
                        (_t_bmjd data))) as Hl'
    by (by rewrite !length_map).
  do 2 f_equal.
  - unfold nrows. simpl. rewrite length_zip_with, !length_map. lia.
  - f_equal.
    + apply col_hstack_0. by rewrite length_map.
    + rewrite <- seq_shift, map_map. apply map_ext_in. intros k Hk.
      apply in_seq in Hk. rewrite col_hstack_S by (by rewrite length_map).
      apply col_vander. lia.
Qed.

(** X5: [design_matrix] returns one row per linear parameter and one column
    per observation: the first row is the velocity response of the orbit
    with unit amplitude, and row [k + 1] holds the [k]-th powers of the
    observation times; the entries of the parameter vector after the
    fourth (the jitter) are not used. *)
Theorem design_matrix_rows P phi0 ecc omega rest data tr trs zdot :
  P ≠ 0 →
  rv_from_elements (_t_bmjd data) P 1 ecc omega
    (phi0 - 2 * PI * frac_part (t_offset data / P)) = Return zdot →
  length zdot = length (_t_bmjd data) →
  ∃ A, design_matrix rv_from_elements (P :: phi0 :: ecc :: omega :: rest) data
         {| trends := tr :: trs |} = Return A
     ∧ wf_matrix A
     ∧ nrows A = S (n_terms tr)
     ∧ ncols A = length (_t_bmjd data)
     ∧ rows A !! 0%nat = Some zdot
     ∧ ∀ k, (k < n_terms tr)%nat →
         rows A !! S k = Some (map (fun ti => ti ^ k) (_t_bmjd data)).
Proof using Type.
  intros _ Hrv Hl. eexists. split; [by apply design_matrix_run|].
  split_and!.
  - unfold wf_matrix. simpl. constructor; [done|].
    apply Forall_map, Forall_forall. intros k _. simpl. apply length_map.
  - unfold nrows. simpl. by rewrite length_map, length_seq.
  - done.
  - done.
  - intros k Hk. simpl. rewrite list_lookup_fmap.
    by rewrite lookup_seq_lt.
Qed.

(** X6: [design_matrix] raises in four cases and, for a period other than
    zero, in no other: a parameter vector of fewer than four entries
    ([ValueError] of the unpacking of line 31), an error of
    [rv_from_elements], which is passed on, no velocity trend ([IndexError]
    of line 37), and a velocity response whose length differs from the
    number of observation times ([ValueError] of [np.hstack]). *)
Theorem design_matrix_errors nonlinear_p data jparams :
  ((length nonlinear_p < 4)%nat →
   raises (design_matrix rv_from_elements nonlinear_p data jparams) ValueError)
  ∧ (∀ P phi0 ecc omega rest,
       nonlinear_p = P :: phi0 :: ecc :: omega :: rest →
       P ≠ 0 →
       match rv_from_elements (_t_bmjd data) P 1 ecc omega
               (phi0 - 2 * PI * frac_part (t_offset data / P)) with
       | Raise e =>
           design_matrix rv_from_elements nonlinear_p data jparams = Raise e
       | Return zdot =>
           match trends jparams with
           | [] =>
               raises (design_matrix rv_from_elements nonlinear_p data jparams)
                 IndexError
           | tr :: _ =>
               if decide (length zdot = length (_t_bmjd data))
               then returns
                      (design_matrix rv_from_elements nonlinear_p data jparams)
               else raises
                      (design_matrix rv_from_elements nonlinear_p data jparams)
                      ValueError
           end
       end).
Proof using Type.
  split.
  - intros Hl. unfold design_matrix, unpack4.
    destruct nonlinear_p as [|a [|b [|c [|d l]]]]; simpl in Hl; try lia;
      by eexists.
  - intros P phi0 ecc omega rest -> _.
    destruct (rv_from_elements _ _ _ _ _ _) as [zdot|e] eqn:Hrv.
    + destruct jparams as [[|tr trs]].
      * unfold design_matrix, unpack4.
        change (take 4 (P :: phi0 :: ecc :: omega :: rest))
          with [P; phi0; ecc; omega].
        cbv beta iota zeta. rewrite bind_Return. cbv beta iota.
        rewrite Hrv, bind_Return. by eexists.
      * simpl trends. cbv iota.
        destruct (decide (length zdot = length (_t_bmjd data))) as [Hl|Hl].
        -- eexists. by apply design_matrix_run.
        -- unfold design_matrix, unpack4.
           change (take 4 (P :: phi0 :: ecc :: omega :: rest))
             with [P; phi0; ecc; omega].
           cbv beta iota zeta. rewrite bind_Return. cbv beta iota.
           rewrite Hrv, bind_Return. simpl trends. cbv iota.
           rewrite bind_Return. unfold np_hstack, nrows. simpl rows.
           rewrite !length_map.
           destruct (Nat.eqb_spec (length zdot) (length (_t_bmjd data)));
             [done|]. by eexists.
    + unfold design_matrix, unpack4.
      change (take 4 (P :: phi0 :: ecc :: omega :: rest))
        with [P; phi0; ecc; omega].
      cbv beta iota zeta. rewrite bind_Return. cbv beta iota.
      by rewrite Hrv.
Qed.

(** X7: what [design_matrix] returns is not what [tensor_vector_scalar]
    takes: with at least two observations, a velocity trend of at least one
    term, and a number of linear parameters other than the number of
    observations, the product of line 66 cannot be broadcast and
    [tensor_vector_scalar] raises [ValueError] on the design matrix. *)
Theorem design_matrix_then_tensor_vector_scalar_raises
    P phi0 ecc omega rest data tr trs zdot ivar y :
  P ≠ 0 →
  rv_from_elements (_t_bmjd data) P 1 ecc omega
    (phi0 - 2 * PI * frac_part (t_offset data / P)) = Return zdot →
  length zdot = length (_t_bmjd data) →
  length ivar = length (_t_bmjd data) →
  (2 ≤ length (_t_bmjd data))%nat →
  (1 ≤ n_terms tr)%nat →
  S (n_terms tr) ≠ length (_t_bmjd data) →
  (A ← design_matrix rv_from_elements (P :: phi0 :: ecc :: omega :: rest) data
         {| trends := tr :: trs |};
   tensor_vector_scalar A ivar y)
  = Raise (Exn ValueError shapes_msg).
Proof using Type.
  intros _ Hrv Hl Hi Hn Ht Hne.
  rewrite (design_matrix_run _ _ _ _ _ _ _ _ _ Hrv Hl), bind_Return.
  unfold tensor_vector_scalar, np_binop2. rewrite nrows_transpose.
  change (nrows (newaxis0 ivar)) with 1%nat. rewrite bcast_dim_1_r.
  change (ncols (newaxis0 ivar)) with (length ivar).
  unfold transpose at 1. cbn [ncols]. unfold nrows at 1. cbn [rows].
  cbn [length]. rewrite length_map, length_seq, Hi. unfold bcast_dim.
  destruct (Nat.eqb_spec (S (n_terms tr)) (length (_t_bmjd data))); [lia|].
  destruct (Nat.eqb_spec (S (n_terms tr)) 1); [lia|].
  destruct (Nat.eqb_spec (length (_t_bmjd data)) 1); [lia|done].
Qed.

End WithCollaborators.

Lemma design_matrix_rows_witness :
  ∃ A, design_matrix ex_rv_from_elements ex_nonlinear_p (ex_data [1; 1])
         {| trends := [{| n_terms := 1 |}] |} = Return A
     ∧ nrows A = 2%nat
     ∧ ncols A = 2%nat
     ∧ rows A !! 0%nat = Some [1; 1].
Proof.
  assert (10 ≠ 0) as HP by lra.
  destruct (design_matrix_rows ex_rv_from_elements 10 0 0 0 [0] (ex_data [1; 1])
              {| n_terms := 1 |} [] [1; 1] HP eq_refl eq_refl)
    as (A & Hrun & _ & Hn & Hc & Hz & _).
  exists A. split; [exact Hrun|]. split; [exact Hn|]. split; [exact Hc|].
  exact Hz.
Defined.

Lemma design_matrix_errors_witness :
  raises (design_matrix ex_rv_from_elements [10; 0; 0] (ex_data [1; 1])
            {| trends := [{| n_terms := 1 |}] |}) ValueError.
Proof.
  apply (proj1 (design_matrix_errors ex_rv_from_elements [10; 0; 0]
                  (ex_data [1; 1]) {| trends := [{| n_terms := 1 |}] |})).
  simpl. lia.
Defined.

Lemma design_matrix_then_tensor_vector_scalar_raises_witness :
  (A ← design_matrix ex_rv_from_elements ex_nonlinear_p (ex_data [1; 1; 1])
         {| trends := [{| n_terms := 1 |}] |};
   tensor_vector_scalar A [1; 1; 1] [1; 1; 1])
  = Raise (Exn ValueError shapes_msg).
Proof.
  assert (10 ≠ 0) as HP by lra.
  apply (design_matrix_then_tensor_vector_scalar_raises ex_rv_from_elements
           10 0 0 0 [0] (ex_data [1; 1; 1]) {| n_terms := 1 |} [] [1; 1; 1]
           [1; 1; 1] [1; 1; 1] HP eq_refl eq_refl eq_refl); simpl; lia.
Defined.

End DesignFacts.

(** ** The sample container *)

Module SamplesFacts.
Import Samples SamplesExamples.

(** *** Running the heap monad *)

Lemma bind_run {A B} (m : M A) (k : A → M B) h a h' :
  m h = (Return a, h') → (m ≫= k) h = k a h'.
Proof. intros H. unfold mbind, M_bind. by rewrite H. Qed.

Lemma bind_run_raise {A B} (m : M A) (k : A → M B) h e h' :
  m h = (Raise e, h') → (m ≫= k) h = (Raise e, h').
Proof. intros H. unfold mbind, M_bind. by rewrite H. Qed.

Lemma read_ref_run {A} (sel : heap → list A) r h v :
  sel h !! r = Some v → read_ref sel r h = (Return v, h).
Proof. intros H. unfold read_ref. by rewrite H. Qed.

Lemma Quantity_new_run val h :
  Quantity_new val h = (Return (stored h val), push val h).
Proof. by destruct val. Qed.

(** *** Assignment to a key *)

Lemma setitem_invalid_key self key val h :
  key ∉ _valid_keys →
  __setitem__ self key val h
  = (Raise (Exn ValueError (invalid_key_msg key)), h).
Proof.
  intros Hk. unfold __setitem__, _validate_key.
  by destruct (decide (key ∈ _valid_keys)).
Qed.

Lemma validate_val_ok self val h :
  (∀ s, _shape self = Some s → pyval_shape val = s) →
  _validate_val self val h = (Return (stored h val), push val h).
Proof.
  intros Hs. unfold _validate_val.
  rewrite (bind_run _ _ _ _ _ (Quantity_new_run val h)).
  destruct (_shape self) as [s|] eqn:Hshape; [|done].
  unfold shape. rewrite Hshape.
  unfold mbind, M_bind, mret, M_ret. simpl.
  rewrite (Hs s eq_refl). by destruct (decide (s ≠ s)).
Qed.

Lemma setitem_ok self key val h :
  key ∈ _valid_keys →
  (∀ s, _shape self = Some s → pyval_shape val = s) →
  __setitem__ self key val h
  = (Return (assign self key (stored h val)), push val h).
Proof.
  intros Hk Hs. unfold __setitem__, _validate_key.
  destruct (decide (key ∈ _valid_keys)); [|done].
  unfold mbind at 1, M_bind at 1, mret at 1, M_ret at 1.
  rewrite (bind_run _ _ _ _ _ (validate_val_ok self val h Hs)).
  unfold assign. by destruct (_shape self).
Qed.

Lemma setitem_shape_mismatch_1d self key val h s n :
  key ∈ _valid_keys →
  _shape self = Some s →
  pyval_shape val = Shape1 n →
  Shape1 n ≠ s →
  __setitem__ self key val h
  = (Raise (Exn ValueError (shape_mismatch_msg n s)), push val h).
Proof.
  intros Hk Hshape Hv Hne. unfold __setitem__, _validate_key.
  destruct (decide (key ∈ _valid_keys)); [|done].
  unfold mbind at 1, M_bind at 1, mret at 1, M_ret at 1.
  apply bind_run_raise. unfold _validate_val.
  rewrite (bind_run _ _ _ _ _ (Quantity_new_run val h)).
  rewrite Hshape. unfold shape. rewrite Hshape.
  unfold mbind, M_bind, mret, M_ret, lift, Quantity_len. simpl.
  rewrite Hv. by destruct (decide (Shape1 n ≠ s)).
Qed.

Lemma setitem_shape_mismatch_0d self key val h s :
  key ∈ _valid_keys →
  _shape self = Some s →
  pyval_shape val = Shape0 →
  s ≠ Shape0 →
  __setitem__ self key val h
  = (Raise (Exn TypeError "'Quantity' object with a scalar value has no len()"),
     push val h).
Proof.
  intros Hk Hshape Hv Hne. unfold __setitem__, _validate_key.
  destruct (decide (key ∈ _valid_keys)); [|done].
  unfold mbind at 1, M_bind at 1, mret at 1, M_ret at 1.
  apply bind_run_raise. unfold _validate_val.
  rewrite (bind_run _ _ _ _ _ (Quantity_new_run val h)).
  rewrite Hshape. unfold shape. rewrite Hshape.
  unfold mbind, M_bind, mret, M_ret, lift, Quantity_len. simpl.
  rewrite Hv. destruct (decide (Shape0 ≠ s)) as [|Hn]; [done|].
  exfalso. apply Hne. by destruct (decide (s = Shape0)); [|destruct Hn].
Qed.

(** *** The ordered dictionary *)

Section Odict.
Context {V : Type}.
Implicit Types (d : list (string * V)) (k : string) (v : V).

Lemma odict_set_notin k v d : k ∉ d.*1 → odict_set k v d = d ++ [(k, v)].
Proof.
  induction d as [|[k' v'] d IH]; simpl; [done|]. intros Hk.
  rewrite not_elem_of_cons in Hk. destruct Hk as [Hne Hk].
  destruct (decide (k = k')); [done|]. by rewrite IH.
Qed.

Lemma odict_set_middle k v v' d1 d2 :
  k ∉ d1.*1 → odict_set k v (d1 ++ (k, v') :: d2) = d1 ++ (k, v) :: d2.
Proof.
  induction d1 as [|[k1 v1] d1 IH]; simpl.
  - intros _. by destruct (decide (k = k)).
  - intros Hk. rewrite not_elem_of_cons in Hk. destruct Hk as [Hne Hk].
    destruct (decide (k = k1)); [done|]. by rewrite IH.
Qed.

Lemma odict_get_elem k v d : NoDup d.*1 → (k, v) ∈ d → odict_get k d = Some v.
Proof.
  induction d as [|[k' v'] d IH]; simpl; intros Hnd Hin.
  { by apply elem_of_nil in Hin. }
  apply NoDup_cons in Hnd as [Hk' Hnd].
  apply elem_of_cons in Hin as [[= -> ->]|Hin].
  - by destruct (decide (k' = k')).
  - destruct (decide (k = k')) as [->|]; [|by apply IH].
    exfalso. apply Hk'. apply list_elem_of_fmap. by exists (k', v).
Qed.

Lemma odict_get_Some k v d : odict_get k d = Some v → (k, v) ∈ d.
Proof.
  induction d as [|[k' v'] d IH]; simpl; [done|].
  destruct (decide (k = k')) as [->|].
  - intros [= ->]. apply elem_of_cons. by left.
  - intros H. apply elem_of_cons. right. by apply IH.
Qed.

Lemma odict_get_set_eq k v d : odict_get k (odict_set k v d) = Some v.
Proof.
  induction d as [|[k' v'] d IH]; simpl.
  - by rewrite decide_True.
  - destruct (decide (k = k')) as [->|Hne]; simpl.
    + by rewrite decide_True.
    + by rewrite decide_False.
Qed.

Lemma odict_get_set_ne k k' v d :
  k ≠ k' → odict_get k' (odict_set k v d) = odict_get k' d.
Proof.
  intros Hne. induction d as [|[k0 v0] d IH]; simpl.
  - by rewrite decide_False.
  - destruct (decide (k = k0)) as [->|Hne0]; simpl.
    + by rewrite !decide_False.
    + destruct (decide (k' = k0)); [done|apply IH].
Qed.

Lemma odict_get_None k d : odict_get k d = None ↔ k ∉ d.*1.
Proof.
  induction d as [|[k' v'] d IH]; simpl.
  - split; [intros _; apply not_elem_of_nil|done].
  - rewrite not_elem_of_cons. destruct (decide (k = k')); [|tauto].
    split; [done|]. by intros [? _].
Qed.

End Odict.

(** *** Buffers only grow *)

Lemma buffer_push val h b :
  (b < length (h_bufs h))%nat → buffer (push val h) b = buffer h b.
Proof.
  intros Hb. unfold buffer, push; simpl. by rewrite lookup_app_l.
Qed.

Lemma extends_refl h : extends h h.
Proof. exists []. by rewrite app_nil_r. Qed.

Lemma extends_trans h1 h2 h3 : extends h1 h2 → extends h2 h3 → extends h1 h3.
Proof.
  intros [e1 H1] [e2 H2]. exists (e1 ++ e2). by rewrite H2, H1, app_assoc.
Qed.

Lemma extends_push val h : extends h (push val h).
Proof. by eexists. Qed.

Lemma extends_push_many kvs h : extends h (push_many kvs h).
Proof. by eexists. Qed.

Lemma extends_buffer h h' b :
  extends h h' → (b < length (h_bufs h))%nat → buffer h' b = buffer h b.
Proof.
  intros [ext H] Hb. unfold buffer. by rewrite H, lookup_app_l.
Qed.

Lemma extends_q_value h h' q :
  extends h h' → allocated h q → q_value h' q = q_value h q.
Proof.
  intros He [Hb _]. unfold q_value. by rewrite (extends_buffer _ _ _ He Hb).
Qed.

Lemma extends_allocated h h' q : extends h h' → allocated h q → allocated h' q.
Proof.
  intros He [Hb Ho]. split.
  - destruct He as [ext ->]. rewrite length_app. lia.
  - by rewrite (extends_buffer _ _ _ He Hb).
Qed.

Lemma extends_pyval_value h h' v :
  extends h h' → pyval_allocated h v → pyval_value h' v = pyval_value h v.
Proof. destruct v; simpl; [apply extends_q_value|done]. Qed.

Lemma extends_pyval_allocated h h' v :
  extends h h' → pyval_allocated h v → pyval_allocated h' v.
Proof. destruct v; simpl; [apply extends_allocated|done]. Qed.

Lemma length_q_value h q :
  allocated h q → length (q_value h q) = shape_size (q_shape q).
Proof.
  intros [_ Ho]. unfold q_value. rewrite length_take, length_drop. lia.
Qed.

Lemma length_pyval_value h v :
  pyval_allocated h v → length (pyval_value h v) = shape_size (pyval_shape v).
Proof. destruct v; simpl; [apply length_q_value|done]. Qed.

(** The array made by an assignment holds the numbers assigned. *)
Lemma q_value_fresh h n (d : list R) s u :
  h_bufs h !! n = Some d → length d = shape_size s →
  q_value h {| q_buf := n; q_off := 0; q_shape := s; q_unit := u |} = d.
Proof.
  intros Hn Hl. unfold q_value, buffer; simpl. rewrite Hn. simpl.
  rewrite <- Hl. apply firstn_all.
Qed.

(** *** Successive assignments *)

Lemma setitem_many kvs : ∀ self h s,
  Forall (fun kv => kv.1 ∈ _valid_keys) kvs →
  Forall (fun kv => pyval_shape kv.2 = s) kvs →
  (_shape self = None ∨ _shape self = Some s) →
  Forall (fun kv => pyval_allocated h kv.2) kvs →
  foldM (fun y kv => __setitem__ y kv.1 kv.2) self kvs h
  = (Return (assign_many self (length (h_bufs h)) kvs), push_many kvs h).
Proof.
  induction kvs as [|[k v] kvs IH]; intros self h s Hk Hs Hself Ha.
  { simpl. unfold mret, M_ret, push_many, upd_bufs. simpl.
    rewrite app_nil_r. by destruct h. }
  inversion Hk as [|? ? Hk1 Hk2]; inversion Hs as [|? ? Hs1 Hs2];
    inversion Ha as [|? ? Ha1 Ha2]; subst. simpl in *.
  rewrite (bind_run _ _ _ _ _ (setitem_ok self k v h Hk1
             ltac:(intros s' Hs'; destruct Hself as [H|H]; congruence))).
  rewrite (IH _ _ (pyval_shape v)); try done.
  - f_equal.
    + unfold push; simpl. rewrite length_app; simpl.
      by rewrite Nat.add_1_r.
    + unfold push_many, push, upd_bufs; simpl. f_equal.
      rewrite <- app_assoc. simpl. do 2 f_equal.
      apply map_ext_Forall. eapply Forall_impl; [exact Ha2|].
      intros kv Hkv. simpl. apply extends_pyval_value; [|done].
      apply (extends_push v h).
  - right. unfold assign. by destruct (_shape self) as [s'|] eqn:E;
      simpl; [destruct Hself as [?|?]; congruence|].
  - eapply Forall_impl; [exact Ha2|]. intros kv Hkv. simpl.
    by apply (extends_pyval_allocated h); [apply extends_push|].
Qed.

Lemma assign_many_t0 kvs : ∀ self n, t0 (assign_many self n kvs) = t0 self.
Proof.
  induction kvs as [|kv kvs IH]; intros self n; simpl; [done|].
  rewrite IH. unfold assign. by destruct (_shape self).
Qed.

Lemma assign_many_cache kvs : ∀ self n,
  _cache (assign_many self n kvs) = _cache self.
Proof.
  induction kvs as [|kv kvs IH]; intros self n; simpl; [done|].
  rewrite IH. unfold assign. by destruct (_shape self).
Qed.

Lemma assign_many_shape kvs : ∀ self n,
  _shape (assign_many self n kvs)
  = match _shape self with
    | Some s => Some s
    | None => (fun kv => pyval_shape kv.2) <$> head kvs
    end.
Proof.
  induction kvs as [|kv kvs IH]; intros self n; simpl.
  - by destruct (_shape self).
  - rewrite IH. unfold assign.
    destruct (_shape self) eqn:E; simpl; by rewrite ?E.
Qed.

Lemma assign_many_size kvs : ∀ self n,
  _size (assign_many self n kvs)
  = match _shape self, head kvs with
    | None, Some kv => Some (shape_size (pyval_shape kv.2))
    | _, _ => _size self
    end.
Proof.
  induction kvs as [|kv kvs IH]; intros self n; simpl.
  - by destruct (_shape self).
  - rewrite IH. unfold assign.
    destruct (_shape self) eqn:E; simpl; by rewrite ?E.
Qed.

(** New keys are appended in the order of assignment. *)
Lemma assign_many_items_append kvs : ∀ self n,
  NoDup (keys self ++ kvs.*1) →
  items (assign_many self n kvs) = items self ++ fresh_items n kvs.
Proof.
  induction kvs as [|[k v] kvs IH]; intros self n Hnd; simpl.
  { by rewrite app_nil_r. }
  simpl in Hnd. apply NoDup_app in Hnd as (Hnd1 & Hdisj & Hnd2).
  apply NoDup_cons in Hnd2 as [Hk Hnd2].
  assert (k ∉ keys self) as Hnot.
  { intros Hin. apply (Hdisj _ Hin). apply elem_of_cons. by left. }
  rewrite IH.
  - unfold assign at 1. simpl. rewrite odict_set_notin by done.
    by rewrite <- app_assoc.
  - unfold assign, keys. simpl. rewrite odict_set_notin by done.
    rewrite fmap_app. simpl. rewrite <- app_assoc. simpl.
    apply NoDup_app. split; [done|]. split; [|by apply NoDup_cons].
    intros x Hx Hx'. apply (Hdisj x Hx). done.
Qed.

(** Keys that are present keep their place. *)
Lemma assign_many_items_replace kvs : ∀ self n done todo,
  items self = done ++ todo →
  todo.*1 = kvs.*1 →
  NoDup (done.*1 ++ kvs.*1) →
  items (assign_many self n kvs) = done ++ fresh_items n kvs.
Proof.
  induction kvs as [|[k v] kvs IH]; intros self n dn todo Hit Hkeys Hnd; simpl.
  { destruct todo; [|done]. done. }
  destruct todo as [|[k' q'] todo]; [done|]. simpl in Hkeys.
  injection Hkeys as -> Hkeys.
  apply NoDup_app in Hnd as (Hnd1 & Hdisj & Hnd2).
  assert (k ∉ dn.*1) as Hnot.
  { intros Hin. apply (Hdisj _ Hin). apply elem_of_cons. by left. }
  rewrite (IH _ _ (dn ++ [(k, {| q_buf := n; q_off := 0;
                                 q_shape := pyval_shape v;
                                 q_unit := pyval_unit v |})]) todo).
  - by rewrite <- app_assoc.
  - unfold assign. simpl. rewrite Hit, odict_set_middle by done.
    by rewrite <- app_assoc.
  - done.
  - rewrite fmap_app. simpl. rewrite <- app_assoc. simpl.
    apply NoDup_app. split; [done|]. split; [|done].
    intros x Hx Hx'. by apply (Hdisj x Hx).
Qed.

Lemma fresh_items_keys kvs : ∀ n, (fresh_items n kvs).*1 = kvs.*1.
Proof. induction kvs as [|kv kvs IH]; intros; simpl; [done|]. by rewrite IH. Qed.

Lemma as_values_keys d : (as_values d).*1 = d.*1.
Proof. unfold as_values. rewrite <- list_fmap_compose. done. Qed.

Lemma foldM_map {A B C} (f : A → C → M A) (g : B → C) (l : list B) :
  ∀ a h, foldM (fun a b => f a (g b)) a l h = foldM f a (map g l) h.
Proof.
  induction l as [|b l IH]; intros a h; simpl; [done|].
  unfold mbind, M_bind. destruct (f a (g b) h) as [[a'|e] h']; [apply IH|done].
Qed.

Lemma fresh_items_lookup kvs : ∀ n i kv,
  kvs !! i = Some kv →
  fresh_items n kvs !! i = Some (kv.1, fresh (n + i) kv.2).
Proof.
  induction kvs as [|kv0 kvs IH]; intros n [|i] kv; simpl; try done.
  - intros [= ->]. by rewrite Nat.add_0_r.
  - intros H. rewrite (IH (S n) i kv H). do 3 f_equal. lia.
Qed.

Lemma fresh_items_elem kvs n k q :
  (k, q) ∈ fresh_items n kvs →
  ∃ i v, kvs !! i = Some (k, v) ∧ q = fresh (n + i) v.
Proof.
  revert n; induction kvs as [|[k0 v0] kvs IH]; intros n; simpl.
  { intros H. by apply elem_of_nil in H. }
  intros H. apply elem_of_cons in H as [[= -> ->]|H].
  - exists 0%nat, v0. by rewrite Nat.add_0_r.
  - destruct (IH _ H) as (i & v & Hi & ->). exists (S i), v. split; [done|].
    f_equal. lia.
Qed.

(** The buffer of the [i]-th of successive assignments holds its numbers. *)
Lemma push_many_lookup kvs h i kv :
  kvs !! i = Some kv →
  h_bufs (push_many kvs h) !! (length (h_bufs h) + i)%nat
  = Some (pyval_value h kv.2).
Proof.
  intros H. unfold push_many; simpl.
  rewrite lookup_app_r by lia.
  replace (length (h_bufs h) + i - length (h_bufs h))%nat with i by lia.
  by rewrite list_lookup_fmap, H.
Qed.

Lemma fresh_content kvs h i kv :
  kvs !! i = Some kv →
  pyval_allocated h kv.2 →
  let q := fresh (length (h_bufs h) + i) kv.2 in
  allocated (push_many kvs h) q ∧
  q_value (push_many kvs h) q = pyval_value h kv.2.
Proof.
  intros Hi Ha q. subst q. pose proof (push_many_lookup kvs h i kv Hi) as Hb.
  pose proof (length_pyval_value h kv.2 Ha) as Hl.
  split.
  - split; [by apply lookup_lt_Some in Hb|].
    unfold buffer, fresh. cbn [q_buf q_off q_shape]. rewrite Hb. simpl. lia.
  - by apply q_value_fresh.
Qed.

(** *** Construction and copy *)

Lemma init_run t0v kwargs h s :
  Forall (fun kv => kv.1 ∈ _valid_keys) kwargs →
  Forall (fun kv => pyval_shape kv.2 = s) kwargs →
  Forall (fun kv => pyval_allocated h kv.2) kwargs →
  __init__ t0v kwargs h
  = (Return (set_cache (assign_many (blank t0v) (length (h_bufs h)) kwargs)
               (Some (length (h_dicts h)))),
     upd_dicts (fun l => l ++ [None]) (push_many kwargs h)).
Proof.
  intros Hk Hs Ha. unfold __init__.
  by rewrite (bind_run _ _ _ _ _
                (setitem_many kwargs (blank t0v) h s Hk Hs (or_introl eq_refl) Ha)).
Qed.

Lemma wf_samples_values h c s :
  wf_samples h c → _shape c = Some s →
  Forall (fun kv => kv.1 ∈ _valid_keys) (as_values (items c)) ∧
  Forall (fun kv => pyval_shape kv.2 = s) (as_values (items c)) ∧
  Forall (fun kv => pyval_allocated h kv.2) (as_values (items c)).
Proof.
  intros (Hnd & Hv & Ha & Hs & Hc) Hshape. rewrite Hshape in Hs.
  destruct Hs as [_ Hs]. unfold as_values, keys in *.
  rewrite !Forall_fmap in *. split_and!.
  - eapply Forall_impl; [exact Hv|]. by intros [k q].
  - eapply Forall_impl; [exact Hs|]. by intros [k q].
  - eapply Forall_impl; [exact Ha|]. by intros [k q].
Qed.

Lemma copy_copy_run h self s :
  wf_samples h self → _shape self = Some s →
  copy_copy self h
  = (Return (assign_many (set_items self []) (length (h_bufs h))
               (as_values (items self))),
     push_many (as_values (items self)) (upd_dicts (fun l => l ++ [None]) h)).
Proof.
  intros Hwf Hshape.
  destruct (wf_samples_values _ _ _ Hwf Hshape) as (Hk & Hs & Ha).
  destruct Hwf as (_ & _ & _ & _ & d & Hc & _).
  unfold copy_copy.
  rewrite (bind_run _ _ h
             (set_cache (blank None) (Some (length (h_dicts h))))
             (upd_dicts (fun l => l ++ [None]) h)) by done.
  cbv zeta. rewrite Hc. cbn [items set_cache blank].
  rewrite (foldM_map (fun y kv => __setitem__ y kv.1 kv.2)
             (fun kv : string * Quantity => (kv.1, VQuantity kv.2))).
  change (map _ (items self)) with (as_values (items self)).
  rewrite (setitem_many _ _ _ s); try done.
  - unfold set_items. by rewrite Hc.
  - by right.
Qed.

Lemma slice_bounds_le n start stop :
  ((slice_bounds n start stop).1 + (slice_bounds n start stop).2 ≤ n)%nat.
Proof.
  unfold slice_bounds, clamp. simpl.
  destruct start as [a|], stop as [b|]; repeat case_decide.
  all: lia.
Qed.

Lemma view_allocated h q n lo len :
  allocated h q → q_shape q = Shape1 n → (lo + len ≤ n)%nat →
  allocated h (view_of lo len q).
Proof.
  intros [Hb Ho] Hs Hle. rewrite Hs in Ho. split; simpl in *; [done|lia].
Qed.

(** A view holds the selected part of the numbers of the array. *)
Lemma view_value h q n start stop :
  allocated h q → q_shape q = Shape1 n →
  q_value h (view_of (slice_bounds n start stop).1
               (slice_bounds n start stop).2 q)
  = slice_list start stop (q_value h q).
Proof.
  intros Ha Hs. unfold slice_list. rewrite (length_q_value _ _ Ha), Hs.
  simpl shape_size. pose proof (slice_bounds_le n start stop) as Hle.
  destruct (slice_bounds n start stop) as [lo len]. simpl in *.
  unfold q_value. rewrite Hs. simpl.
  rewrite <- drop_drop, skipn_firstn_comm, take_take.
  f_equal. lia.
Qed.

Lemma getitem_step self k q n start stop new h :
  odict_get k (items self) = Some q → q_shape q = Shape1 n →
  (q ← dict_getitem self k;
   v ← Quantity_getitem q (ISlice start stop);
   __setitem__ new k v) h
  = __setitem__ new k
      (VQuantity (view_of (slice_bounds n start stop).1
                    (slice_bounds n start stop).2 q)) h.
Proof.
  intros Hget Hs.
  rewrite (bind_run _ _ h q h) by (unfold dict_getitem; by rewrite Hget).
  unfold Quantity_getitem. rewrite Hs.
  by destruct (slice_bounds n start stop) as [lo len].
Qed.

Lemma foldM_cons {A B} (f : A → B → M A) a b l h :
  foldM f a (b :: l) h
  = match f a b h with
    | (Return a', h') => foldM f a' l h'
    | (Raise e, h') => (Raise e, h')
    end.
Proof. reflexivity. Qed.

(** The loop of [__getitem__] is a run of assignments of views. *)
Lemma getitem_loop self n start stop (its : list (string * Quantity)) :
  Forall (fun kv => odict_get kv.1 (items self) = Some kv.2
                    ∧ q_shape kv.2 = Shape1 n) its →
  ∀ new h,
  foldM (fun new k =>
           q ← dict_getitem self k;
           v ← Quantity_getitem q (ISlice start stop);
           __setitem__ new k v) new its.*1 h
  = foldM (fun y kv => __setitem__ y kv.1 kv.2) new (views start stop n its) h.
Proof.
  induction 1 as [|[k q] its [Hget Hs] _ IH]; intros new h; [done|].
  unfold views. rewrite fmap_cons, map_cons, !foldM_cons.
  cbn beta iota delta [fst snd].
  rewrite (getitem_step self k q n start stop new h Hget Hs).
  destruct (__setitem__ new k _ h) as [[new'|e] h']; [|done].
  apply IH.
Qed.

(** *** Indexing by a slice *)

Section Slice.

Variables (h : heap) (self : JokerSamples) (n : nat) (start stop : option Z).
Hypothesis self_wf : wf_samples h self.
Hypothesis self_shape : _shape self = Some (Shape1 n).

Let lo := (slice_bounds n start stop).1.
Let len := (slice_bounds n start stop).2.
Let copies := as_values (items self).
Let h1 := push_many copies (upd_dicts (fun l => l ++ [None]) h).
Let vs := views start stop n (items self).
Let copied := assign_many (set_items self []) (length (h_bufs h)) copies.
Let sliced := assign_many (set_shape_size copied None None) (length (h_bufs h1)) vs.

Lemma self_items_facts :
  Forall (fun kv => odict_get kv.1 (items self) = Some kv.2
                    ∧ q_shape kv.2 = Shape1 n ∧ allocated h kv.2
                    ∧ kv.1 ∈ _valid_keys) (items self).
Proof using self_wf self_shape.
  destruct self_wf as (Hnd & Hv & Ha & Hs & _). rewrite self_shape in Hs.
  destruct Hs as [_ Hs]. apply Forall_forall. intros [k q] Hin. simpl.
  split_and!.
  - by apply odict_get_elem.
  - by apply (proj1 (Forall_forall _ _) Hs (k, q)).
  - by apply (proj1 (Forall_forall _ _) Ha (k, q)).
  - apply (proj1 (Forall_forall _ _) Hv k). apply list_elem_of_fmap.
    by exists (k, q).
Qed.

Lemma views_facts :
  Forall (fun kv => kv.1 ∈ _valid_keys) vs ∧
  Forall (fun kv => pyval_shape kv.2 = Shape1 len) vs ∧
  Forall (fun kv => pyval_allocated h1 kv.2) vs.
Proof using self_wf self_shape.
  pose proof self_items_facts as H. unfold vs, views. rewrite !Forall_fmap.
  split_and!; (eapply Forall_impl; [exact H|]);
    intros [k q] (_ & Hs & Ha & Hk); simpl; try done.
  apply (extends_allocated h).
  - unfold h1, push_many, extends. simpl. by eexists.
  - by apply (view_allocated _ _ n); [| |apply slice_bounds_le].
Qed.

Lemma getitem_slice_run :
  __getitem__ self (KIndex (ISlice start stop)) h
  = (Return (GSamples sliced), push_many vs h1).
Proof using self_wf self_shape.
  unfold __getitem__.
  rewrite (bind_run _ _ _ _ _ (copy_copy_run h self _ self_wf self_shape)).
  cbv zeta. unfold keys.
  erewrite (bind_run _ _ _ sliced (push_many vs h1)); [done|].
  rewrite (getitem_loop self n start stop (items self)).
  2:{ eapply Forall_impl; [apply self_items_facts|]. by intros kv (? & ? & _). }
  destruct views_facts as (Hk & Hs & Ha).
  rewrite (setitem_many _ _ _ (Shape1 len)); try done. by left.
Qed.

Lemma sliced_items : items sliced = fresh_items (length (h_bufs h1)) vs.
Proof using self_wf.
  destruct self_wf as (Hnd & _).
  unfold sliced.
  rewrite (assign_many_items_replace vs _ _ [] (items copied)).
  - done.
  - done.
  - unfold copied. rewrite assign_many_items_append.
    + simpl. rewrite fresh_items_keys. unfold copies, vs, views.
      rewrite as_values_keys. by rewrite <- list_fmap_compose.
    + simpl. unfold copies. by rewrite as_values_keys.
  - simpl. unfold vs, views. by rewrite <- list_fmap_compose.
Qed.

Lemma sliced_keys : keys sliced = keys self.
Proof using self_wf.
  unfold keys. rewrite sliced_items, fresh_items_keys. unfold vs, views.
  by rewrite <- list_fmap_compose.
Qed.

(** Every key of the new container holds a new array with the selected
    numbers. *)
Lemma sliced_lookup k q :
  odict_get k (items self) = Some q →
  ∃ q', odict_get k (items sliced) = Some q'
      ∧ q_content (push_many vs h1) q'
        = (Shape1 len, slice_list start stop (q_value h q), q_unit q)
      ∧ allocated (push_many vs h1) q'
      ∧ (length (h_bufs h) ≤ q_buf q')%nat.
Proof using self_wf self_shape.
  intros Hget. apply odict_get_Some in Hget.
  apply list_elem_of_lookup in Hget as [i Hi].
  pose proof (proj1 (Forall_forall _ _) self_items_facts _
                (list_elem_of_lookup_2 _ _ _ Hi)) as (_ & Hs & Ha & _).
  simpl in Hs, Ha.
  set (v := VQuantity (view_of lo len q)).
  assert (vs !! i = Some (k, v)) as Hvi.
  { unfold vs, views. by rewrite list_lookup_fmap, Hi. }
  assert (pyval_allocated h1 v) as Hva.
  { destruct views_facts as (_ & _ & Hall).
    apply (proj1 (Forall_forall _ _) Hall (k, v)).
    by apply (list_elem_of_lookup_2 _ i). }
  destruct (fresh_content vs h1 i (k, v) Hvi Hva) as [Hal Hval].
  exists (fresh (length (h_bufs h1) + i) v). split_and!.
  - apply odict_get_elem.
    + fold (keys sliced). rewrite sliced_keys. by destruct self_wf.
    + rewrite sliced_items. apply (list_elem_of_lookup_2 _ i).
      by rewrite (fresh_items_lookup vs _ i (k, v)).
  - unfold q_content. cbn [fst snd] in Hval. rewrite Hval.
    unfold v at 1 3. cbn [fresh q_shape q_unit pyval_shape pyval_unit view_of].
    do 2 f_equal. unfold v. cbn [pyval_value].
    rewrite (extends_q_value h h1).
    + by apply view_value.
    + unfold h1, push_many, extends. simpl. by eexists.
    + by apply (view_allocated _ _ n); [| |apply slice_bounds_le].
  - exact Hal.
  - simpl. unfold h1, push_many. simpl. rewrite length_app. lia.
Qed.

End Slice.

Lemma sliced_fields h self n start stop :
  let copies := as_values (items self) in
  let h1 := push_many copies (upd_dicts (fun l => l ++ [None]) h) in
  let copied := assign_many (set_items self []) (length (h_bufs h)) copies in
  let sliced := assign_many (set_shape_size copied None None)
                  (length (h_bufs h1)) (views start stop n (items self)) in
  t0 sliced = t0 self ∧ _cache sliced = _cache self.
Proof.
  intros copies h1 copied sliced. unfold sliced, copied.
  rewrite !assign_many_t0, !assign_many_cache. simpl.
  by rewrite !assign_many_t0, !assign_many_cache.
Qed.

(** Assignment to an element of an array leaves the arrays of the other
    buffers as they are. *)
Lemma Quantity_setitem_frame h q' i x r h' q :
  Quantity_setitem q' i x h = (r, h') →
  q_buf q ≠ q_buf q' →
  q_value h' q = q_value h q.
Proof.
  unfold Quantity_setitem. intros Hset Hne.
  destruct (q_shape q'); [by injection Hset as _ <-|].
  destruct (norm_index _ _); [|by injection Hset as _ <-].
  injection Hset as _ <-. unfold q_value, buffer, write_buf. simpl.
  by rewrite list_lookup_insert_ne.
Qed.

Example ex_samples_init :
  __init__ None ex_kwargs ex_heap = (Return ex_samples, ex_samples_heap).
Proof.
  unfold ex_samples, ex_samples_heap.
  apply (init_run None ex_kwargs ex_heap (Shape1 2)).
  - apply (bool_decide_unpack _). by vm_compute.
  - repeat constructor.
  - repeat (constructor; [split; simpl; lia|]). constructor.
Qed.

Example ex_samples_wf : wf_samples ex_samples_heap ex_samples.
Proof.
  split_and!.
  - apply (bool_decide_unpack _). by vm_compute.
  - apply (bool_decide_unpack _). by vm_compute.
  - cbn. repeat (constructor; [split; simpl; lia|]). constructor.
  - cbn. split; [done|]. repeat constructor.
  - exists 0%nat. split; [done|]. simpl. lia.
Qed.

(** *** Orbits *)

Lemma q_value_bufs h h' q : h_bufs h' = h_bufs h → q_value h' q = q_value h q.
Proof. intros H. unfold q_value, buffer. by rewrite H. Qed.

Lemma sample_at_run self name i h q n j :
  odict_get name (items self) = Some q →
  q_shape q = Shape1 n →
  norm_index n i = Some j →
  sample_at self name i h = (Return (sample_of h q j), h).
Proof.
  intros Hget Hs Hi. unfold sample_at.
  rewrite (bind_run _ _ h q h) by (unfold dict_getitem; by rewrite Hget).
  unfold Quantity_getitem. rewrite Hs, Hi. done.
Qed.

Lemma sample_at_scalar self name i h q :
  odict_get name (items self) = Some q →
  q_shape q = Shape0 →
  sample_at self name i h
  = (Raise (Exn TypeError
       "'Quantity' object with a scalar value does not support indexing"), h).
Proof.
  intros Hget Hs. unfold sample_at.
  rewrite (bind_run _ _ h q h) by (unfold dict_getitem; by rewrite Hget).
  unfold Quantity_getitem. by rewrite Hs.
Qed.

Lemma upd_elements_insert h el v w :
  upd_elements (fun l => <[el := w]> l) (upd_elements (fun l => <[el := v]> l) h)
  = upd_elements (fun l => <[el := w]> l) h.
Proof. unfold upd_elements. simpl. by rewrite list_insert_insert_eq. Qed.

Lemma setattr_elements_run h orbit o el f :
  h_orbits h !! orbit = Some o →
  h_elements h !! elements o = Some el →
  setattr_elements orbit f h
  = (Return (), upd_elements (fun l => <[elements o := f el]> l) h).
Proof.
  intros Ho Hel. unfold setattr_elements.
  rewrite (bind_run _ _ h o h) by by apply read_ref_run.
  by rewrite (bind_run _ _ h el h) by by apply read_ref_run.
Qed.

(** The same, on a heap whose elements object has just been written. *)
Lemma setattr_elements_step h orbit o v f :
  h_orbits h !! orbit = Some o →
  (elements o < length (h_elements h))%nat →
  setattr_elements orbit f (upd_elements (fun l => <[elements o := v]> l) h)
  = (Return (), upd_elements (fun l => <[elements o := f v]> l) h).
Proof.
  intros Ho Hlt.
  rewrite (setattr_elements_run _ orbit o v); [|done|].
  - by rewrite upd_elements_insert.
  - simpl. by apply list_lookup_insert_eq.
Qed.

Lemma unit_mul_empty_r (u : Unit) : unit_mul u ∅ = u.
Proof. unfold unit_mul. apply (right_id ∅ _). Qed.

Lemma unit_pow2_empty : unit_pow2 ∅ = ∅.
Proof. reflexivity. Qed.

Lemma float_sub_dimensionless x a :
  s_unit a = dimensionless_unscaled →
  float_sub x a
  = Return {| s_value := x - s_value a; s_unit := dimensionless_unscaled |}.
Proof. intros H. unfold float_sub. by rewrite decide_True. Qed.

Lemma a_K_of_dimensionless P K e :
  s_unit e = dimensionless_unscaled →
  a_K_of P K e
  = Return {| xs_value :=
                if Rlt_dec (1 - s_value e ^ 2) 0 then Np.NaN
                else Np.Fin (s_value P * s_value K / (2 * PI)
                             * sqrt (1 - s_value e ^ 2));
              xs_unit := unit_mul (s_unit P) (s_unit K) |}.
Proof.
  intros He. unfold a_K_of.
  rewrite float_sub_dimensionless
    by (unfold spow2; cbn [s_unit]; rewrite He; apply unit_pow2_empty).
  unfold mbind, result_bind, Py.bind, smul_x, smul, sdiv_float, np_sqrt, spow2.
  cbn [s_unit s_value xs_unit xs_value]. unfold unit_sqrt, dimensionless_unscaled.
  rewrite fmap_empty, unit_mul_empty_r.
  by destruct (Rlt_dec (1 - s_value e ^ 2) 0).
Qed.

Lemma smul_unit_dimensionless a : smul_unit a dimensionless_unscaled = a.
Proof.
  unfold smul_unit, dimensionless_unscaled. destruct a as [x u].
  cbn [s_unit s_value]. by rewrite unit_mul_empty_r.
Qed.

Section GetOrbit.

Variables (h : heap) (self : JokerSamples) (d : nat).
Hypothesis h_wf : wf_heap h.
Hypothesis self_cache : _cache self = Some d.
Hypothesis d_dict : (d < length (h_dicts h))%nat.

(** Lines 166-169: after them the cache holds a template. *)
Lemma ensure_template_run :
  ∃ tmpl ot h1,
    (entry ← read_dict d;
     match entry with
     | Some _ => mret ()
     | None =>
         o ← KeplerOrbit_new (quantity 1 "yr") (plain 0) (quantity 0 "deg")
               (quantity 0 "deg") (quantity 90 "deg") (quantity 1 "au")
               (t0 self);
         write_dict d (Some o)
     end) h = (Return (), h1)
    ∧ h_bufs h1 = h_bufs h
    ∧ wf_heap h1
    ∧ h_dicts h1 !! d = Some (Some tmpl)
    ∧ h_orbits h1 !! tmpl = Some ot
    ∧ length (h_dicts h1) = length (h_dicts h)
    ∧ (∀ o v, h_orbits h !! o = Some v → h_orbits h1 !! o = Some v)
    ∧ (∀ e v, h_elements h !! e = Some v → h_elements h1 !! e = Some v)
    ∧ (∀ t, h_dicts h !! d = Some (Some t) → tmpl = t)
    ∧ (h_dicts h !! d = Some None →
       h_elements h1 !! elements ot = Some (template_elements (t0 self))).
Proof using h_wf d_dict.
  destruct (lookup_lt_is_Some_2 _ _ d_dict) as [entry Hentry].
  destruct h_wf as [Hwd Hwo].
  rewrite (bind_run _ _ h entry h) by by apply read_ref_run.
  destruct entry as [tmpl|].
  - pose proof (Hwd _ _ Hentry) as Hlt.
    destruct (lookup_lt_is_Some_2 _ _ Hlt) as [ot Hot].
    exists tmpl, ot, h. split_and!; try done; congruence.
  - set (el := length (h_elements h)). set (o := length (h_orbits h)).
    exists o, {| elements := el; _v0 := None |}.
    eexists. split; [reflexivity|]. cbn.
    split_and!; try done.
    + split; cbn.
      * intros d' o' Hd'. rewrite length_app. simpl.
        destruct (decide (d = d')) as [<-|Hne].
        -- rewrite list_lookup_insert_eq in Hd' by done.
           injection Hd' as <-. unfold o. lia.
        -- rewrite list_lookup_insert_ne in Hd' by done.
           pose proof (Hwd _ _ Hd'). lia.
      * intros o' v Ho'. rewrite length_app. simpl.
        apply lookup_app_Some in Ho' as [Ho'|[_ Ho']].
        -- pose proof (Hwo _ _ Ho'). lia.
        -- destruct (o' - length (h_orbits h))%nat; [|done].
           injection Ho' as <-. simpl. unfold el. lia.
    + by apply list_lookup_insert_eq.
    + unfold o. by rewrite lookup_app_r, Nat.sub_diag by lia.
    + by rewrite length_insert.
    + intros o' v Ho'. by apply lookup_app_l_Some.
    + intros e v He. by apply lookup_app_l_Some.
    + congruence.
    + intros _. unfold el. by rewrite lookup_app_r, Nat.sub_diag by lia.
Qed.

Variables (n : nat) (i : Z) (j : nat).
Variables (qP qe qK qomega qM0 qv0 : Quantity).
Hypothesis get_P : odict_get "P" (items self) = Some qP.
Hypothesis get_e : odict_get "e" (items self) = Some qe.
Hypothesis get_K : odict_get "K" (items self) = Some qK.
Hypothesis get_omega : odict_get "omega" (items self) = Some qomega.
Hypothesis get_M0 : odict_get "M0" (items self) = Some qM0.
Hypothesis get_v0 : odict_get "v0" (items self) = Some qv0.
Hypothesis shape_P : q_shape qP = Shape1 n.
Hypothesis shape_e : q_shape qe = Shape1 n.
Hypothesis shape_K : q_shape qK = Shape1 n.
Hypothesis shape_omega : q_shape qomega = Shape1 n.
Hypothesis shape_M0 : q_shape qM0 = Shape1 n.
Hypothesis shape_v0 : q_shape qv0 = Shape1 n.
Hypothesis index_ok : norm_index n i = Some j.
Hypothesis e_dimensionless : q_unit qe = dimensionless_unscaled.

Lemma sample_of_bufs h' q : h_bufs h' = h_bufs h → sample_of h' q j = sample_of h q j.
Proof using Type. intros H. unfold sample_of. by rewrite (q_value_bufs h h'). Qed.

Lemma get_orbit_run :
  ∃ tmpl orbit el elrec h',
    get_orbit self i h = (Return orbit, h')
    ∧ h_bufs h' = h_bufs h
    ∧ wf_heap h'
    ∧ length (h_dicts h') = length (h_dicts h)
    ∧ h_dicts h' !! d = Some (Some tmpl)
    ∧ (∃ ot, h_orbits h' !! tmpl = Some ot ∧ elements ot ≠ el
           ∧ (h_dicts h !! d = Some None →
              h_elements h' !! elements ot
              = Some (template_elements (t0 self))))
    ∧ h_orbits h' !! orbit
      = Some {| elements := el; _v0 := Some (sample_of h qv0 j) |}
    ∧ (length (h_orbits h) ≤ orbit)%nat
    ∧ orbit ≠ tmpl
    ∧ (length (h_elements h) ≤ el)%nat
    ∧ h_elements h' !! el = Some elrec
    ∧ _P elrec = sample_of h qP j
    ∧ _e elrec = sample_of h qe j
    ∧ _a elrec = a_K_at h qP qK qe j
    ∧ _omega elrec = sample_of h qomega j
    ∧ _M0 elrec = sample_of h qM0 j
    ∧ (∀ o v, h_orbits h !! o = Some v → h_orbits h' !! o = Some v)
    ∧ (∀ e v, h_elements h !! e = Some v → h_elements h' !! e = Some v)
    ∧ (∀ t, h_dicts h !! d = Some (Some t) → tmpl = t).
Proof using All.
  destruct ensure_template_run
    as (tmpl & ot & h1 & Hrun & Hb1 & Hwf1 & Hd1 & Hot & Hlen1 & Hmo & Hme
        & Hsame & Hfresh).
  pose proof (proj2 Hwf1 _ _ Hot) as Hel.
  destruct (lookup_lt_is_Some_2 _ _ Hel) as [el0 Hel0].
  set (el := length (h_elements h1)).
  set (orbit := length (h_orbits h1)).
  set (ob := {| elements := el; _v0 := _v0 ot |}).
  set (h2 := upd_orbits (fun l => l ++ [ob])
               (upd_elements (fun l => l ++ [el0]) h1)).
  assert (h_orbits h2 !! orbit = Some ob) as Horb.
  { unfold h2, orbit. simpl. by rewrite lookup_app_r, Nat.sub_diag by lia. }
  assert (h_elements h2 !! elements ob = Some el0) as Helm.
  { unfold h2, ob, el. simpl. by rewrite lookup_app_r, Nat.sub_diag by lia. }
  assert (elements ob < length (h_elements h2))%nat as Hlt
    by (by apply lookup_lt_Some in Helm).
  assert (h_bufs h2 = h_bufs h) as Hb2 by done.
  exists tmpl, orbit, el. do 2 eexists. split.
  { unfold get_orbit. rewrite self_cache.
    rewrite (bind_run _ _ h d h) by done.
    rewrite (bind_run _ _ _ _ _ Hrun).
    rewrite (bind_run _ _ h1 tmpl h1)
      by (rewrite (bind_run _ _ h1 (Some tmpl) h1) by (by apply read_ref_run);
          done).
    rewrite (bind_run _ _ h1 orbit h2)
      by (unfold copy_orbit;
          rewrite (bind_run _ _ h1 ot h1) by (by apply read_ref_run);
          rewrite (bind_run _ _ h1 el0 h1) by (by apply read_ref_run);
          done).
    erewrite bind_run; [|by eapply sample_at_run].
    erewrite bind_run; [|by eapply sample_at_run].
    erewrite bind_run; [|by eapply sample_at_run].
    rewrite !(sample_of_bufs h2) by done.
    erewrite bind_run;
      [|unfold lift; by rewrite a_K_of_dimensionless].
    erewrite bind_run; [|exact (setattr_elements_run h2 orbit ob el0 _ Horb Helm)].
    erewrite bind_run; [|exact (setattr_elements_step h2 orbit ob _ _ Horb Hlt)].
    erewrite bind_run; [|exact (setattr_elements_step h2 orbit ob _ _ Horb Hlt)].
    erewrite bind_run; [|by eapply sample_at_run].
    rewrite (sample_of_bufs (upd_elements _ h2)) by done.
    erewrite bind_run; [|exact (setattr_elements_step h2 orbit ob _ _ Horb Hlt)].
    erewrite bind_run; [|by eapply sample_at_run].
    rewrite (sample_of_bufs (upd_elements _ h2)) by done.
    erewrite bind_run; [|exact (setattr_elements_step h2 orbit ob _ _ Horb Hlt)].
    erewrite bind_run; [|by eapply sample_at_run].
    rewrite (sample_of_bufs (upd_elements _ h2)) by done.
    erewrite bind_run;
      [|unfold setattr_v0; erewrite bind_run; [reflexivity|by apply read_ref_run]].
    reflexivity. }
  unfold h2, ob in *. clear h2 ob.
  assert (length (h_orbits h) ≤ orbit)%nat as Hge.
  { unfold orbit.
    destruct (decide (length (h_orbits h) ≤ length (h_orbits h1))%nat); [done|].
    exfalso. destruct (lookup_lt_is_Some_2 (h_orbits h) (length (h_orbits h1)))
      as [v Hv]; [lia|].
    apply Hmo in Hv. apply lookup_lt_Some in Hv. lia. }
  assert (length (h_elements h) ≤ el)%nat as Hgel.
  { unfold el.
    destruct (decide (length (h_elements h) ≤ length (h_elements h1))%nat);
      [done|].
    exfalso.
    destruct (lookup_lt_is_Some_2 (h_elements h) (length (h_elements h1)))
      as [v Hv]; [lia|].
    apply Hme in Hv. apply lookup_lt_Some in Hv. lia. }
  pose proof (lookup_lt_Some _ _ _ Hot) as Htmpl.
  cbn [elements] in *.
  split_and!; cbn.
  - done.
  - destruct Hwf1 as [Hwd Hwo]. split; cbn.
    + intros d' o' Hd'. rewrite length_insert, length_app. simpl.
      pose proof (Hwd _ _ Hd'). lia.
    + intros o' v Ho'. rewrite length_insert, length_app. simpl.
      destruct (decide (o' = orbit)) as [->|Hne].
      * rewrite list_lookup_insert_eq in Ho'
          by (rewrite length_app; simpl; unfold orbit; lia).
        injection Ho' as <-. simpl. unfold el. lia.
      * rewrite list_lookup_insert_ne in Ho' by done.
        apply lookup_app_Some in Ho' as [Ho'|[_ Ho']].
        -- pose proof (Hwo _ _ Ho'). lia.
        -- destruct (o' - length (h_orbits h1))%nat; [|done].
           injection Ho' as <-. simpl. unfold el. lia.
  - done.
  - done.
  - exists ot. split_and!; [|unfold el; lia|].
    + rewrite list_lookup_insert_ne by (unfold orbit; lia).
      by apply lookup_app_l_Some.
    + intros Hnone. rewrite list_lookup_insert_ne by (unfold el; lia).
      apply lookup_app_l_Some. by apply Hfresh.
  - by rewrite list_lookup_insert_eq
      by (rewrite length_app; simpl; unfold orbit; lia).
  - done.
  - unfold orbit. lia.
  - done.
  - apply list_lookup_insert_eq. rewrite length_app. simpl. unfold el. lia.
  - done.
  - by rewrite smul_unit_dimensionless.
  - done.
  - done.
  - done.
  - intros o v Ho. apply Hmo in Ho.
    pose proof (lookup_lt_Some _ _ _ Ho).
    rewrite list_lookup_insert_ne by (unfold orbit; lia).
    by apply lookup_app_l_Some.
  - intros e v He. apply Hme in He.
    pose proof (lookup_lt_Some _ _ _ He).
    rewrite list_lookup_insert_ne by (unfold el; lia).
    by apply lookup_app_l_Some.
  - done.
Qed.

End GetOrbit.

Lemma orbit_of_sample_frame h hh hh' qP qe qK qomega qM0 qv0 k o :
  (∀ o v, h_orbits hh !! o = Some v → h_orbits hh' !! o = Some v) →
  (∀ e v, h_elements hh !! e = Some v → h_elements hh' !! e = Some v) →
  orbit_of_sample h hh qP qe qK qomega qM0 qv0 k o →
  orbit_of_sample h hh' qP qe qK qomega qM0 qv0 k o.
Proof.
  intros Hmo Hme (el & elrec & Ho & Hel & Hrest).
  exists el, elrec. split; [by apply Hmo|]. split; [by apply Hme|done].
Qed.

Lemma norm_index_nat n k : (k < n)%nat → norm_index n (Z.of_nat k) = Some k.
Proof.
  intros Hk. unfold norm_index. rewrite decide_True by lia.
  by rewrite Nat2Z.id.
Qed.

Section Orbits.

Variables (h : heap) (self : JokerSamples) (d n : nat).
Variables (qP qe qK qomega qM0 qv0 : Quantity).
Hypothesis self_cache : _cache self = Some d.
Hypothesis self_size : _size self = Some n.
Hypothesis self_keys : orbit_keys self n qP qe qK qomega qM0 qv0.

(** What holds of the heap between two calls: the sample buffers are those
    of [h]. *)
Let inv (h' : heap) : Prop :=
  wf_heap h' ∧ h_bufs h' = h_bufs h ∧ (d < length (h_dicts h'))%nat.

(** In the heap [hh], the orbit [o] holds sample [k]. *)
Let holds (hh : heap) (k o : nat) : Prop :=
  orbit_of_sample h hh qP qe qK qomega qM0 qv0 k o.

Lemma get_orbit_at k h' :
  inv h' → (k < n)%nat →
  ∃ tmpl orbit el h'',
    get_orbit self (Z.of_nat k) h' = (Return orbit, h'')
    ∧ inv h''
    ∧ holds h'' k orbit
    ∧ h_orbits h'' !! orbit
      = Some {| elements := el; _v0 := Some (sample_of h qv0 k) |}
    ∧ (length (h_orbits h') ≤ orbit)%nat
    ∧ (length (h_elements h') ≤ el)%nat
    ∧ h_dicts h'' !! d = Some (Some tmpl)
    ∧ orbit ≠ tmpl
    ∧ (∃ ot, h_orbits h'' !! tmpl = Some ot ∧ elements ot ≠ el
           ∧ (h_dicts h' !! d = Some None →
              h_elements h'' !! elements ot
              = Some (template_elements (t0 self))))
    ∧ (∀ o v, h_orbits h' !! o = Some v → h_orbits h'' !! o = Some v)
    ∧ (∀ e v, h_elements h' !! e = Some v → h_elements h'' !! e = Some v)
    ∧ (∀ t, h_dicts h' !! d = Some (Some t) → tmpl = t).
Proof using self_cache self_keys.
  intros (Hwf & Hb & Hd) Hk. destruct self_keys.
  destruct (get_orbit_run h' self d Hwf self_cache Hd n (Z.of_nat k) k
              qP qe qK qomega qM0 qv0) as
    (tmpl & orbit & el & elrec & h'' & Hrun & Hb' & Hwf' & Hlen & Hdict & Ht
     & Ho & Hge & Hne & Hgel & Hel & HP & He & Ha & Hw & HM & Hmono & Hmonoe
     & Hsame);
    try done.
  { by apply norm_index_nat. }
  exists tmpl, orbit, el, h''.
  assert (∀ q, sample_of h' q k = sample_of h q k) as Hs.
  { intros q. unfold sample_of. by rewrite (q_value_bufs h h'). }
  assert (a_K_at h' qP qK qe k = a_K_at h qP qK qe k) as Hs'.
  { unfold a_K_at. by rewrite !(q_value_bufs h h' _ Hb). }
  rewrite !Hs in *. rewrite Hs' in Ha.
  split_and!; try done.
  - split_and!; [done|congruence|lia].
  - exists el, elrec. by split_and!.
Qed.

Lemma orbits_next_running k h' :
  inv h' → (k < n)%nat →
  ∃ orbit h'',
    orbits_next self (Running k n) h'
    = (Return (Some orbit, Running (S k) n), h'')
    ∧ get_orbit self (Z.of_nat k) h' = (Return orbit, h'').
Proof using self_cache self_keys.
  intros Hinv Hk.
  destruct (get_orbit_at k h' Hinv Hk) as (tmpl & orbit & el & h'' & Hrun & _).
  exists orbit, h''. split; [|done]. unfold orbits_next.
  rewrite (bind_run _ _ h' (k, n) h') by done.
  rewrite decide_True by done.
  by rewrite (bind_run _ _ _ _ _ Hrun).
Qed.

Lemma orbits_next_exhausted k h' :
  (n ≤ k)%nat →
  orbits_next self (Running k n) h' = (Return (None, Running k n), h').
Proof using Type.
  intros Hk. unfold orbits_next.
  rewrite (bind_run _ _ h' (k, n) h') by done.
  by rewrite decide_False by lia.
Qed.

Lemma orbits_next_start h' :
  orbits_next self NotStarted h' = orbits_next self (Running 0 n) h'.
Proof using self_size.
  unfold orbits_next.
  rewrite (bind_run _ _ h' (0%nat, n) h'); [done|].
  unfold __len__, n_samples, size. by rewrite self_size.
Qed.

(** Draining the generator from index [k]: [n - k] new orbit objects, the
    [t]-th of which holds sample [k + t] when the generator is exhausted. *)
Lemma drain_running m : ∀ k h' fuel,
  (k + m = n)%nat → (m < fuel)%nat → inv h' →
  ∃ os h'',
    drain self fuel (Running k n) h' = (Return (Some os), h'')
    ∧ length os = m
    ∧ inv h''
    ∧ NoDup os
    ∧ Forall (fun o => (length (h_orbits h') ≤ o)%nat) os
    ∧ (∀ o v, h_orbits h' !! o = Some v → h_orbits h'' !! o = Some v)
    ∧ (∀ e v, h_elements h' !! e = Some v → h_elements h'' !! e = Some v)
    ∧ (∀ t, (t < m)%nat →
         ∃ o, os !! t = Some o ∧ holds h'' (k + t) o).
Proof using self_cache self_keys.
  induction m as [|m IH]; intros k h' fuel Hkm Hfuel Hinv.
  - destruct fuel as [|fuel]; [lia|]. exists [], h'. simpl.
    rewrite (bind_run _ _ _ _ _ (orbits_next_exhausted k h' ltac:(lia))).
    split_and!; try done; [constructor|lia].
  - destruct fuel as [|fuel]; [lia|].
    destruct (get_orbit_at k h' Hinv ltac:(lia))
      as (tmpl & orbit & el & h1 & Hrun & Hinv1 & Hholds & Ho & Hge & _
          & _ & _ & _ & Hmono & Hmonoe & _).
    destruct (orbits_next_running k h' Hinv ltac:(lia))
      as (orbit' & h1' & Hnext & Hrun').
    rewrite Hrun in Hrun'. injection Hrun' as <- <-.
    destruct (IH (S k) h1 fuel ltac:(lia) ltac:(lia) Hinv1)
      as (os & h2 & Hdrain & Hlen & Hinv2 & Hnd & Hall & Hmono2 & Hmonoe2
          & Hvs).
    exists (orbit :: os), h2. simpl.
    rewrite (bind_run _ _ _ _ _ Hnext). simpl.
    rewrite (bind_run _ _ _ _ _ Hdrain).
    pose proof (lookup_lt_Some _ _ _ Ho) as Hlt.
    split_and!; try done.
    + simpl. lia.
    + apply NoDup_cons. split; [|done]. intros Hin.
      pose proof (proj1 (Forall_forall _ _) Hall _ Hin) as Hle.
      simpl in Hle. lia.
    + constructor; [done|]. eapply Forall_impl; [exact Hall|].
      intros o Ho'. simpl in Ho'. lia.
    + intros o v Hov. by apply Hmono2, Hmono.
    + intros e v Hev. by apply Hmonoe2, Hmonoe.
    + intros [|t] Ht.
      * exists orbit. split; [done|]. rewrite Nat.add_0_r.
        by apply (orbit_of_sample_frame h h1 h2).
      * destruct (Hvs t ltac:(lia)) as (o & Hos & Hob).
        exists o. split; [done|].
        by replace (k + S t)%nat with (S k + t)%nat by lia.
Qed.

End Orbits.

(** *** Claims on assignment *)

(** Every outcome of an assignment. *)
Lemma setitem_cases self key val h :
  ((key ∉ _valid_keys)
   ∧ __setitem__ self key val h
     = (Raise (Exn ValueError (invalid_key_msg key)), h))
  ∨ (key ∈ _valid_keys
     ∧ (∃ s n, _shape self = Some s ∧ pyval_shape val = Shape1 n ∧ Shape1 n ≠ s
        ∧ __setitem__ self key val h
          = (Raise (Exn ValueError (shape_mismatch_msg n s)), push val h)))
  ∨ (key ∈ _valid_keys
     ∧ (∃ s, _shape self = Some s ∧ pyval_shape val = Shape0 ∧ s ≠ Shape0
        ∧ __setitem__ self key val h
          = (Raise (Exn TypeError
               "'Quantity' object with a scalar value has no len()"),
             push val h)))
  ∨ (key ∈ _valid_keys
     ∧ (∀ s, _shape self = Some s → pyval_shape val = s)
     ∧ __setitem__ self key val h
       = (Return (assign self key (stored h val)), push val h)).
Proof.
  destruct (decide (key ∈ _valid_keys)) as [Hk|Hk];
    [right|left; split; [done|by apply setitem_invalid_key]].
  destruct (_shape self) as [s|] eqn:Hs; cycle 1.
  { right; right. split; [done|]. split; [by intros ? [=]|].
    apply setitem_ok; [done|]. rewrite Hs. by intros ? [=]. }
  destruct (pyval_shape val) as [|n] eqn:Hv.
  - destruct s as [|m].
    + right; right. split; [done|]. split; [by intros ? [= <-]|].
      apply setitem_ok; [done|]. rewrite Hs, Hv. by intros ? [= <-].
    + right; left. split; [done|]. exists (Shape1 m).
      split_and!; [done|done|done|].
      by apply (setitem_shape_mismatch_0d _ _ _ _ (Shape1 m)).
  - destruct (decide (Shape1 n = s)) as [<-|Hne].
    + right; right. split; [done|]. split; [by intros ? [= <-]|].
      apply setitem_ok; [done|]. rewrite Hs, Hv. by intros ? [= <-].
    + left. split; [done|]. exists s, n. split_and!; try done.
      by apply setitem_shape_mismatch_1d.
Qed.

(** A successful assignment keeps an established shape and size, and
    establishes them when there are none. *)
Lemma setitem_fixes_shape self key val h self' h' :
  __setitem__ self key val h = (Return self', h') →
  key ∈ _valid_keys
  ∧ match _shape self with
    | Some s => pyval_shape val = s ∧ _shape self' = Some s
                ∧ _size self' = _size self
    | None => _shape self' = Some (pyval_shape val)
              ∧ _size self' = Some (shape_size (pyval_shape val))
    end.
Proof.
  intros Hrun.
  destruct (setitem_cases self key val h)
    as [[_ H]|[[_ (s & n & _ & _ & _ & H)]|[[_ (s & _ & _ & _ & H)]|(Hk & Hs & H)]]];
    rewrite H in Hrun; try discriminate.
  injection Hrun as <- <-. split; [done|]. unfold assign.
  destruct (_shape self) as [s|] eqn:E; simpl; rewrite ?E; [|done].
  split; [by apply Hs|done].
Qed.

(** *** Persistence *)

Lemma upd_files_insert h f v w :
  upd_files (fun l => <[f := w]> l) (upd_files (fun l => <[f := v]> l) h)
  = upd_files (fun l => <[f := w]> l) h.
Proof. unfold upd_files. simpl. by rewrite list_insert_insert_eq. Qed.

Lemma upd_files_id h f v :
  h_files h !! f = Some v → upd_files (fun l => <[f := v]> l) h = h.
Proof.
  intros H. unfold upd_files. rewrite list_insert_id by done. by destruct h.
Qed.

Lemma quantity_to_hdf5_run h f file name q :
  (f < length (h_files h))%nat →
  quantity_to_hdf5 f name q (upd_files (fun l => <[f := file]> l) h)
  = (Return (),
     upd_files (fun l => <[f :=
        {| datasets := <[name := q_content h q]> (datasets file);
           attrs := attrs file |}]> l) h).
Proof.
  intros Hf. unfold quantity_to_hdf5.
  set (h' := upd_files (fun l => <[f := file]> l) h).
  rewrite (bind_run get_heap _ h' h' h') by done.
  rewrite (bind_run _ _ h' file h').
  2:{ apply read_ref_run. simpl. by apply list_lookup_insert_eq. }
  unfold write_file, h'. rewrite upd_files_insert.
  by rewrite (q_value_bufs h (upd_files _ h)).
Qed.

Lemma to_hdf5_loop self h f (its : list (string * Quantity)) :
  (f < length (h_files h))%nat →
  Forall (fun kv => odict_get kv.1 (items self) = Some kv.2) its →
  ∀ file,
  foldM (fun _ k => q ← dict_getitem self k; quantity_to_hdf5 f k q)
        () its.*1 (upd_files (fun l => <[f := file]> l) h)
  = (Return (),
     upd_files (fun l => <[f := {| datasets := written h its (datasets file);
                                   attrs := attrs file |}]> l) h).
Proof.
  intros Hf. induction 1 as [|[k q] its Hget _ IH]; intros file.
  { simpl. unfold mret, M_ret. by destruct file. }
  rewrite fmap_cons, foldM_cons. cbn beta iota delta [fst snd].
  rewrite (bind_run _ _ _ q (upd_files (fun l => <[f := file]> l) h))
    by (unfold dict_getitem; simpl in Hget; by rewrite Hget).
  rewrite (quantity_to_hdf5_run h f file k q Hf).
  by rewrite IH.
Qed.

Lemma written_lookup h (d : list (string * Quantity)) : ∀ ds k,
  NoDup d.*1 →
  written h d ds !! k
  = match odict_get k d with
    | Some q => Some (q_content h q)
    | None => ds !! k
    end.
Proof.
  induction d as [|[k0 q0] d IH]; intros ds k Hnd; simpl; [done|].
  apply NoDup_cons in Hnd as [Hk0 Hnd].
  unfold written in *. simpl. rewrite IH by done.
  destruct (decide (k = k0)) as [->|Hne].
  - rewrite (proj2 (odict_get_None k0 d) Hk0). by rewrite lookup_insert_eq.
  - destruct (odict_get k d); [done|]. by rewrite lookup_insert_ne.
Qed.

Lemma to_hdf5_run self h f file :
  wf_samples h self →
  h_files h !! f = Some file →
  (∀ x, t0 self ≠ Some (T0_numeric x)) →
  to_hdf5 self f h
  = (Return (),
     upd_files (fun l => <[f := {| datasets := written h (items self) (datasets file);
                                   attrs := written_attrs (t0 self) (attrs file) |}]> l) h).
Proof.
  intros (Hnd & _) Hf Ht0. unfold to_hdf5.
  pose proof (lookup_lt_Some _ _ _ Hf) as Hlt.
  rewrite <- (upd_files_id h f file Hf) at 1.
  unfold keys. rewrite (bind_run _ _ _ _ _ (to_hdf5_loop self h f (items self) Hlt
    ltac:(apply Forall_forall; intros [k q] Hin; by apply odict_get_elem) file)).
  destruct (t0 self) as [[t|x]|] eqn:Et.
  - erewrite bind_run;
      [|apply read_ref_run; simpl; by apply list_lookup_insert_eq].
    unfold write_file. by rewrite upd_files_insert.
  - by destruct (Ht0 x).
  - done.
Qed.

Lemma to_hdf5_numeric_t0 self h f file x :
  wf_samples h self →
  h_files h !! f = Some file →
  t0 self = Some (T0_numeric x) →
  (to_hdf5 self f h).1
  = Raise (Exn AttributeError "'float' object has no attribute 'tcb'").
Proof.
  intros (Hnd & _) Hf Ht0. unfold to_hdf5.
  pose proof (lookup_lt_Some _ _ _ Hf) as Hlt.
  rewrite <- (upd_files_id h f file Hf) at 1.
  unfold keys. rewrite (bind_run _ _ _ _ _ (to_hdf5_loop self h f (items self) Hlt
    ltac:(apply Forall_forall; intros [k q] Hin; by apply odict_get_elem) file)).
  by rewrite Ht0.
Qed.

Lemma restore_step hh samples f file key s dv u :
  h_files hh !! f = Some file →
  datasets file !! key = Some (s, dv, u) →
  key ∈ _valid_keys →
  length dv = shape_size s →
  (∀ s', _shape samples = Some s' → s = s') →
  (file ← read_file f;
   match datasets file !! key with
   | Some _ => v ← quantity_from_hdf5 f key None; __setitem__ samples key v
   | None => mret samples
   end) hh
  = (Return (assign samples key
               {| q_buf := S (length (h_bufs hh)); q_off := 0; q_shape := s;
                  q_unit := u |}),
     upd_bufs (fun l => l ++ [dv; dv]) hh).
Proof.
  intros Hf Hds Hk Hlen Hshape.
  rewrite (bind_run _ _ hh file hh) by by apply read_ref_run.
  rewrite Hds.
  set (q := {| q_buf := length (h_bufs hh); q_off := 0; q_shape := s; q_unit := u |}).
  set (h1 := upd_bufs (fun l => l ++ [dv]) hh).
  rewrite (bind_run _ _ hh (VQuantity q) h1).
  2:{ unfold quantity_from_hdf5.
      rewrite (bind_run _ _ hh file hh) by by apply read_ref_run.
      rewrite Hds. by destruct s. }
  rewrite setitem_ok; [|done|done].
  assert (q_value h1 q = dv) as Hval.
  { apply q_value_fresh; [|done]. unfold h1. simpl.
    by rewrite lookup_app_r, Nat.sub_diag by lia. }
  unfold stored, push. cbn [pyval_value pyval_shape pyval_unit]. rewrite Hval.
  unfold h1, upd_bufs. simpl.
  rewrite length_app, <- app_assoc. simpl. by rewrite Nat.add_1_r.
Qed.

Lemma restore_loop f file s0 ks : ∀ samples hh,
  h_files hh !! f = Some file →
  NoDup ks →
  Forall (fun k => k ∈ _valid_keys) ks →
  (∀ k s dv u, datasets file !! k = Some (s, dv, u) →
               s = s0 ∧ length dv = shape_size s) →
  (_shape samples = None ∨ _shape samples = Some s0) →
  ∃ c' hh',
    foldM (fun samples key =>
             file ← read_file f;
             match datasets file !! key with
             | Some _ =>
                 v ← quantity_from_hdf5 f key None;
                 __setitem__ samples key v
             | None => mret samples
             end) samples ks hh = (Return c', hh')
    ∧ extends hh hh'
    ∧ t0 c' = t0 samples
    ∧ _cache c' = _cache samples
    ∧ (∀ k c, k ∈ ks → datasets file !! k = Some c →
         ∃ q', odict_get k (items c') = Some q' ∧ q_content hh' q' = c)
    ∧ (∀ k, k ∈ ks → datasets file !! k = None →
         odict_get k (items c') = odict_get k (items samples))
    ∧ (∀ k, k ∉ ks → odict_get k (items c') = odict_get k (items samples)).
Proof.
  induction ks as [|k0 ks IH]; intros samples hh Hf Hnd Hv Hds Hshape.
  { exists samples, hh. split_and!; [done|apply extends_refl|done|done| | |done].
    - intros k c Hk. by apply elem_of_nil in Hk.
    - intros k Hk. by apply elem_of_nil in Hk. }
  apply NoDup_cons in Hnd as [Hk0 Hnd].
  apply Forall_cons in Hv as [Hv0 Hv].
  rewrite foldM_cons.
  destruct (datasets file !! k0) as [[[s dv] u]|] eqn:Hk0ds.
  - destruct (Hds _ _ _ _ Hk0ds) as [-> Hlen].
    rewrite (restore_step hh samples f file k0 s0 dv u Hf Hk0ds Hv0 Hlen
               ltac:(intros s' Hs'; destruct Hshape; congruence)).
    set (q := {| q_buf := S (length (h_bufs hh)); q_off := 0; q_shape := s0;
                 q_unit := u |}).
    set (hh1 := upd_bufs (fun l => l ++ [dv; dv]) hh).
    assert (allocated hh1 q ∧ q_value hh1 q = dv) as [Hqa Hqv].
    { assert (h_bufs hh1 !! S (length (h_bufs hh)) = Some dv) as Hb.
      { unfold hh1. simpl. rewrite lookup_app_r by lia.
        by replace (S (length (h_bufs hh)) - length (h_bufs hh))%nat
          with 1%nat by lia. }
      split; [|by apply q_value_fresh].
      split; [by apply lookup_lt_Some in Hb|].
      unfold buffer, q. cbn [q_buf q_off q_shape]. rewrite Hb. simpl. lia. }
    destruct (IH (assign samples k0 q) hh1) as
      (c' & hh' & Hrun & Hext & Ht0 & Hc & Hin & Hnone & Hout); try done.
    { right. unfold assign. destruct (_shape samples) eqn:E; simpl; [|done].
      rewrite E. destruct Hshape; congruence. }
    exists c', hh'. split_and!; try done.
    + apply (extends_trans _ hh1); [by eexists|done].
    + rewrite Ht0. unfold assign. by destruct (_shape samples).
    + rewrite Hc. unfold assign. by destruct (_shape samples).
    + intros k c Hk Hkc. apply elem_of_cons in Hk as [->|Hk]; [|by apply Hin].
      exists q. rewrite (Hout k0 Hk0). split.
      * unfold assign. simpl. apply odict_get_set_eq.
      * rewrite Hk0ds in Hkc. injection Hkc as <-. unfold q_content.
        by rewrite (extends_q_value hh1 hh' q Hext Hqa), Hqv.
    + intros k Hk Hkn. apply elem_of_cons in Hk as [->|Hk]; [congruence|].
      rewrite (Hnone k Hk Hkn). unfold assign. simpl.
      apply odict_get_set_ne. by intros ->.
    + intros k Hk. apply not_elem_of_cons in Hk as [Hne Hk].
      rewrite (Hout k Hk). unfold assign. simpl.
      by apply odict_get_set_ne.
  - rewrite (bind_run _ _ hh file hh) by by apply read_ref_run.
    rewrite Hk0ds. unfold mret at 1, M_ret at 1.
    destruct (IH samples hh) as
      (c' & hh' & Hrun & Hext & Ht0 & Hc & Hin & Hnone & Hout); try done.
    exists c', hh'. split_and!; try done.
    + intros k c Hk Hkc. apply elem_of_cons in Hk as [->|Hk]; [congruence|].
      by apply Hin.
    + intros k Hk Hkn. apply elem_of_cons in Hk as [->|Hk]; [by apply Hout|].
      by apply Hnone.
    + intros k Hk. apply not_elem_of_cons in Hk as [Hne Hk]. by apply Hout.
Qed.

Lemma valid_keys_NoDup : NoDup _valid_keys.
Proof. apply (bool_decide_unpack _). by vm_compute. Qed.

(** Restoring what has been written to an empty file gives the same
    reference epoch and, key by key, arrays of the same shape, numbers and
    unit. *)
Lemma hdf5_round_trip self h f :
  wf_samples h self →
  h_files h !! f = Some empty_h5file →
  (∀ x, t0 self ≠ Some (T0_numeric x)) →
  ∃ h1 c' h2,
    to_hdf5 self f h = (Return (), h1)
    ∧ from_hdf5 f None [] h1 = (Return c', h2)
    ∧ t0 c' = t0 self
    ∧ ∀ k, q_content h2 <$> odict_get k (items c')
           = q_content h <$> odict_get k (items self).
Proof.
  intros Hwf Hf Ht0.
  set (file1 := {| datasets := written h (items self) ∅;
                   attrs := written_attrs (t0 self) ∅ |}).
  set (h1 := upd_files (fun l => <[f := file1]> l) h).
  assert (h_files h1 !! f = Some file1) as Hf1.
  { unfold h1. simpl. apply list_lookup_insert_eq. by apply lookup_lt_Some in Hf. }
  pose proof Hwf as (Hnd & Hvalid & Halloc & Hshape & Hcache).
  assert (∀ k, datasets file1 !! k = q_content h <$> odict_get k (items self)) as Hds.
  { intros k. unfold file1. simpl. rewrite written_lookup by done.
    destruct (odict_get k (items self)); [done|]. by rewrite lookup_empty. }
  set (s0 := default Shape0 (_shape self)).
  assert (∀ k s dv u, datasets file1 !! k = Some (s, dv, u) →
                      s = s0 ∧ length dv = shape_size s) as Hdsok.
  { intros k s dv u Hk. rewrite Hds in Hk.
    destruct (odict_get k (items self)) as [q|] eqn:Hq; [|done].
    injection Hk as <- <- <-. apply odict_get_Some in Hq.
    pose proof (proj1 (Forall_forall _ _) Halloc _ Hq) as Ha. simpl in Ha.
    split; [|by apply length_q_value].
    unfold s0. destruct (_shape self) as [s|].
    - destruct Hshape as [_ Hs].
      by apply (proj1 (Forall_forall _ _) Hs (k, q)).
    - destruct Hshape as [_ Hnil]. rewrite Hnil in Hq.
      by apply elem_of_nil in Hq. }
  set (t0' := match attrs file1 !! "t0_bmjd" with
              | Some x => Some (T0_Time (Time_mjd_tcb x))
              | None => None
              end).
  assert (t0' = t0 self) as Ht0'.
  { unfold t0', file1. simpl. destruct (t0 self) as [[[x]|x]|]; simpl.
    - by rewrite lookup_insert_eq.
    - by destruct (Ht0 x).
    - by rewrite lookup_empty. }
  set (hh := upd_dicts (fun l => l ++ [None]) h1).
  destruct (restore_loop f file1 s0 _valid_keys
              (set_cache (blank t0') (Some (length (h_dicts h1)))) hh)
    as (c' & h2 & Hrun & Hext & Hct0 & _ & Hin & Hnone & Hout); try done.
  { apply valid_keys_NoDup. }
  { by apply Forall_forall. }
  { by left. }
  exists h1, c', h2. split_and!.
  - by rewrite (to_hdf5_run self h f empty_h5file).
  - unfold from_hdf5.
    rewrite (bind_run _ _ h1 file1 h1) by by apply read_ref_run.
    fold t0'. by rewrite (bind_run _ _ h1 _ hh) by done.
  - by rewrite Hct0.
  - intros k. rewrite <- Hds.
    destruct (decide (k ∈ _valid_keys)) as [Hk|Hk].
    + destruct (datasets file1 !! k) as [c|] eqn:Hc.
      * destruct (Hin k c Hk Hc) as (q' & -> & <-). done.
      * by rewrite (Hnone k Hk Hc).
    + rewrite (Hout k Hk). simpl. rewrite Hds.
      destruct (odict_get k (items self)) as [q|] eqn:Hq; [|done].
      exfalso. apply Hk. apply odict_get_Some in Hq.
      apply (proj1 (Forall_forall _ _) Hvalid k).
      apply list_elem_of_fmap. by exists (k, q).
Qed.

(** *** Reductions *)

Lemma apply_loop self f h (its : list (string * Quantity)) : ∀ kw0,
  Forall (fun kv => odict_get kv.1 (items self) = Some kv.2) its →
  NoDup (kw0.*1 ++ its.*1) →
  foldM (fun kw k =>
           q ← dict_getitem self k;
           v ← np_reduce f q;
           mret (odict_set k v kw)) kw0 its.*1 h
  = (Return (kw0 ++ reduced f h its), h).
Proof.
  induction its as [|[k q] its IH]; intros kw0 Hget Hnd.
  { simpl. unfold mret, M_ret. by rewrite app_nil_r. }
  apply Forall_cons in Hget as [Hk Hget]. simpl in Hk.
  rewrite fmap_cons, foldM_cons. cbn beta iota delta [fst snd].
  rewrite (bind_run _ _ h q h) by (unfold dict_getitem; by rewrite Hk).
  rewrite (bind_run (np_reduce f q) _ h
             (VScalar {| s_value := f (q_value h q); s_unit := q_unit q |}) h)
    by done.
  unfold mret at 1, M_ret at 1.
  assert (k ∉ kw0.*1) as Hnot.
  { simpl in Hnd. apply NoDup_app in Hnd as (_ & Hdisj & _).
    intros Hin. apply (Hdisj _ Hin). apply elem_of_cons. by left. }
  rewrite odict_set_notin by done. rewrite IH.
  - unfold reduced. simpl. by rewrite <- app_assoc.
  - done.
  - rewrite fmap_app. simpl. rewrite <- app_assoc. simpl.
    simpl in Hnd. done.
Qed.

Lemma apply_run self f h :
  wf_samples h self →
  _apply self (np_reduce f) h
  = (Return (set_cache (assign_many (blank None) (length (h_bufs h))
                          (reduced f h (items self)))
               (Some (length (h_dicts h)))),
     upd_dicts (fun l => l ++ [None]) (push_many (reduced f h (items self)) h)).
Proof.
  intros (Hnd & Hvalid & _). unfold _apply, keys.
  rewrite (bind_run _ _ _ _ _ (apply_loop self f h (items self) []
    ltac:(apply Forall_forall; intros [k q] Hin; by apply odict_get_elem)
    ltac:(done))).
  simpl. apply (init_run None _ h Shape0).
  - unfold reduced. rewrite Forall_fmap.
    apply Forall_forall. intros [k q] Hin. simpl.
    apply (proj1 (Forall_forall _ _) Hvalid k).
    apply list_elem_of_fmap. by exists (k, q).
  - unfold reduced. rewrite Forall_fmap. by apply Forall_forall.
  - unfold reduced. rewrite Forall_fmap. by apply Forall_forall.
Qed.

(** Every key of the reduced container holds the reduction of the array of
    that key, as a zero-dimensional array of the same unit. *)
Lemma apply_lookup self f h k q :
  wf_samples h self →
  odict_get k (items self) = Some q →
  ∃ c' h' q',
    _apply self (np_reduce f) h = (Return c', h')
    ∧ odict_get k (items c') = Some q'
    ∧ q_content h' q' = (Shape0, [f (q_value h q)], q_unit q).
Proof.
  intros Hwf Hget. rewrite (apply_run self f h Hwf). do 2 eexists.
  destruct Hwf as (Hnd & _).
  apply odict_get_Some in Hget. apply list_elem_of_lookup in Hget as [i Hi].
  set (v := VScalar {| s_value := f (q_value h q); s_unit := q_unit q |}).
  assert (reduced f h (items self) !! i = Some (k, v)) as Hvi.
  { unfold reduced. by rewrite list_lookup_fmap, Hi. }
  destruct (fresh_content (reduced f h (items self)) h i (k, v) Hvi I)
    as [Hal Hval].
  exists (fresh (length (h_bufs h) + i) v). split; [done|].
  assert ((reduced f h (items self)).*1 = keys self) as Hkeys.
  { unfold reduced, keys. by rewrite <- list_fmap_compose. }
  split.
  - cbn [items set_cache]. rewrite assign_many_items_append
      by (simpl; by rewrite Hkeys).
    simpl. apply odict_get_elem.
    + by rewrite fresh_items_keys, Hkeys.
    + apply (list_elem_of_lookup_2 _ i).
      by rewrite (fresh_items_lookup _ _ i (k, v)).
  - unfold q_content. cbn [fst snd] in Hval.
    rewrite (q_value_bufs (push_many (reduced f h (items self)) h)) by done.
    by rewrite Hval.
Qed.

(** *** Claims on orbits *)

Lemma drain_start self n fuel h :
  _size self = Some n →
  drain self fuel NotStarted h = drain self fuel (Running 0 n) h.
Proof.
  intros Hsize. destruct fuel as [|fuel]; [done|]. simpl.
  unfold mbind at 1 3, M_bind at 1 3.
  by rewrite (orbits_next_start self n Hsize).
Qed.

Lemma ex_samples_heap_wf : wf_heap ex_samples_heap.
Proof.
  split.
  - intros d o Hd. destruct d as [|[|d]]; simpl in Hd; discriminate.
  - intros o v Ho. by destruct o.
Qed.

Lemma ex_samples_keys :
  ∃ qP qe qK qomega qM0 qv0,
    orbit_keys ex_samples 2 qP qe qK qomega qM0 qv0
    ∧ q_value ex_samples_heap qP = [1; 2]
    ∧ q_value ex_samples_heap qK = [3; 4]
    ∧ q_value ex_samples_heap qe = [0; 0].
Proof. do 6 eexists. split; [by split|]. by split_and!. Qed.

(** C8, as stated, fails: a container of scalar quantities has size 1 and
    the six keys, and [get_orbit(0)] raises, because a scalar quantity
    cannot be indexed. *)
Lemma get_orbit_scalar_samples_raises :
  __init__ None ex_scalar_kwargs empty_heap
    = (Return ex_scalar_samples, ex_scalar_heap)
  ∧ (size ex_scalar_samples ex_scalar_heap).1 = Return 1%nat
  ∧ keys ex_scalar_samples = ["P"; "e"; "K"; "omega"; "M0"; "v0"]
  ∧ (get_orbit ex_scalar_samples 0 ex_scalar_heap).1
    = Raise (Exn TypeError
        "'Quantity' object with a scalar value does not support indexing").
Proof.
  by split_and!.
Qed.

(** C8 (amended): for a container of one-dimensional arrays of [n] samples
    with the keys P, e, K, omega, M0, v0 and dimensionless eccentricities,
    and floats idealised as reals, [get_orbit(k)] for [k < n] returns an
    orbit that holds sample [k]: its elements have [P[k]], [e[k]],
    [omega[k]], [M0[k]] and the semi-major axis
    [P[k] * K[k] / (2 pi) * sqrt(1 - e[k]^2)], which is nan when
    [1 - e[k]^2] is negative, and its [_v0] is [v0[k]]; and the generator
    [orbits] yields exactly [n] distinct orbit objects, the [k]-th of which
    holds sample [k] once the generator is exhausted. *)
Theorem get_orbit_semi_major_axis h self d n qP qe qK qomega qM0 qv0 :
  wf_heap h →
  _cache self = Some d →
  (d < length (h_dicts h))%nat →
  _size self = Some n →
  orbit_keys self n qP qe qK qomega qM0 qv0 →
  (∀ k, (k < n)%nat →
     ∃ orbit ob elrec h',
       get_orbit self (Z.of_nat k) h = (Return orbit, h')
       ∧ h_orbits h' !! orbit = Some ob
       ∧ h_elements h' !! elements ob = Some elrec
       ∧ _a elrec = a_K_at h qP qK qe k
       ∧ orbit_of_sample h h' qP qe qK qomega qM0 qv0 k orbit)
  ∧ (∀ fuel, (n < fuel)%nat →
       ∃ os h',
         drain self fuel NotStarted h = (Return (Some os), h')
         ∧ length os = n
         ∧ NoDup os
         ∧ ∀ k, (k < n)%nat →
             ∃ o, os !! k = Some o
                  ∧ orbit_of_sample h h' qP qe qK qomega qM0 qv0 k o).
Proof.
  intros Hwf Hc Hd Hsize Hkeys. split.
  - intros k Hk.
    destruct (get_orbit_at h self d n qP qe qK qomega qM0 qv0 Hc Hkeys k h)
      as (tmpl & orbit & el & h' & Hrun & _ & Hholds & Ho & _);
      [done|done|].
    pose proof Hholds as (el' & elrec & Ho' & Hel & HP & He & Ha & Hrest).
    rewrite Ho in Ho'. injection Ho' as <-.
    exists orbit. eexists. exists elrec, h'. by split_and!.
  - intros fuel Hfuel.
    destruct (drain_running h self d n qP qe qK qomega qM0 qv0 Hc Hkeys n 0 h fuel)
      as (os & h' & Hrun & Hlen & _ & Hnd & _ & _ & _ & Hv); [done|done|done|].
    exists os, h'. split_and!; try done.
    by rewrite (drain_start self n fuel h Hsize).
Qed.

Lemma get_orbit_semi_major_axis_witness :
  ∃ orbit ob elrec h',
    get_orbit ex_samples 1 ex_samples_heap = (Return orbit, h')
    ∧ h_orbits h' !! orbit = Some ob
    ∧ h_elements h' !! elements ob = Some elrec
    ∧ xs_value (_a elrec) = Np.Fin (2 * 4 / (2 * PI) * sqrt (1 - 0 ^ 2)).
Proof.
  destruct ex_samples_keys as (qP & qe & qK & qomega & qM0 & qv0 & Hkeys & HP & HK & He).
  destruct (get_orbit_semi_major_axis ex_samples_heap ex_samples 0 2
              qP qe qK qomega qM0 qv0) as [H _].
  - exact ex_samples_heap_wf.
  - reflexivity.
  - simpl. lia.
  - reflexivity.
  - exact Hkeys.
  - destruct (H 1%nat ltac:(lia))
      as (orbit & ob & elrec & h' & Hrun & Ho & Hel & Ha & _).
    exists orbit, ob, elrec, h'. split_and!; try done.
    rewrite Ha. unfold a_K_at. cbn [xs_value]. rewrite HP, HK, He.
    cbn [nth]. destruct (Rlt_dec (1 - 0 ^ 2) 0) as [Hneg|_]; [lra|done].
Defined.

(** C9: with [copy.copy] of the template giving an orbit with elements of
    its own, the orbits returned by two calls of [get_orbit] and the cached
    template are three orbit objects with three elements objects.  The
    second call leaves the first orbit and the template as they were, so
    that the first orbit still holds its sample, and a template made by the
    first call still has the elements it was made with; and overwriting the
    elements of the second orbit, by any update [f], changes neither the
    elements of the first orbit nor those of the template. *)
Theorem get_orbit_independent_copies h self d n qP qe qK qomega qM0 qv0 k1 k2 :
  wf_heap h →
  _cache self = Some d →
  (d < length (h_dicts h))%nat →
  orbit_keys self n qP qe qK qomega qM0 qv0 →
  (k1 < n)%nat → (k2 < n)%nat →
  ∃ o1 h1 o2 h2 tmpl ot ob1 ob2,
    get_orbit self (Z.of_nat k1) h = (Return o1, h1)
    ∧ get_orbit self (Z.of_nat k2) h1 = (Return o2, h2)
    ∧ h_dicts h1 !! d = Some (Some tmpl)
    ∧ h_dicts h2 !! d = Some (Some tmpl)
    ∧ h_orbits h1 !! tmpl = Some ot
    ∧ h_orbits h1 !! o1 = Some ob1
    ∧ h_orbits h2 !! o2 = Some ob2
    ∧ o1 ≠ o2 ∧ o1 ≠ tmpl ∧ o2 ≠ tmpl
    ∧ elements ob1 ≠ elements ob2
    ∧ elements ot ≠ elements ob1
    ∧ elements ot ≠ elements ob2
    ∧ h_orbits h2 !! o1 = Some ob1
    ∧ h_orbits h2 !! tmpl = Some ot
    ∧ h_elements h2 !! elements ob1 = h_elements h1 !! elements ob1
    ∧ h_elements h2 !! elements ot = h_elements h1 !! elements ot
    ∧ orbit_of_sample h h2 qP qe qK qomega qM0 qv0 k1 o1
    ∧ orbit_of_sample h h2 qP qe qK qomega qM0 qv0 k2 o2
    ∧ (h_dicts h !! d = Some None →
       h_elements h2 !! elements ot = Some (template_elements (t0 self)))
    ∧ ∀ f, ∃ h3,
        setattr_elements o2 f h2 = (Return (), h3)
        ∧ h_orbits h3 = h_orbits h2
        ∧ h_elements h3 !! elements ob1 = h_elements h2 !! elements ob1
        ∧ h_elements h3 !! elements ot = h_elements h2 !! elements ot
        ∧ orbit_of_sample h h3 qP qe qK qomega qM0 qv0 k1 o1.
Proof.
  intros Hwf Hc Hd Hkeys Hk1 Hk2.
  destruct (get_orbit_at h self d n qP qe qK qomega qM0 qv0 Hc Hkeys k1 h)
    as (tmpl & o1 & el1 & h1 & Hrun1 & Hinv1 & Hholds1 & Ho1 & Hge1 & Hgel1
        & Hd1 & Hne1 & (ot & Hot1 & Hnel1 & Hfresh1) & Hmono1 & Hmonoe1 & _);
    [done|done|].
  destruct (get_orbit_at h self d n qP qe qK qomega qM0 qv0 Hc Hkeys k2 h1)
    as (tmpl2 & o2 & el2 & h2 & Hrun2 & Hinv2 & Hholds2 & Ho2 & Hge2 & Hgel2
        & Hd2 & Hne2 & (ot2 & Hot2 & Hnel2 & _) & Hmono2 & Hmonoe2 & Hsame2);
    [done|done|].
  pose proof (Hsame2 _ Hd1) as ->.
  pose proof (Hmono2 _ _ Hot1) as Hot1'. rewrite Hot2 in Hot1'.
  injection Hot1' as ->.
  pose proof Hholds1 as (el1' & elrec1 & Ho1' & Hel1 & Hvals1).
  rewrite Ho1 in Ho1'. injection Ho1' as <-.
  pose proof Hholds2 as (el2' & elrec2 & Ho2' & Hel2 & Hvals2).
  rewrite Ho2 in Ho2'. injection Ho2' as <-.
  pose proof (lookup_lt_Some _ _ _ Hel1) as Hlt1.
  pose proof (lookup_lt_Some _ _ _ Ho1) as Hlto1.
  destruct (lookup_lt_is_Some_2 _ _ (proj2 (proj1 Hinv1) _ _ Hot1))
    as [elt Helt].
  assert (orbit_of_sample h h2 qP qe qK qomega qM0 qv0 k1 o1) as Hholds12
    by (by apply (orbit_of_sample_frame h h1 h2)).
  exists o1, h1, o2, h2, tmpl, ot.
  exists {| elements := el1; _v0 := Some (sample_of h qv0 k1) |},
         {| elements := el2; _v0 := Some (sample_of h qv0 k2) |}.
  cbn [elements].
  split_and!; try done.
  - lia.
  - lia.
  - by apply Hmono2.
  - by rewrite Hel1, (Hmonoe2 _ _ Hel1).
  - by rewrite Helt, (Hmonoe2 _ _ Helt).
  - intros Hnone. by apply Hmonoe2, Hfresh1.
  - intros f. eexists. split.
    { exact (setattr_elements_run h2 o2 _ elrec2 f Ho2 Hel2). }
    cbn [elements].
    assert (∀ e, e ≠ el2 →
              h_elements (upd_elements (fun l => <[el2 := f elrec2]> l) h2) !! e
              = h_elements h2 !! e) as Hother.
    { intros e He. cbn. by rewrite list_lookup_insert_ne. }
    split_and!.
    + done.
    + apply Hother. lia.
    + by apply Hother.
    + destruct Hholds12 as (el & elrec & Ho & Hel & Hvals).
      pose proof (Hmono2 _ _ Ho1) as Ho'. rewrite Ho in Ho'.
      injection Ho' as ->.
      exists el1, elrec. split; [done|]. split; [|done].
      rewrite Hother by lia. done.
Qed.

Lemma get_orbit_independent_copies_witness :
  ∃ o1 h1 o2 h2 ob1 elrec,
    get_orbit ex_samples 0 ex_samples_heap = (Return o1, h1)
    ∧ get_orbit ex_samples 1 h1 = (Return o2, h2)
    ∧ o1 ≠ o2
    ∧ h_orbits h2 !! o1 = Some ob1
    ∧ h_elements h2 !! elements ob1 = Some elrec
    ∧ s_value (_P elrec) = 1.
Proof.
  destruct ex_samples_keys as (qP & qe & qK & qomega & qM0 & qv0 & Hkeys & HP & HK & He).
  destruct (get_orbit_independent_copies ex_samples_heap ex_samples 0 2
              qP qe qK qomega qM0 qv0 0 1)
    as (o1 & h1 & o2 & h2 & tmpl & ot & ob1 & ob2 & Hr1 & Hr2 & _ & _ & _ & _
        & _ & Hne & _ & _ & _ & _ & _ & Ho1 & _ & _ & _ & Hholds & _).
  - exact ex_samples_heap_wf.
  - reflexivity.
  - simpl. lia.
  - exact Hkeys.
  - lia.
  - lia.
  - destruct Hholds as (el & elrec & Ho & Hel & HPe & _).
    rewrite Ho1 in Ho. injection Ho as ->.
    exists o1, h1, o2, h2. eexists. exists elrec. split_and!; try done.
    rewrite HPe. unfold sample_of. simpl. by rewrite HP.
Defined.

(** *** Claims on assignment, slicing, persistence and reductions *)

(** C4: with a shape established ([(2,)] here) and a valid key, assigning a
    scalar does not raise the [ValueError] of a shape mismatch: the message
    is formatted with [len(val)], and a scalar quantity has no [len()]. *)
Theorem setitem_scalar_value_raises_TypeError :
  _shape ex_samples = Some (Shape1 2)
  ∧ "jitter" ∈ _valid_keys
  ∧ pyval_shape (VScalar (plain 0.5)) ≠ Shape1 2
  ∧ (__setitem__ ex_samples "jitter" (VScalar (plain 0.5)) ex_samples_heap).1
    = Raise (Exn TypeError "'Quantity' object with a scalar value has no len()").
Proof.
  split_and!; try done.
  apply (bool_decide_unpack _). by vm_compute.
Qed.

(** C5, as stated, fails on the cache: the container returned for a slice
    has the [_cache] dict of its parent, so that the template orbit made
    through the slice is the one the parent then finds in its cache. *)
Lemma getitem_slice_shares_cache :
  _cache ex_samples = Some 0%nat ∧
  match __getitem__ ex_samples (KIndex (ISlice (Some 0%Z) (Some 1%Z)))
          ex_samples_heap with
  | (Return (GSamples new), h') =>
      _cache new = Some 0%nat
      ∧ h_dicts h' !! 0%nat = Some None
      ∧ match get_orbit new 0 h' with
        | (Return orbit, h'') =>
            ∃ template, h_dicts h'' !! 0%nat = Some (Some template)
        | (Raise _, _) => False
        end
  | _ => False
  end.
Proof. split; [done|]. vm_compute. split_and!; eauto. Qed.

(** C5 (amended): for a container of one-dimensional arrays and a slice
    [start:stop], indexing returns a new container with the keys of the
    original in their order, the same reference epoch and the same cache
    dict; every key holds a new array with the selected numbers, and
    assigning to an element of an array of the new container leaves the
    arrays of the original as they were. *)
Theorem getitem_slice_copies_arrays h self n start stop :
  wf_samples h self →
  _shape self = Some (Shape1 n) →
  ∃ new h',
    __getitem__ self (KIndex (ISlice start stop)) h = (Return (GSamples new), h')
    ∧ keys new = keys self
    ∧ t0 new = t0 self
    ∧ _cache new = _cache self
    ∧ (∀ k q, odict_get k (items self) = Some q →
         ∃ q', odict_get k (items new) = Some q'
             ∧ q_content h' q'
               = (Shape1 (slice_bounds n start stop).2,
                  slice_list start stop (q_value h q), q_unit q))
    ∧ (∀ k' q' i x r h'',
         odict_get k' (items new) = Some q' →
         Quantity_setitem q' i x h' = (r, h'') →
         ∀ k q, odict_get k (items self) = Some q → q_value h'' q = q_value h q).
Proof.
  intros Hwf Hshape.
  pose proof (getitem_slice_run h self n start stop Hwf Hshape) as Hrun.
  pose proof (sliced_keys h self n start stop Hwf) as Hkeys.
  pose proof (sliced_fields h self n start stop) as [Ht0 Hcache].
  pose proof (sliced_lookup h self n start stop Hwf Hshape) as Hlook.
  cbv zeta in *. do 2 eexists. split; [exact Hrun|].
  split_and!; try done.
  - intros k q Hq. destruct (Hlook k q Hq) as (q' & Hq' & Hc & _). eauto.
  - intros k' q' i x r h'' Hq' Hset k q Hq.
    destruct (odict_get k' (items self)) as [q0|] eqn:Hq0.
    2:{ apply odict_get_None in Hq0. apply odict_get_Some in Hq'.
        exfalso. apply Hq0. unfold keys in Hkeys. rewrite <- Hkeys.
        apply list_elem_of_fmap. by exists (k', q'). }
    destruct (Hlook k' q0 Hq0) as (q'' & Hq'' & _ & _ & Hge).
    rewrite Hq' in Hq''. injection Hq'' as <-.
    destruct Hwf as (_ & _ & Ha & _).
    apply odict_get_Some in Hq.
    pose proof (proj1 (Forall_forall _ _) Ha _ Hq) as Hqa. simpl in Hqa.
    rewrite (Quantity_setitem_frame _ _ _ _ _ _ q Hset)
      by (destruct Hqa; lia).
    apply extends_q_value; [|done].
    eapply extends_trans; [|apply extends_push_many]. by eexists.
Qed.

Lemma getitem_slice_copies_arrays_witness :
  ∃ new h',
    __getitem__ ex_samples (KIndex (ISlice (Some 1%Z) None)) ex_samples_heap
      = (Return (GSamples new), h')
    ∧ keys new = keys ex_samples
    ∧ ∃ q', odict_get "P" (items new) = Some q'
          ∧ q_content h' q' = (Shape1 1, [2], base_unit "d").
Proof.
  assert (_shape ex_samples = Some (Shape1 2)) as Hshape by reflexivity.
  set (qP := {| q_buf := 6; q_off := 0; q_shape := Shape1 2;
                q_unit := base_unit "d" |}).
  assert (odict_get "P" (items ex_samples) = Some qP) as HP by reflexivity.
  assert (slice_list (Some 1%Z) None (q_value ex_samples_heap qP) = [2])
    as Hsl by reflexivity.
  destruct (getitem_slice_copies_arrays ex_samples_heap ex_samples 2
              (Some 1%Z) None ex_samples_wf Hshape)
    as (new & h' & Hrun & Hkeys & _ & _ & Hlook & _).
  exists new, h'. split; [exact Hrun|]. split; [exact Hkeys|].
  destruct (Hlook "P" qP HP) as (q' & Hq' & Hc).
  exists q'. split; [exact Hq'|]. rewrite Hc, Hsl. reflexivity.
Defined.

(** C6: for a container whose reference epoch is a number, [to_hdf5] raises
    after the datasets are written, and there is nothing to restore. *)
Theorem to_hdf5_numeric_t0_raises :
  __init__ (Some (T0_numeric 56000)) ex_kwargs ex_heap
    = (Return ex_numeric_samples, ex_samples_heap)
  ∧ (to_hdf5 ex_numeric_samples 0 ex_file_heap).1
    = Raise (Exn AttributeError "'float' object has no attribute 'tcb'").
Proof. by split. Qed.

(** The mean and the middle value differ. *)
Example mean_is_not_median :
  np_mean_list [1; 2; 6] = 3 ∧ np_median_list [1; 2; 6] = 2.
Proof.
  split.
  - unfold np_mean_list. simpl. field.
  - reflexivity.
Qed.

(** C7: [median()] is [mean()]: the same call of [_apply] with [np.mean];
    on a constructed container every key of the result holds the mean of
    the array of that key. *)
Theorem median_is_mean self h :
  median self h = mean self h
  ∧ (wf_samples h self →
     ∀ k q, odict_get k (items self) = Some q →
       ∃ c' h' q',
         median self h = (Return c', h')
         ∧ odict_get k (items c') = Some q'
         ∧ q_content h' q' = (Shape0, [np_mean_list (q_value h q)], q_unit q)).
Proof.
  split; [reflexivity|]. intros Hwf k q Hq.
  apply (apply_lookup self np_mean_list h k q Hwf Hq).
Qed.

Lemma median_is_mean_witness :
  ∃ c' h' q',
    median ex_samples ex_samples_heap = (Return c', h')
    ∧ odict_get "K" (items c') = Some q'
    ∧ q_content h' q' = (Shape0, [np_mean_list [3; 4]], base_unit "km/s").
Proof.
  set (qK := {| q_buf := 8; q_off := 0; q_shape := Shape1 2;
                q_unit := base_unit "km/s" |}).
  assert (odict_get "K" (items ex_samples) = Some qK) as HK by reflexivity.
  assert (q_value ex_samples_heap qK = [3; 4]) as Hv by reflexivity.
  destruct (proj2 (median_is_mean ex_samples ex_samples_heap) ex_samples_wf
              "K" qK HK) as (c' & h' & q' & Hrun & Hq' & Hc).
  exists c', h', q'. split; [exact Hrun|]. split; [exact Hq'|].
  rewrite Hc, Hv. reflexivity.
Defined.

End SamplesFacts.

(** ** More on the container of samples *)

Module ContainerFacts.
Import Samples SamplesExamples SamplesFacts.

(** *** Heaps with the same buffers *)

Lemma allocated_bufs h h' q :
  h_bufs h' = h_bufs h → allocated h q → allocated h' q.
Proof. intros H Ha. unfold allocated, buffer in *. by rewrite H. Qed.

Lemma q_content_bufs h h' q :
  h_bufs h' = h_bufs h → q_content h' q = q_content h q.
Proof. intros H. unfold q_content. by rewrite (q_value_bufs h h'). Qed.

Lemma extends_q_content h h' q :
  extends h h' → allocated h q → q_content h' q = q_content h q.
Proof. intros He Ha. unfold q_content. by rewrite (extends_q_value h h'). Qed.

(** *** The ordered dictionary, continued *)

Lemma odict_set_keys {V} k (v : V) d :
  (odict_set k v d).*1 = if decide (k ∈ d.*1) then d.*1 else d.*1 ++ [k].
Proof.
  induction d as [|[k' v'] d IH]; [done|]. cbn [odict_set].
  destruct (decide (k = k')) as [->|Hne]; rewrite !fmap_cons; cbn [fst].
  - rewrite decide_True by (apply elem_of_cons; by left). done.
  - rewrite IH. destruct (decide (k ∈ d.*1)) as [Hin|Hnin].
    + rewrite decide_True by (apply elem_of_cons; by right). done.
    + rewrite decide_False; [done|].
      intros [?|?]%elem_of_cons; done.
Qed.

Lemma odict_set_NoDup {V} k (v : V) d :
  NoDup d.*1 → NoDup (odict_set k v d).*1.
Proof.
  intros Hnd. rewrite odict_set_keys. destruct (decide (k ∈ d.*1)); [done|].
  apply NoDup_app. split_and!; [done| |apply NoDup_singleton].
  intros x Hx ->%list_elem_of_singleton. done.
Qed.

Lemma odict_set_Forall {V} (P : string * V → Prop) k v d :
  Forall P d → P (k, v) → Forall P (odict_set k v d).
Proof.
  intros Hd Hkv. induction Hd as [|[k' v'] d Hk' Hd IH]; simpl.
  - by constructor.
  - destruct (decide (k = k')); by constructor.
Qed.

(** *** The array that an assignment stores *)

Lemma stored_content val h :
  pyval_allocated h val →
  allocated (push val h) (stored h val)
  ∧ q_content (push val h) (stored h val)
    = (pyval_shape val, pyval_value h val, pyval_unit val).
Proof.
  intros Ha. pose proof (length_pyval_value h val Ha) as Hl.
  assert (h_bufs (push val h) !! length (h_bufs h) = Some (pyval_value h val))
    as Hb.
  { unfold push. simpl. by rewrite lookup_app_r, Nat.sub_diag by lia. }
  assert (q_value (push val h) (stored h val) = pyval_value h val) as Hv.
  { by apply q_value_fresh. }
  split.
  - split; [by apply lookup_lt_Some in Hb|].
    unfold buffer, stored. cbn [q_buf q_off q_shape]. rewrite Hb. simpl. lia.
  - unfold q_content. by rewrite Hv.
Qed.

Lemma fresh_items_shape kvs s :
  Forall (fun kv => pyval_shape kv.2 = s) kvs →
  ∀ n, Forall (fun kv => q_shape kv.2 = s) (fresh_items n kvs).
Proof.
  induction 1 as [|kv kvs Hkv _ IH]; intros n; simpl; by constructor.
Qed.

(** *** Construction *)

(** What [__init__] returns is a well-formed container of new arrays. *)
Lemma init_wf t0v kwargs h s :
  NoDup kwargs.*1 →
  Forall (fun kv => kv.1 ∈ _valid_keys) kwargs →
  Forall (fun kv => pyval_shape kv.2 = s) kwargs →
  Forall (fun kv => pyval_allocated h kv.2) kwargs →
  let c := set_cache (assign_many (blank t0v) (length (h_bufs h)) kwargs)
             (Some (length (h_dicts h))) in
  let h' := upd_dicts (fun l => l ++ [None]) (push_many kwargs h) in
  items c = fresh_items (length (h_bufs h)) kwargs
  ∧ wf_samples h' c.
Proof.
  intros Hnd Hk Hs Ha c h'.
  assert (items c = fresh_items (length (h_bufs h)) kwargs) as Hit.
  { unfold c. cbn [items set_cache].
    by rewrite assign_many_items_append. }
  split; [done|]. unfold wf_samples, keys. rewrite Hit, fresh_items_keys.
  split_and!.
  - done.
  - by rewrite Forall_fmap.
  - apply Forall_forall. intros [k q] Hin.
    destruct (fresh_items_elem _ _ _ _ Hin) as (i & v & Hi & ->).
    simpl. apply (allocated_bufs (push_many kwargs h)); [done|].
    apply (fresh_content kwargs h i (k, v) Hi).
    apply (proj1 (Forall_forall _ _) Ha (k, v)).
    by apply (list_elem_of_lookup_2 _ i).
  - unfold c. cbn [_shape _size set_cache].
    rewrite assign_many_shape, assign_many_size. cbn [_shape _size blank].
    destruct kwargs as [|kv kwargs]; [done|]. simpl.
    inversion Hs as [|? ? Hs1 Hs2]; subst. split; [done|].
    constructor; [done|]. by apply fresh_items_shape.
  - exists (length (h_dicts h)). split; [done|].
    unfold h'. simpl. rewrite length_app. simpl. lia.
Qed.


(** X8: the constructor, given keyword arguments with distinct valid keys
    and values of one shape, returns a well-formed container with these
    keys in their order and the given reference epoch; its length is the
    number of samples, not the number of keys; every key holds a new array
    with the numbers and the unit of the value given for it. *)
Theorem init_makes_container t0v kwargs h s :
  NoDup kwargs.*1 →
  Forall (fun kv => kv.1 ∈ _valid_keys) kwargs →
  Forall (fun kv => pyval_shape kv.2 = s) kwargs →
  Forall (fun kv => pyval_allocated h kv.2) kwargs →
  ∃ c h',
    __init__ t0v kwargs h = (Return c, h')
    ∧ wf_samples h' c
    ∧ keys c = kwargs.*1
    ∧ t0 c = t0v
    ∧ (kwargs ≠ [] → __len__ c h' = (Return (shape_size s), h'))
    ∧ ∀ i k v, kwargs !! i = Some (k, v) →
        ∃ q, odict_get k (items c) = Some q
           ∧ q_content h' q = (s, pyval_value h v, pyval_unit v)
           ∧ (length (h_bufs h) ≤ q_buf q)%nat.
Proof.
  intros Hnd Hk Hs Ha.
  destruct (init_wf t0v kwargs h s Hnd Hk Hs Ha) as [Hit Hwf].
  do 2 eexists. split; [by apply (init_run t0v kwargs h s)|].
  split; [exact Hwf|]. split_and!.
  - unfold keys. by rewrite Hit, fresh_items_keys.
  - cbn [t0 set_cache]. by rewrite assign_many_t0.
  - intros Hne. unfold __len__, n_samples, size. cbn [_size set_cache].
    rewrite assign_many_size. cbn [_shape blank].
    destruct kwargs as [|kv kwargs]; [done|]. simpl.
    inversion Hs as [|? ? Hs1 _]; subst. done.
  - intros i k v Hi. exists (fresh (length (h_bufs h) + i) v).
    assert (pyval_allocated h v) as Hv.
    { apply (proj1 (Forall_forall _ _) Ha (k, v)).
      by apply (list_elem_of_lookup_2 _ i). }
    assert (pyval_shape v = s) as Hsv.
    { apply (proj1 (Forall_forall _ _) Hs (k, v)).
      by apply (list_elem_of_lookup_2 _ i). }
    destruct (fresh_content kwargs h i (k, v) Hi Hv) as [_ Hval].
    split_and!.
    + apply odict_get_elem.
      * rewrite Hit. by rewrite fresh_items_keys.
      * rewrite Hit. apply (list_elem_of_lookup_2 _ i).
        by rewrite (fresh_items_lookup kwargs _ i (k, v)).
    + unfold q_content.
      rewrite (q_value_bufs (push_many kwargs h)) by done.
      cbn [fst snd] in Hval. rewrite Hval. cbn [fresh q_shape q_unit].
      by rewrite Hsv.
    + simpl. lia.
Qed.

Lemma init_makes_container_witness :
  ∃ c h',
    __init__ None ex_kwargs ex_heap = (Return c, h')
    ∧ wf_samples h' c
    ∧ keys c = ["P"; "e"; "K"; "omega"; "M0"; "v0"]
    ∧ __len__ c h' = (Return 2%nat, h').
Proof.
  destruct (init_makes_container None ex_kwargs ex_heap (Shape1 2))
    as (c & h' & Hrun & Hwf & Hkeys & _ & Hlen & _).
  - apply (bool_decide_unpack _). by vm_compute.
  - apply (bool_decide_unpack _). by vm_compute.
  - repeat constructor.
  - repeat (constructor; [split; simpl; lia|]). constructor.
  - exists c, h'. split_and!; [done|done|done|by apply Hlen].
Defined.

(** Successive assignments that all succeed had valid keys and values of
    the established shape. *)
Lemma setitem_loop_Return kvs : ∀ self h c h' s,
  _shape self = Some s →
  foldM (fun self kv => __setitem__ self kv.1 kv.2) self kvs h = (Return c, h') →
  Forall (fun kv => kv.1 ∈ _valid_keys) kvs
  ∧ Forall (fun kv => pyval_shape kv.2 = s) kvs.
Proof.
  induction kvs as [|[k v] kvs IH]; intros self h c h' s Hs Hrun; [done|].
  rewrite foldM_cons in Hrun. cbn [fst snd] in Hrun.
  destruct (__setitem__ self k v h) as [[self1|e] h1] eqn:Hset; [|done].
  destruct (setitem_fixes_shape _ _ _ _ _ _ Hset) as [Hk Hshape].
  rewrite Hs in Hshape. destruct Hshape as (Hv & Hs1 & _).
  destruct (IH _ _ _ _ s Hs1 Hrun) as [Hks Hvs].
  split; by constructor.
Qed.

(** X9: the constructor returns only for keyword arguments whose keys are
    all valid and whose values all have one shape: no container holds an
    unknown key or arrays of different shapes. *)
Theorem init_returns_only_valid t0v kwargs h c h' :
  __init__ t0v kwargs h = (Return c, h') →
  Forall (fun kv => kv.1 ∈ _valid_keys) kwargs
  ∧ ∃ s, Forall (fun kv => pyval_shape kv.2 = s) kwargs.
Proof.
  unfold __init__. intros Hrun.
  match type of Hrun with
  | (?m ≫= _) _ = _ => destruct (m h) as [[self|e] h1] eqn:Hloop
  end; [|by rewrite (bind_run_raise _ _ _ _ _ Hloop) in Hrun].
  clear Hrun. destruct kwargs as [|[k v] kwargs].
  { split; [done|]. by exists Shape0. }
  rewrite foldM_cons in Hloop. cbn [fst snd] in Hloop.
  destruct (__setitem__ _ k v h) as [[self1|e] h2] eqn:Hset; [|done].
  destruct (setitem_fixes_shape _ _ _ _ _ _ Hset) as [Hk Hshape].
  cbn [_shape] in Hshape. destruct Hshape as [Hs1 _].
  destruct (setitem_loop_Return _ _ _ _ _ _ Hs1 Hloop) as [Hks Hvs].
  split; [by constructor|]. exists (pyval_shape v). by constructor.
Qed.

Lemma init_returns_only_valid_witness :
  Forall (fun kv => kv.1 ∈ _valid_keys) ex_kwargs
  ∧ ∃ s, Forall (fun kv => pyval_shape kv.2 = s) ex_kwargs.
Proof.
  apply (init_returns_only_valid None ex_kwargs ex_heap ex_samples
           ex_samples_heap).
  exact ex_samples_init.
Defined.

(** X10: a container without keys has no length: [size], [shape],
    [n_samples], [len()] and [str()] raise [ValueError], and so does the
    first step of the generator [orbits]. *)
Theorem empty_container_raises t0v h :
  ∃ c h',
    __init__ t0v [] h = (Return c, h')
    ∧ keys c = []
    ∧ size c h' = (Raise (Exn ValueError no_samples_msg), h')
    ∧ shape c h' = (Raise (Exn ValueError no_samples_msg), h')
    ∧ n_samples c h' = (Raise (Exn ValueError no_samples_msg), h')
    ∧ __len__ c h' = (Raise (Exn ValueError no_samples_msg), h')
    ∧ __str__ c h' = (Raise (Exn ValueError no_samples_msg), h')
    ∧ orbits_next c NotStarted h' = (Raise (Exn ValueError no_samples_msg), h').
Proof. do 2 eexists. split; [reflexivity|]. by split_and!. Qed.


(** *** Assignment and lookup *)

Lemma setitem_Return self key val h self' h' :
  __setitem__ self key val h = (Return self', h') →
  key ∈ _valid_keys
  ∧ (∀ s, _shape self = Some s → pyval_shape val = s)
  ∧ self' = assign self key (stored h val)
  ∧ h' = push val h.
Proof.
  intros Hrun.
  destruct (setitem_cases self key val h)
    as [[_ H]|[[_ (s & n & _ & _ & _ & H)]|[[_ (s & _ & _ & _ & H)]|(Hk & Hs & H)]]];
    rewrite H in Hrun; try discriminate.
  by injection Hrun as <- <-.
Qed.

Lemma assign_wf self key val h :
  wf_samples h self →
  pyval_allocated h val →
  key ∈ _valid_keys →
  (∀ s, _shape self = Some s → pyval_shape val = s) →
  wf_samples (push val h) (assign self key (stored h val)).
Proof.
  intros (Hnd & Hv & Ha & Hs & d & Hc & Hd) Hval Hk Hshape.
  destruct (stored_content val h Hval) as [Hqa _].
  assert (items (assign self key (stored h val))
          = odict_set key (stored h val) (items self)) as Hit
    by (unfold assign; by destruct (_shape self)).
  unfold wf_samples, keys. rewrite Hit. split_and!.
  - by apply odict_set_NoDup.
  - rewrite Forall_fmap. apply odict_set_Forall; [|done].
    unfold keys in Hv. by rewrite Forall_fmap in Hv.
  - apply odict_set_Forall; [|done].
    eapply Forall_impl; [exact Ha|]. intros kv Hkv.
    by apply (extends_allocated h); [apply extends_push|].
  - unfold assign. destruct (_shape self) as [s|] eqn:E; simpl; rewrite ?E.
    + destruct Hs as [Hsz Hall]. split; [done|].
      apply odict_set_Forall; [done|]. simpl. by apply Hshape.
    + destruct Hs as [_ ->]. split; [done|]. by repeat constructor.
  - exists d. split; [|done]. unfold assign. by destruct (_shape self).
Qed.

(** X11: a successful assignment keeps the container well formed; the key is
    then present, at its old place if it was present and at the end
    otherwise, and looking it up gives an array with the shape, numbers and
    unit of the value assigned; the arrays under the other keys are the
    ones that were there, unchanged. *)
Theorem setitem_then_getitem self key val h self' h' :
  wf_samples h self →
  pyval_allocated h val →
  __setitem__ self key val h = (Return self', h') →
  wf_samples h' self'
  ∧ keys self' = (if decide (key ∈ keys self) then keys self
                  else keys self ++ [key])
  ∧ (∃ q, __getitem__ self' (KStr key) h' = (Return (GQuantity q), h')
        ∧ q_content h' q = (pyval_shape val, pyval_value h val, pyval_unit val))
  ∧ ∀ k q, k ≠ key → odict_get k (items self) = Some q →
      __getitem__ self' (KStr k) h' = (Return (GQuantity q), h')
      ∧ q_content h' q = q_content h q.
Proof.
  intros Hwf Hval Hrun.
  destruct (setitem_Return _ _ _ _ _ _ Hrun) as (Hk & Hshape & -> & ->).
  assert (items (assign self key (stored h val))
          = odict_set key (stored h val) (items self)) as Hit
    by (unfold assign; by destruct (_shape self)).
  split; [by apply assign_wf|]. split_and!.
  - unfold keys. rewrite Hit. apply odict_set_keys.
  - exists (stored h val). split; [|by apply stored_content].
    unfold __getitem__, dict_getitem. by rewrite Hit, odict_get_set_eq.
  - intros k q Hne Hq. split.
    + unfold __getitem__, dict_getitem.
      by rewrite Hit, odict_get_set_ne, Hq.
    + apply extends_q_content; [apply extends_push|].
      destruct Hwf as (_ & _ & Ha & _). apply odict_get_Some in Hq.
      apply (proj1 (Forall_forall _ _) Ha (k, q) Hq).
Qed.

Lemma setitem_then_getitem_witness :
  ∃ self' h' q,
    __setitem__ ex_samples "jitter" (ex_array 0 (base_unit "m/s"))
      ex_samples_heap = (Return self', h')
    ∧ keys self' = ["P"; "e"; "K"; "omega"; "M0"; "v0"; "jitter"]
    ∧ __getitem__ self' (KStr "jitter") h' = (Return (GQuantity q), h')
    ∧ q_content h' q = (Shape1 2, [1; 2], base_unit "m/s").
Proof.
  assert (pyval_allocated ex_samples_heap (ex_array 0 (base_unit "m/s")))
    as Hval by (split; simpl; lia).
  destruct (__setitem__ ex_samples "jitter" (ex_array 0 (base_unit "m/s"))
              ex_samples_heap) as [r h'] eqn:Hrun.
  assert (∃ self', r = Return self') as [self' ->].
  { rewrite setitem_ok in Hrun.
    - injection Hrun as <- _. by eexists.
    - apply (bool_decide_unpack _). by vm_compute.
    - by intros s [= <-]. }
  destruct (setitem_then_getitem ex_samples "jitter" _ ex_samples_heap self' h'
              ex_samples_wf Hval Hrun) as (_ & Hkeys & (q & Hget & Hc) & _).
  exists self', h', q. split_and!; try done.
Defined.

(** X12: the container keeps a copy of an array assigned to it: assigning
    afterwards to an element of the array that was given leaves the array
    under the key as it is. *)
Theorem setitem_stores_a_copy self key a h self' h' i x r h'' :
  wf_samples h self →
  allocated h a →
  __setitem__ self key (VQuantity a) h = (Return self', h') →
  Quantity_setitem a i x h' = (r, h'') →
  ∃ q, odict_get key (items self') = Some q
     ∧ q_value h' q = q_value h a
     ∧ q_value h'' q = q_value h a.
Proof.
  intros Hwf Ha Hrun Hset.
  destruct (setitem_Return _ _ _ _ _ _ Hrun) as (Hk & Hshape & -> & ->).
  exists (stored h (VQuantity a)).
  destruct (stored_content (VQuantity a) h Ha) as [_ Hc].
  assert (q_value (push (VQuantity a) h) (stored h (VQuantity a))
          = q_value h a) as Hv by (by injection Hc).
  split_and!.
  - unfold assign. destruct (_shape self); simpl; apply odict_get_set_eq.
  - done.
  - rewrite (Quantity_setitem_frame _ _ _ _ _ _ _ Hset); [done|].
    simpl. destruct Ha. lia.
Qed.

Lemma setitem_stores_a_copy_witness :
  ∃ self' h' h'' q,
    __setitem__ ex_samples "P" (ex_array 0 (base_unit "d")) ex_samples_heap
      = (Return self', h')
    ∧ Quantity_setitem {| q_buf := 0; q_off := 0; q_shape := Shape1 2;
                          q_unit := base_unit "d" |} 0 7 h'
      = (Return (), h'')
    ∧ q_value h'' {| q_buf := 0; q_off := 0; q_shape := Shape1 2;
                     q_unit := base_unit "d" |} = [7; 2]
    ∧ odict_get "P" (items self') = Some q
    ∧ q_value h'' q = [1; 2].
Proof.
  set (a := {| q_buf := 0; q_off := 0; q_shape := Shape1 2;
               q_unit := base_unit "d" |}).
  assert (allocated ex_samples_heap a) as Ha by (split; simpl; lia).
  destruct (__setitem__ ex_samples "P" (VQuantity a) ex_samples_heap)
    as [r h'] eqn:Hrun.
  assert (∃ self', r = Return self' ∧ h' = push (VQuantity a) ex_samples_heap)
    as (self' & -> & Hh').
  { rewrite setitem_ok in Hrun.
    - injection Hrun as <- <-. by eexists.
    - apply (bool_decide_unpack _). by vm_compute.
    - by intros s [= <-]. }
  destruct (Quantity_setitem a 0 7 h') as [r' h''] eqn:Hset.
  destruct (setitem_stores_a_copy ex_samples "P" a ex_samples_heap self' h'
              0%Z 7 r' h'' ex_samples_wf Ha Hrun Hset) as (q & Hq & _ & Hv).
  exists self', h', h'', q. subst h'.
  injection Hset as <- <-. split_and!; try done.
Defined.

(** X13: looking up a key that is not present raises [KeyError]; looking up
    a key that is present returns the array that the container holds, not
    a copy: an assignment to an element of the returned array is seen by
    the next lookup. *)
Theorem getitem_returns_the_stored_array self k h :
  (odict_get k (items self) = None →
   __getitem__ self (KStr k) h = (Raise (Exn KeyError k), h))
  ∧ (∀ q n i j x,
       odict_get k (items self) = Some q →
       allocated h q → q_shape q = Shape1 n → norm_index n i = Some j →
       ∃ h', __getitem__ self (KStr k) h = (Return (GQuantity q), h)
           ∧ Quantity_setitem q i x h = (Return (), h')
           ∧ __getitem__ self (KStr k) h' = (Return (GQuantity q), h')
           ∧ q_value h' q = <[j := x]> (q_value h q)).
Proof.
  split.
  - intros Hk. unfold __getitem__, dict_getitem. by rewrite Hk.
  - intros q n i j x Hq [Hb Ho] Hs Hi. eexists. split_and!.
    + unfold __getitem__, dict_getitem. by rewrite Hq.
    + unfold Quantity_setitem. by rewrite Hs, Hi.
    + unfold __getitem__, dict_getitem. by rewrite Hq.
    + assert (j < n)%nat as Hj.
      { unfold norm_index in Hi. repeat case_decide; simplify_eq; lia. }
      rewrite Hs in Ho. simpl in Ho.
      unfold q_value, buffer. simpl. rewrite Hs. simpl.
      rewrite list_lookup_insert_eq by done. simpl.
      rewrite drop_insert_ge by lia.
      rewrite take_insert_lt by lia. f_equal. lia.
Qed.

Lemma getitem_returns_the_stored_array_witness :
  __getitem__ ex_samples (KStr "jitter") ex_samples_heap
  = (Raise (Exn KeyError "jitter"), ex_samples_heap).
Proof.
  apply (proj1 (getitem_returns_the_stored_array ex_samples "jitter"
                  ex_samples_heap)).
  reflexivity.
Defined.

(** *** Indexing by an integer or a slice *)

(** The keyword arguments of the second run of assignments of
    [__getitem__] for an integer subscript: element [j] of every array. *)
Lemma getitem_int_step self k q n i j new h hh :
  odict_get k (items self) = Some q → q_shape q = Shape1 n →
  norm_index n i = Some j →
  allocated h q → extends h hh →
  (q ← dict_getitem self k;
   v ← Quantity_getitem q (IInt i);
   __setitem__ new k v) hh
  = __setitem__ new k (VScalar (sample_of h q j)) hh.
Proof.
  intros Hget Hs Hi Ha Hext.
  rewrite (bind_run _ _ hh q hh) by (unfold dict_getitem; by rewrite Hget).
  rewrite (bind_run _ _ hh (VScalar (sample_of h q j)) hh); [done|].
  unfold Quantity_getitem. rewrite Hs, Hi.
  unfold mbind, M_bind, get_heap, mret, M_ret, sample_of.
  by rewrite (extends_q_value h hh).
Qed.

Lemma getitem_int_loop self n i j h (its : list (string * Quantity)) :
  norm_index n i = Some j →
  Forall (fun kv => odict_get kv.1 (items self) = Some kv.2
                    ∧ q_shape kv.2 = Shape1 n ∧ allocated h kv.2) its →
  ∀ new hh, extends h hh →
  foldM (fun new k =>
           q ← dict_getitem self k;
           v ← Quantity_getitem q (IInt i);
           __setitem__ new k v) new its.*1 hh
  = foldM (fun y kv => __setitem__ y kv.1 kv.2) new
      (map (fun kv => (kv.1, VScalar (sample_of h kv.2 j))) its) hh.
Proof.
  intros Hi. induction 1 as [|[k q] its (Hget & Hs & Ha) _ IH];
    intros new hh Hext; [done|].
  rewrite fmap_cons, map_cons, !foldM_cons. cbn beta iota delta [fst snd].
  rewrite (getitem_int_step self k q n i j new h hh Hget Hs Hi Ha Hext).
  destruct (__setitem__ new k _ hh) as [[new'|e] hh'] eqn:Hset; [|done].
  apply IH. destruct (setitem_Return _ _ _ _ _ _ Hset) as (_ & _ & _ & ->).
  eapply extends_trans; [exact Hext|apply extends_push].
Qed.

Lemma head_shape (vs : list (string * pyval)) s' :
  Forall (fun kv => pyval_shape kv.2 = s') vs → vs ≠ [] →
  ∃ kv, head vs = Some kv ∧ pyval_shape kv.2 = s'.
Proof. intros Hs Hne. destruct Hs as [|kv vs' Hkv _]; [done|]. by exists kv. Qed.

(** The container that [__getitem__] builds: a copy of [self] whose keys
    are then assigned the values [vs], in the order of the keys. *)
Section Reindex.

Variables (h : heap) (self : JokerSamples) (s s' : Shape).
Variable vs : list (string * pyval).
Hypothesis self_wf : wf_samples h self.
Hypothesis self_shape : _shape self = Some s.
Hypothesis vs_keys : vs.*1 = keys self.
Hypothesis vs_shape : Forall (fun kv => pyval_shape kv.2 = s') vs.

Let copies := as_values (items self).
Let h1 := push_many copies (upd_dicts (fun l => l ++ [None]) h).
Let copied := assign_many (set_items self []) (length (h_bufs h)) copies.
Let new := assign_many (set_shape_size copied None None) (length (h_bufs h1)) vs.

Hypothesis vs_allocated : Forall (fun kv => pyval_allocated h1 kv.2) vs.

Lemma reindex_items : items new = fresh_items (length (h_bufs h1)) vs.
Proof using self_wf vs_keys.
  destruct self_wf as (Hnd & _). unfold new.
  rewrite (assign_many_items_replace vs _ _ [] (items copied)).
  - done.
  - done.
  - unfold copied. rewrite assign_many_items_append.
    + simpl. rewrite fresh_items_keys. unfold copies.
      by rewrite as_values_keys, vs_keys.
    + simpl. unfold copies. by rewrite as_values_keys.
  - simpl. by rewrite vs_keys.
Qed.

Lemma reindex_fields : t0 new = t0 self ∧ _cache new = _cache self.
Proof using Type.
  unfold new, copied. rewrite !assign_many_t0, !assign_many_cache. simpl.
  by rewrite !assign_many_t0, !assign_many_cache.
Qed.

Lemma reindex_shape :
  vs ≠ [] → _shape new = Some s' ∧ _size new = Some (shape_size s').
Proof using vs_shape.
  intros Hne. unfold new. rewrite assign_many_shape, assign_many_size.
  cbn [_shape _size set_shape_size].
  destruct (head_shape vs s' vs_shape Hne) as (kv & -> & <-). done.
Qed.

Lemma reindex_wf : wf_samples (push_many vs h1) new.
Proof using All.
  pose proof reindex_items as Hit.
  destruct reindex_fields as [_ Hcache].
  destruct self_wf as (Hnd & Hv & _ & _ & d & Hc & Hd).
  unfold wf_samples, keys. rewrite Hit, fresh_items_keys, vs_keys.
  split_and!; try done.
  - apply Forall_forall. intros [k q] Hin.
    destruct (fresh_items_elem _ _ _ _ Hin) as (i & v & Hi & ->).
    simpl. apply (fresh_content vs h1 i (k, v) Hi).
    apply (proj1 (Forall_forall _ _) vs_allocated (k, v)).
    by apply (list_elem_of_lookup_2 _ i).
  - destruct (decide (vs = [])) as [Evs|Evs].
    + rewrite Evs. unfold new. rewrite Evs. by simpl.
    + destruct (reindex_shape Evs) as [-> ->]. split; [done|].
      by apply fresh_items_shape.
  - exists d. rewrite Hcache. split; [done|].
    unfold h1. simpl. rewrite length_app. lia.
Qed.

(** Every key holds a new array with the value assigned to it. *)
Lemma reindex_lookup i k v :
  vs !! i = Some (k, v) →
  ∃ q', odict_get k (items new) = Some q'
      ∧ q_content (push_many vs h1) q'
        = (pyval_shape v, pyval_value h1 v, pyval_unit v).
Proof using All.
  intros Hi.
  assert (pyval_allocated h1 v) as Hva.
  { apply (proj1 (Forall_forall _ _) vs_allocated (k, v)).
    by apply (list_elem_of_lookup_2 _ i). }
  destruct (fresh_content vs h1 i (k, v) Hi Hva) as [_ Hval].
  exists (fresh (length (h_bufs h1) + i) v). split.
  - apply odict_get_elem.
    + rewrite reindex_items, fresh_items_keys, vs_keys. by destruct self_wf.
    + rewrite reindex_items. apply (list_elem_of_lookup_2 _ i).
      by rewrite (fresh_items_lookup vs _ i (k, v)).
  - unfold q_content. cbn [fst snd] in Hval. by rewrite Hval.
Qed.

End Reindex.

(** X14: a slice of a container of one-dimensional arrays is again a
    well-formed container of one-dimensional arrays, so that it can be
    indexed in turn; its length is the number of selected samples, which
    is at most the length of the original, and is zero, not an error, when
    nothing is selected. *)
Theorem getitem_slice_is_container h self n start stop :
  wf_samples h self →
  _shape self = Some (Shape1 n) →
  items self ≠ [] →
  ∃ new h',
    __getitem__ self (KIndex (ISlice start stop)) h = (Return (GSamples new), h')
    ∧ wf_samples h' new
    ∧ _shape new = Some (Shape1 (slice_bounds n start stop).2)
    ∧ __len__ new h' = (Return (slice_bounds n start stop).2, h')
    ∧ ((slice_bounds n start stop).2 ≤ n)%nat.
Proof.
  intros Hwf Hshape Hne.
  pose proof (getitem_slice_run h self n start stop Hwf Hshape) as Hrun.
  destruct (views_facts h self n start stop Hwf Hshape) as (_ & Hs & Ha).
  assert ((views start stop n (items self)).*1 = keys self) as Hkeys.
  { unfold views, keys. by rewrite <- list_fmap_compose. }
  assert (views start stop n (items self) ≠ []) as Hne'.
  { unfold views. by destruct (items self). }
  destruct (reindex_shape h self _ _ Hs Hne') as [Hsh Hsz].
  do 2 eexists. split; [exact Hrun|]. split_and!.
  - by apply (reindex_wf h self (Shape1 n) _ _ Hwf Hshape Hkeys Hs).
  - exact Hsh.
  - unfold __len__, n_samples, size. by rewrite Hsz.
  - pose proof (slice_bounds_le n start stop). lia.
Qed.

Lemma getitem_slice_is_container_witness :
  ∃ new h',
    __getitem__ ex_samples (KIndex (ISlice (Some 2%Z) (Some 1%Z)))
      ex_samples_heap = (Return (GSamples new), h')
    ∧ wf_samples h' new
    ∧ __len__ new h' = (Return 0%nat, h').
Proof.
  assert (_shape ex_samples = Some (Shape1 2)) as Hshape by reflexivity.
  assert (items ex_samples ≠ []) as Hne by done.
  destruct (getitem_slice_is_container ex_samples_heap ex_samples 2
              (Some 2%Z) (Some 1%Z) ex_samples_wf Hshape Hne)
    as (new & h' & Hrun & Hwf & _ & Hlen & _).
  exists new, h'. by split_and!.
Defined.

Lemma getitem_int_run h self n i j :
  wf_samples h self →
  _shape self = Some (Shape1 n) →
  norm_index n i = Some j →
  let copies := as_values (items self) in
  let h1 := push_many copies (upd_dicts (fun l => l ++ [None]) h) in
  let copied := assign_many (set_items self []) (length (h_bufs h)) copies in
  let ps := map (fun kv => (kv.1, VScalar (sample_of h kv.2 j))) (items self) in
  __getitem__ self (KIndex (IInt i)) h
  = (Return (GSamples (assign_many (set_shape_size copied None None)
                         (length (h_bufs h1)) ps)),
     push_many ps h1).
Proof.
  intros Hwf Hshape Hi copies h1 copied ps.
  pose proof (self_items_facts h self n Hwf Hshape) as Hfacts.
  unfold __getitem__.
  rewrite (bind_run _ _ _ _ _ (copy_copy_run h self _ Hwf Hshape)).
  cbv zeta. unfold keys.
  erewrite bind_run; [done|].
  rewrite (getitem_int_loop self n i j h (items self) Hi).
  - apply (setitem_many _ _ _ Shape0).
    + unfold ps. rewrite Forall_fmap. eapply Forall_impl; [exact Hfacts|].
      by intros kv (_ & _ & _ & ?).
    + unfold ps. rewrite Forall_fmap. by apply Forall_forall.
    + by left.
    + unfold ps. rewrite Forall_fmap. by apply Forall_forall.
  - eapply Forall_impl; [exact Hfacts|]. by intros kv (? & ? & ? & _).
  - unfold push_many, extends. simpl. by eexists.
Qed.

(** X15: an integer subscript within the bounds, counted from the end when
    negative, gives a well-formed container with the keys of the original
    and its reference epoch, in which every key holds a zero-dimensional
    array with that sample and the unit of the original; its length is 1. *)
Theorem getitem_int_is_scalar_container h self n i j :
  wf_samples h self →
  _shape self = Some (Shape1 n) →
  norm_index n i = Some j →
  ∃ new h',
    __getitem__ self (KIndex (IInt i)) h = (Return (GSamples new), h')
    ∧ wf_samples h' new
    ∧ keys new = keys self
    ∧ t0 new = t0 self
    ∧ (items self ≠ [] →
       _shape new = Some Shape0 ∧ __len__ new h' = (Return 1%nat, h'))
    ∧ ∀ k q, odict_get k (items self) = Some q →
        ∃ q', odict_get k (items new) = Some q'
            ∧ q_content h' q' = (Shape0, [nth j (q_value h q) 0], q_unit q).
Proof.
  intros Hwf Hshape Hi.
  pose proof (getitem_int_run h self n i j Hwf Hshape Hi) as Hrun.
  cbv zeta in Hrun.
  set (ps := map (fun kv => (kv.1, VScalar (sample_of h kv.2 j))) (items self))
    in *.
  assert (ps.*1 = keys self) as Hkeys.
  { unfold ps, keys. by rewrite <- list_fmap_compose. }
  assert (Forall (fun kv => pyval_shape kv.2 = Shape0) ps) as Hs.
  { unfold ps. rewrite Forall_fmap. by apply Forall_forall. }
  assert (∀ hh, Forall (fun kv => pyval_allocated hh kv.2) ps) as Ha.
  { intros hh. unfold ps. rewrite Forall_fmap. by apply Forall_forall. }
  do 2 eexists. split; [exact Hrun|]. split_and!.
  - by apply (reindex_wf h self (Shape1 n) _ _ Hwf Hshape Hkeys Hs).
  - unfold keys. rewrite (reindex_items h self ps Hwf Hkeys).
    by rewrite fresh_items_keys.
  - apply (reindex_fields h self ps).
  - intros Hne.
    assert (ps ≠ []) as Hne' by (unfold ps; by destruct (items self)).
    destruct (reindex_shape h self _ _ Hs Hne') as [Hsh Hsz].
    split; [exact Hsh|]. unfold __len__, n_samples, size. by rewrite Hsz.
  - intros k q Hq. apply odict_get_Some in Hq.
    apply list_elem_of_lookup in Hq as [m Hm].
    assert (ps !! m = Some (k, VScalar (sample_of h q j))) as Hpm.
    { unfold ps. by rewrite list_lookup_fmap, Hm. }
    destruct (reindex_lookup h self (Shape1 n) Shape0 ps Hwf Hshape Hkeys Hs
                (Ha _) m k _ Hpm) as (q' & Hq' & Hc).
    exists q'. split; [exact Hq'|]. by rewrite Hc.
Qed.

Lemma getitem_int_is_scalar_container_witness :
  ∃ new h' q',
    __getitem__ ex_samples (KIndex (IInt (-1))) ex_samples_heap
      = (Return (GSamples new), h')
    ∧ __len__ new h' = (Return 1%nat, h')
    ∧ odict_get "K" (items new) = Some q'
    ∧ q_content h' q' = (Shape0, [4], base_unit "km/s").
Proof.
  assert (_shape ex_samples = Some (Shape1 2)) as Hshape by reflexivity.
  assert (norm_index 2 (-1) = Some 1%nat) as Hi by reflexivity.
  set (qK := {| q_buf := 8; q_off := 0; q_shape := Shape1 2;
                q_unit := base_unit "km/s" |}).
  assert (odict_get "K" (items ex_samples) = Some qK) as HK by reflexivity.
  assert (nth 1 (q_value ex_samples_heap qK) 0 = 4) as Hv by reflexivity.
  destruct (getitem_int_is_scalar_container ex_samples_heap ex_samples 2
              (-1) 1 ex_samples_wf Hshape Hi)
    as (new & h' & Hrun & _ & _ & _ & Hlen & Hlook).
  destruct (Hlook "K" qK HK) as (q' & Hq' & Hc).
  assert (items ex_samples ≠ []) as Hne by done.
  exists new, h', q'. split; [exact Hrun|]. split; [exact (proj2 (Hlen Hne))|].
  split; [exact Hq'|]. rewrite Hc, Hv. reflexivity.
Defined.

(** When the subscript is refused by the array of the first key, so is the
    indexing of the container. *)
Lemma getitem_first_key_raises h self s slc k q rest e :
  wf_samples h self →
  _shape self = Some s →
  items self = (k, q) :: rest →
  (∀ hh, Quantity_getitem q slc hh = (Raise e, hh)) →
  (__getitem__ self (KIndex slc) h).1 = Raise e.
Proof.
  intros Hwf Hshape Hit Hq. unfold __getitem__.
  rewrite (bind_run _ _ _ _ _ (copy_copy_run h self _ Hwf Hshape)).
  cbv zeta. unfold keys. rewrite Hit. rewrite fmap_cons.
  erewrite bind_run_raise; [done|].
  rewrite foldM_cons. cbn [fst].
  erewrite bind_run; [|unfold dict_getitem; rewrite Hit; simpl;
                       by rewrite decide_True by done].
  by erewrite bind_run_raise; [|apply Hq].
Qed.

(** X16: indexing is refused where the arrays refuse it: an integer out of
    the bounds raises [IndexError], and a container of zero-dimensional
    arrays, such as [mean()] returns, cannot be indexed at all
    ([TypeError]). *)
Theorem getitem_index_errors h self :
  wf_samples h self →
  items self ≠ [] →
  (∀ n i, _shape self = Some (Shape1 n) → norm_index n i = None →
     (__getitem__ self (KIndex (IInt i)) h).1
     = Raise (Exn IndexError "index out of bounds"))
  ∧ (∀ slc, _shape self = Some Shape0 →
       (__getitem__ self (KIndex slc) h).1
       = Raise (Exn TypeError
           "'Quantity' object with a scalar value does not support indexing")).
Proof.
  intros Hwf Hne. destruct (items self) as [|[k q] rest] eqn:Hit; [done|].
  assert (∀ s, _shape self = Some s → q_shape q = s) as Hq.
  { intros s Hs. destruct Hwf as (_ & _ & _ & Hsh & _). rewrite Hs in Hsh.
    destruct Hsh as [_ Hall]. rewrite Hit in Hall.
    by inversion Hall. }
  split.
  - intros n i Hs Hi.
    apply (getitem_first_key_raises h self _ _ k q rest _ Hwf Hs Hit).
    intros hh. unfold Quantity_getitem. by rewrite (Hq _ Hs), Hi.
  - intros slc Hs.
    apply (getitem_first_key_raises h self _ _ k q rest _ Hwf Hs Hit).
    intros hh. unfold Quantity_getitem. by rewrite (Hq _ Hs).
Qed.

Lemma getitem_index_errors_witness :
  (__getitem__ ex_samples (KIndex (IInt 2)) ex_samples_heap).1
  = Raise (Exn IndexError "index out of bounds").
Proof.
  assert (items ex_samples ≠ []) as Hne by done.
  apply (proj1 (getitem_index_errors ex_samples_heap ex_samples
                  ex_samples_wf Hne) 2%nat); reflexivity.
Defined.

(** X17: indexing a container without keys never fails: whatever the
    subscript, the result is a container without keys, with the reference
    epoch and the cache of the original. *)
Theorem getitem_empty_container h self slc :
  items self = [] →
  _shape self = None →
  ∃ new h',
    __getitem__ self (KIndex slc) h = (Return (GSamples new), h')
    ∧ keys new = []
    ∧ t0 new = t0 self
    ∧ _shape new = None
    ∧ (∀ d, _cache self = Some d → _cache new = Some d).
Proof.
  intros Hit Hs. unfold __getitem__, copy_copy, keys. rewrite Hit.
  do 2 eexists. split; [reflexivity|]. simpl. split_and!; try done.
  by intros d ->.
Qed.

Lemma getitem_empty_container_witness :
  ∃ new h',
    __getitem__ (set_cache (blank None) (Some 0%nat)) (KIndex (IInt 5))
      (upd_dicts (fun l => l ++ [None]) empty_heap)
    = (Return (GSamples new), h')
    ∧ keys new = [].
Proof.
  destruct (getitem_empty_container
              (upd_dicts (fun l => l ++ [None]) empty_heap)
              (set_cache (blank None) (Some 0%nat)) (IInt 5) eq_refl eq_refl)
    as (new & h' & Hrun & Hk & _).
  by exists new, h'.
Defined.

(** *** Orbits *)

(** X18: for every index within the bounds, counted from the end when
    negative, [get_orbit] returns a new orbit object whose elements hold
    the period, eccentricity, argument of pericenter and mean anomaly of
    that sample and whose [_v0] is its systemic velocity; the arrays of
    samples are left as they are. *)
Theorem get_orbit_reads_sample h self d n qP qe qK qomega qM0 qv0 i j :
  wf_heap h →
  _cache self = Some d →
  (d < length (h_dicts h))%nat →
  orbit_keys self n qP qe qK qomega qM0 qv0 →
  norm_index n i = Some j →
  ∃ orbit ob elrec h',
    get_orbit self i h = (Return orbit, h')
    ∧ h_bufs h' = h_bufs h
    ∧ (length (h_orbits h) ≤ orbit)%nat
    ∧ h_orbits h' !! orbit = Some ob
    ∧ _v0 ob = Some (sample_of h qv0 j)
    ∧ h_elements h' !! elements ob = Some elrec
    ∧ _P elrec = sample_of h qP j
    ∧ _e elrec = sample_of h qe j
    ∧ _omega elrec = sample_of h qomega j
    ∧ _M0 elrec = sample_of h qM0 j.
Proof.
  intros Hwf Hc Hd Hkeys Hi. destruct Hkeys.
  destruct (get_orbit_run h self d Hwf Hc Hd n i j qP qe qK qomega qM0 qv0)
    as (tmpl & orbit & el & elrec & h' & Hrun & Hb & _ & _ & _ & _ & Ho & Hge
        & _ & _ & Hel & HP & He & _ & Hw & HM & _); try done.
  exists orbit. eexists. exists elrec, h'. by split_and!.
Qed.

Lemma get_orbit_reads_sample_witness :
  ∃ orbit ob elrec h',
    get_orbit ex_samples (-1) ex_samples_heap = (Return orbit, h')
    ∧ h_orbits h' !! orbit = Some ob
    ∧ s_value <$> _v0 ob = Some 6
    ∧ h_elements h' !! elements ob = Some elrec
    ∧ s_value (_P elrec) = 2.
Proof.
  destruct ex_samples_keys
    as (qP & qe & qK & qomega & qM0 & qv0 & Hkeys & HP & HK & He).
  assert (norm_index 2 (-1) = Some 1%nat) as Hi by reflexivity.
  assert (_cache ex_samples = Some 0%nat) as Hc by reflexivity.
  assert (0 < length (h_dicts ex_samples_heap))%nat as Hd by (simpl; lia).
  assert (odict_get "v0" (items ex_samples)
          = Some {| q_buf := 11; q_off := 0; q_shape := Shape1 2;
                    q_unit := base_unit "km/s" |}) as Hv0 by reflexivity.
  destruct (get_orbit_reads_sample ex_samples_heap ex_samples 0 2
              qP qe qK qomega qM0 qv0 (-1) 1 ex_samples_heap_wf Hc Hd Hkeys Hi)
    as (orbit & ob & elrec & h' & Hrun & _ & _ & Ho & Hv & Hel & HPe & _).
  exists orbit, ob, elrec, h'. split; [exact Hrun|]. split; [exact Ho|].
  split; [|split; [exact Hel|]].
  - rewrite Hv. pose proof (ok_v0 _ _ _ _ _ _ _ _ Hkeys) as Hv0'.
    rewrite Hv0 in Hv0'. injection Hv0' as <-. reflexivity.
  - rewrite HPe. unfold sample_of. simpl. by rewrite HP.
Defined.

(** The call of [get_orbit] up to the first sample that it reads. *)
Lemma get_orbit_first_sample_raises h self d index e :
  wf_heap h →
  _cache self = Some d →
  (d < length (h_dicts h))%nat →
  (∀ hh, sample_at self "P" index hh = (Raise e, hh)) →
  ∃ tmpl h',
    get_orbit self index h = (Raise e, h')
    ∧ h_dicts h' !! d = Some (Some tmpl)
    ∧ h_bufs h' = h_bufs h.
Proof.
  intros Hwf Hc Hd Hraise.
  destruct (ensure_template_run h self d Hwf Hd)
    as (tmpl & ot & h1 & Hrun & Hb1 & Hwf1 & Hd1 & Hot & _).
  destruct (lookup_lt_is_Some_2 _ _ (proj2 Hwf1 _ _ Hot)) as [el0 Hel0].
  exists tmpl. eexists. split; [|split].
  - unfold get_orbit. rewrite Hc.
    rewrite (bind_run _ _ h d h) by done.
    rewrite (bind_run _ _ _ _ _ Hrun).
    rewrite (bind_run _ _ h1 tmpl h1)
      by (rewrite (bind_run _ _ h1 (Some tmpl) h1) by (by apply read_ref_run);
          done).
    rewrite (bind_run _ _ h1 (length (h_orbits h1))
               (upd_orbits
                  (fun l => l ++ [{| elements := length (h_elements h1);
                                     _v0 := _v0 ot |}])
                  (upd_elements (fun l => l ++ [el0]) h1)))
      by (unfold copy_orbit;
          rewrite (bind_run _ _ h1 ot h1) by (by apply read_ref_run);
          rewrite (bind_run _ _ h1 el0 h1) by (by apply read_ref_run);
          done).
    by rewrite (bind_run_raise _ _ _ _ _ (Hraise _)).
  - done.
  - done.
Qed.

(** X19: [get_orbit] raises [KeyError] when the key P is missing and
    [IndexError] when the index is out of the bounds; in both cases the
    template orbit has been made and is kept in the cache, and the arrays
    of samples are left as they are. *)
Theorem get_orbit_errors h self d index :
  wf_heap h →
  _cache self = Some d →
  (d < length (h_dicts h))%nat →
  (odict_get "P" (items self) = None →
   ∃ tmpl h', get_orbit self index h = (Raise (Exn KeyError "P"), h')
            ∧ h_dicts h' !! d = Some (Some tmpl)
            ∧ h_bufs h' = h_bufs h)
  ∧ (∀ q n, odict_get "P" (items self) = Some q → q_shape q = Shape1 n →
       norm_index n index = None →
       ∃ tmpl h',
         get_orbit self index h
         = (Raise (Exn IndexError "index out of bounds"), h')
         ∧ h_dicts h' !! d = Some (Some tmpl)
         ∧ h_bufs h' = h_bufs h).
Proof.
  intros Hwf Hc Hd. split.
  - intros HP. apply (get_orbit_first_sample_raises h self d index _ Hwf Hc Hd).
    intros hh. unfold sample_at, dict_getitem. by rewrite HP.
  - intros q n HP Hs Hi.
    apply (get_orbit_first_sample_raises h self d index _ Hwf Hc Hd).
    intros hh. unfold sample_at.
    rewrite (bind_run _ _ hh q hh) by (unfold dict_getitem; by rewrite HP).
    unfold Quantity_getitem. by rewrite Hs, Hi.
Qed.

Lemma get_orbit_errors_witness :
  ∃ tmpl h',
    get_orbit ex_samples 2 ex_samples_heap
    = (Raise (Exn IndexError "index out of bounds"), h')
    ∧ h_dicts h' !! 0%nat = Some (Some tmpl)
    ∧ h_bufs h' = h_bufs ex_samples_heap.
Proof.
  assert (_cache ex_samples = Some 0%nat) as Hc by reflexivity.
  assert (0 < length (h_dicts ex_samples_heap))%nat as Hd by (simpl; lia).
  apply (proj2 (get_orbit_errors ex_samples_heap ex_samples 0 2
                  ex_samples_heap_wf Hc Hd)
           {| q_buf := 6; q_off := 0; q_shape := Shape1 2;
              q_unit := base_unit "d" |} 2%nat); reflexivity.
Defined.

(** *** Reductions *)

(** X20: a reduction over the samples ([mean], [median] and [std] are
    [_apply] with such a function) returns a well-formed container with
    the keys of the original in their order, whose arrays are
    zero-dimensional, so that its length is 1; the reference epoch is not
    passed on: that of the result is [None]. *)
Theorem apply_makes_scalar_container self f h :
  wf_samples h self →
  ∃ c' h',
    _apply self (np_reduce f) h = (Return c', h')
    ∧ wf_samples h' c'
    ∧ keys c' = keys self
    ∧ t0 c' = None
    ∧ (items self ≠ [] →
       _shape c' = Some Shape0 ∧ __len__ c' h' = (Return 1%nat, h'))
    ∧ ∀ q, allocated h q → q_content h' q = q_content h q.
Proof.
  intros Hwf. pose proof (apply_run self f h Hwf) as Hrun.
  destruct Hwf as (Hnd & Hvalid & _).
  assert ((reduced f h (items self)).*1 = keys self) as Hkeys.
  { unfold reduced, keys. by rewrite <- list_fmap_compose. }
  assert (Forall (fun kv => pyval_shape kv.2 = Shape0) (reduced f h (items self)))
    as Hs.
  { unfold reduced. rewrite Forall_fmap. by apply Forall_forall. }
  destruct (init_wf None (reduced f h (items self)) h Shape0) as [Hit Hwf'].
  { by rewrite Hkeys. }
  { unfold reduced. rewrite Forall_fmap. apply Forall_forall.
    intros [k q] Hin. simpl. apply (proj1 (Forall_forall _ _) Hvalid k).
    apply list_elem_of_fmap. by exists (k, q). }
  { done. }
  { unfold reduced. rewrite Forall_fmap. by apply Forall_forall. }
  do 2 eexists. split; [exact Hrun|]. split; [exact Hwf'|]. split_and!.
  - unfold keys. by rewrite Hit, fresh_items_keys.
  - cbn [t0 set_cache]. by rewrite assign_many_t0.
  - intros Hne.
    assert (reduced f h (items self) ≠ []) as Hne'
      by (unfold reduced; by destruct (items self)).
    destruct (head_shape _ _ Hs Hne') as (kv & Hhead & Hkv).
    cbn [_shape _size set_cache]. unfold __len__, n_samples, size.
    cbn [_size set_cache]. rewrite assign_many_shape, assign_many_size.
    cbn [_shape _size blank]. rewrite Hhead. simpl. by rewrite Hkv.
  - intros q Hq. apply extends_q_content; [|done].
    unfold push_many, extends. simpl. by eexists.
Qed.

Lemma apply_makes_scalar_container_witness :
  ∃ c' h',
    std ex_samples ex_samples_heap = (Return c', h')
    ∧ keys c' = ["P"; "e"; "K"; "omega"; "M0"; "v0"]
    ∧ t0 c' = None
    ∧ __len__ c' h' = (Return 1%nat, h').
Proof.
  assert (items ex_samples ≠ []) as Hne by done.
  destruct (apply_makes_scalar_container ex_samples np_std_list ex_samples_heap
              ex_samples_wf) as (c' & h' & Hrun & _ & Hkeys & Ht0 & Hlen & _).
  exists c', h'. split; [exact Hrun|]. split; [exact Hkeys|].
  split; [exact Ht0|]. exact (proj2 (Hlen Hne)).
Defined.

(** X21: the mean of a container of zero-dimensional arrays, such as a
    reduction returns, holds the same numbers and units: taking the mean
    twice gives what taking it once gives. *)
Theorem mean_of_scalar_container self h k q :
  wf_samples h self →
  _shape self = Some Shape0 →
  odict_get k (items self) = Some q →
  ∃ c' h' q',
    mean self h = (Return c', h')
    ∧ odict_get k (items c') = Some q'
    ∧ q_content h' q' = q_content h q.
Proof.
  intros Hwf Hs Hq.
  destruct (apply_lookup self np_mean_list h k q Hwf Hq)
    as (c' & h' & q' & Hrun & Hq' & Hc).
  exists c', h', q'. split; [exact Hrun|]. split; [exact Hq'|].
  destruct Hwf as (_ & _ & Ha & Hsh & _). rewrite Hs in Hsh.
  destruct Hsh as [_ Hall]. apply odict_get_Some in Hq.
  pose proof (proj1 (Forall_forall _ _) Hall _ Hq) as Hqs.
  pose proof (proj1 (Forall_forall _ _) Ha _ Hq) as Hqa.
  simpl in Hqs, Hqa. pose proof (length_q_value h q Hqa) as Hl.
  rewrite Hqs in Hl. rewrite Hc. unfold q_content. rewrite Hqs.
  destruct (q_value h q) as [|x [|y l]]; try done.
  do 2 f_equal. unfold np_mean_list. simpl. f_equal. field.
Qed.

Lemma mean_of_scalar_container_witness :
  ∃ c' h' q',
    mean ex_scalar_samples ex_scalar_heap = (Return c', h')
    ∧ odict_get "K" (items c') = Some q'
    ∧ q_content h' q' = (Shape0, [3], base_unit "km/s").
Proof.
  assert (_shape ex_scalar_samples = Some Shape0) as Hs by reflexivity.
  set (qK := {| q_buf := 2; q_off := 0; q_shape := Shape0;
                q_unit := base_unit "km/s" |}).
  assert (odict_get "K" (items ex_scalar_samples) = Some qK) as HK
    by reflexivity.
  assert (q_content ex_scalar_heap qK = (Shape0, [3], base_unit "km/s")) as Hv
    by reflexivity.
  assert (wf_samples ex_scalar_heap ex_scalar_samples) as Hwf.
  { split_and!.
    - apply (bool_decide_unpack _). by vm_compute.
    - apply (bool_decide_unpack _). by vm_compute.
    - repeat (constructor; [split; simpl; lia|]). constructor.
    - split; [done|]. repeat constructor.
    - exists 0%nat. split; [done|]. simpl. lia. }
  destruct (mean_of_scalar_container ex_scalar_samples ex_scalar_heap "K" qK
              Hwf Hs HK) as (c' & h' & q' & Hrun & Hq' & Hc).
  exists c', h', q'. split; [exact Hrun|]. split; [exact Hq'|].
  by rewrite Hc.
Defined.

(** *** Persistence, continued *)

Lemma assign_keys self k q :
  keys (assign self k q)
  = if decide (k ∈ keys self) then keys self else keys self ++ [k].
Proof.
  unfold keys, assign. destruct (_shape self); simpl; apply odict_set_keys.
Qed.

(** The keys that the loop of [from_hdf5] assigns come in the order of
    [_valid_keys]. *)
Lemma restore_loop_keys f file s0 ks : ∀ samples hh c' hh',
  h_files hh !! f = Some file →
  NoDup ks →
  Forall (fun k => k ∈ _valid_keys) ks →
  (∀ k s dv u, datasets file !! k = Some (s, dv, u) →
               s = s0 ∧ length dv = shape_size s) →
  (_shape samples = None ∨ _shape samples = Some s0) →
  (∀ k, k ∈ ks → k ∉ keys samples) →
  foldM (fun samples key =>
           file ← read_file f;
           match datasets file !! key with
           | Some _ =>
               v ← quantity_from_hdf5 f key None;
               __setitem__ samples key v
           | None => mret samples
           end) samples ks hh = (Return c', hh') →
  keys c' = keys samples ++ filter (fun k => is_Some (datasets file !! k)) ks.
Proof.
  induction ks as [|k0 ks IH];
    intros samples hh c' hh' Hf Hnd Hv Hds Hshape Hdisj Hrun.
  { injection Hrun as <- _. by rewrite app_nil_r. }
  apply NoDup_cons in Hnd as [Hk0 Hnd].
  apply Forall_cons in Hv as [Hv0 Hv].
  rewrite foldM_cons in Hrun.
  destruct (datasets file !! k0) as [[[s dv] u]|] eqn:Hk0ds.
  - destruct (Hds _ _ _ _ Hk0ds) as [-> Hlen].
    rewrite (restore_step hh samples f file k0 s0 dv u Hf Hk0ds Hv0 Hlen
               ltac:(intros s' Hs'; destruct Hshape; congruence)) in Hrun.
    assert (k0 ∉ keys samples) as Hnot
      by (apply Hdisj, elem_of_cons; by left).
    set (q := {| q_buf := S (length (h_bufs hh)); q_off := 0; q_shape := s0;
                 q_unit := u |}) in *.
    assert (_shape (assign samples k0 q) = None
            ∨ _shape (assign samples k0 q) = Some s0) as Hshape'.
    { right. unfold assign. destruct (_shape samples) eqn:E; simpl; [|done].
      rewrite E. destruct Hshape; congruence. }
    assert (∀ k, k ∈ ks → k ∉ keys (assign samples k0 q)) as Hdisj'.
    { intros k Hk. rewrite assign_keys, decide_False by done.
      intros [Hin| ->%list_elem_of_singleton]%elem_of_app; [|done].
      apply (Hdisj k); [|done]. apply elem_of_cons. by right. }
    rewrite (IH _ (upd_bufs (fun l => l ++ [dv; dv]) hh) _ _ Hf Hnd Hv Hds
               Hshape' Hdisj' Hrun).
    rewrite assign_keys, decide_False by done.
    rewrite filter_cons_True by (by rewrite Hk0ds).
    by rewrite <- app_assoc.
  - rewrite (bind_run _ _ hh file hh) in Hrun by by apply read_ref_run.
    rewrite Hk0ds in Hrun. unfold mret at 1, M_ret at 1 in Hrun.
    assert (∀ k, k ∈ ks → k ∉ keys samples) as Hdisj'.
    { intros k Hk. apply Hdisj, elem_of_cons. by right. }
    rewrite (IH _ _ _ _ Hf Hnd Hv Hds Hshape Hdisj' Hrun).
    by rewrite filter_cons_False by (rewrite Hk0ds; by intros [? ?]).
Qed.

(** X22: writing a container whose reference epoch is [None] or a [Time] to
    an empty file and reading the file gives a container with the same
    reference epoch and, key by key, arrays of the same shape, numbers and
    unit; its keys come in the order of [_valid_keys], whatever their order
    in the original.  The codec of a single array ([quantity_to_hdf5],
    [quantity_from_hdf5]) is the one modelled above. *)
Theorem hdf5_round_trip_keys self h f :
  wf_samples h self →
  h_files h !! f = Some empty_h5file →
  (∀ x, t0 self ≠ Some (T0_numeric x)) →
  ∃ h1 c' h2,
    to_hdf5 self f h = (Return (), h1)
    ∧ from_hdf5 f None [] h1 = (Return c', h2)
    ∧ t0 c' = t0 self
    ∧ keys c' = filter (fun k => k ∈ keys self) _valid_keys
    ∧ ∀ k, q_content h2 <$> odict_get k (items c')
           = q_content h <$> odict_get k (items self).
Proof.
  intros Hwf Hf Ht0.
  destruct (hdf5_round_trip self h f Hwf Hf Ht0)
    as (h1 & c' & h2 & Hto & Hfrom & Ht & Hcontent).
  exists h1, c', h2. split_and!; try done.
  rewrite (to_hdf5_run self h f empty_h5file Hwf Hf Ht0) in Hto.
  injection Hto as <-.
  set (file1 := {| datasets := written h (items self) (datasets empty_h5file);
                   attrs := written_attrs (t0 self) (attrs empty_h5file) |})
    in *.
  pose proof (lookup_lt_Some _ _ _ Hf) as Hlt.
  pose proof Hwf as (Hnd & Hvalid & Halloc & Hshape & Hcache).
  assert (∀ k, datasets file1 !! k = q_content h <$> odict_get k (items self))
    as Hds.
  { intros k. unfold file1. simpl. rewrite written_lookup by done.
    destruct (odict_get k (items self)); [done|]. by rewrite lookup_empty. }
  set (s0 := default Shape0 (_shape self)).
  assert (∀ k s dv u, datasets file1 !! k = Some (s, dv, u) →
                      s = s0 ∧ length dv = shape_size s) as Hdsok.
  { intros k s dv u Hk. rewrite Hds in Hk.
    destruct (odict_get k (items self)) as [q|] eqn:Hq; [|done].
    injection Hk as <- <- <-. apply odict_get_Some in Hq.
    pose proof (proj1 (Forall_forall _ _) Halloc _ Hq) as Ha. simpl in Ha.
    split; [|by apply length_q_value].
    unfold s0. destruct (_shape self) as [s|].
    - destruct Hshape as [_ Hs].
      by apply (proj1 (Forall_forall _ _) Hs (k, q)).
    - destruct Hshape as [_ Hnil]. rewrite Hnil in Hq.
      by apply elem_of_nil in Hq. }
  unfold from_hdf5 in Hfrom.
  rewrite (bind_run _ _ _ file1 _) in Hfrom
    by (apply read_ref_run; simpl; by apply list_lookup_insert_eq).
  match type of Hfrom with
  | (call_cls ?t [] ≫= _) ?hh = _ =>
      rewrite (bind_run _ _ hh (set_cache (blank t) (Some (length (h_dicts hh))))
                 (upd_dicts (fun l => l ++ [None]) hh)) in Hfrom by done
  end.
  match type of Hfrom with
  | foldM _ ?s _ ?hh = _ =>
      assert (h_files hh !! f = Some file1) as HA
        by (simpl; by apply list_lookup_insert_eq);
      assert (_shape s = None ∨ _shape s = Some s0) as HE by (by left);
      assert (∀ k, k ∈ _valid_keys → k ∉ keys s) as HF
        by (intros k _ Hk; by apply elem_of_nil in Hk)
  end.
  assert (Forall (fun k => k ∈ _valid_keys) _valid_keys) as HC
    by (by apply Forall_forall).
  rewrite (restore_loop_keys f file1 s0 _valid_keys _ _ _ _ HA valid_keys_NoDup
             HC Hdsok HE HF Hfrom).
  simpl. apply list_filter_iff. intros k. rewrite Hds.
  destruct (odict_get k (items self)) as [q|] eqn:Hq; simpl.
  - split; [intros _|by eexists]. apply odict_get_Some in Hq.
    apply list_elem_of_fmap. by exists (k, q).
  - split; [by intros [? ?]|]. intros Hin.
    by apply odict_get_None in Hq.
Qed.

Lemma hdf5_round_trip_keys_witness :
  ∃ h1 c' h2,
    to_hdf5 ex_samples 0 ex_file_heap = (Return (), h1)
    ∧ from_hdf5 0 None [] h1 = (Return c', h2)
    ∧ keys ex_samples = ["P"; "e"; "K"; "omega"; "M0"; "v0"]
    ∧ keys c' = ["P"; "M0"; "e"; "omega"; "K"; "v0"].
Proof.
  assert (wf_samples ex_file_heap ex_samples) as Hwf.
  { destruct ex_samples_wf as (H1 & H2 & H3 & H4 & H5).
    split_and!; [exact H1|exact H2| |exact H4|exact H5].
    eapply Forall_impl; [exact H3|]. intros kv Hkv.
    by apply (allocated_bufs ex_samples_heap). }
  assert (h_files ex_file_heap !! 0%nat = Some empty_h5file) as Hf
    by reflexivity.
  assert (∀ x, t0 ex_samples ≠ Some (T0_numeric x)) as Ht0 by (by intros x).
  destruct (hdf5_round_trip_keys ex_samples ex_file_heap 0 Hwf Hf Ht0)
    as (h1 & c' & h2 & Hto & Hfrom & _ & Hkeys & _).
  exists h1, c', h2. split; [exact Hto|]. split; [exact Hfrom|].
  split; [reflexivity|]. rewrite Hkeys. by vm_compute.
Defined.

Lemma restore_loop_no_datasets f n file ks : ∀ samples hh,
  h_files hh !! f = Some file →
  datasets file = ∅ →
  foldM (fun samples key =>
           file ← read_file f;
           match datasets file !! key with
           | Some _ =>
               v ← quantity_from_hdf5 f key n;
               __setitem__ samples key v
           | None => mret samples
           end) samples ks hh = (Return samples, hh).
Proof.
  induction ks as [|k ks IH]; intros samples hh Hf Hds; [done|].
  rewrite foldM_cons.
  rewrite (bind_run _ _ hh file hh) by by apply read_ref_run.
  rewrite Hds, lookup_empty. unfold mret at 1, M_ret at 1. by apply IH.
Qed.

(** X23: reading a file without datasets gives a container without keys,
    whatever the number of samples asked for: its reference epoch is the
    [Time] of the attribute [t0_bmjd] if the file has one and [None]
    otherwise, and its [len()] raises [ValueError]. *)
Theorem from_hdf5_no_datasets f n h file :
  h_files h !! f = Some file →
  datasets file = ∅ →
  ∃ c h',
    from_hdf5 f n [] h = (Return c, h')
    ∧ keys c = []
    ∧ t0 c = (fun x => T0_Time (Time_mjd_tcb x)) <$> attrs file !! "t0_bmjd"
    ∧ __len__ c h' = (Raise (Exn ValueError no_samples_msg), h').
Proof.
  intros Hf Hds. do 2 eexists. split.
  - unfold from_hdf5.
    rewrite (bind_run _ _ h file h) by by apply read_ref_run.
    erewrite bind_run; [|reflexivity].
    by apply (restore_loop_no_datasets f n file).
  - by split_and!.
Qed.

Lemma from_hdf5_no_datasets_witness :
  ∃ c h',
    from_hdf5 0 (Some 10%Z) [] ex_file_heap = (Return c, h')
    ∧ keys c = []
    ∧ t0 c = None.
Proof.
  destruct (from_hdf5_no_datasets 0 (Some 10%Z) ex_file_heap empty_h5file
              eq_refl eq_refl) as (c & h' & Hrun & Hk & Ht & _).
  exists c, h'. split; [exact Hrun|]. split; [exact Hk|]. exact Ht.
Defined.

End ContainerFacts.
